(** * VideoAnalyzer (webrtc/video/full_stack.cc): a shallow embedding

    The analyzer of the full-stack video test sits between a frame source,
    a sender, a network pipe and a renderer.  It is embedded here as a
    record of its fields with one function per callback; the comparison
    thread pool is embedded as an interleaving of the critical sections
    of [CompareFrames].

    Integers: [uint32_t] values are [Z] with the wrap-around written out
    ([wrap32]); [int] and [int64_t] values are [Z] (their arithmetic in the
    analyzer stays far from the overflow bounds: counters are bounded by the
    frame budget and times are NTP milliseconds). *)

From Stdlib Require Import ZArith Lia List Bool.
From stdpp Require Import base option list sorting gmap.

Local Open Scope Z_scope.

(** ** External collaborators *)

(** Modelled from the spec: the [VideoFrame] class (webrtc/video_frame.h) is
    not part of the sources at hand.  A frame is an opaque planar-YUV image
    with a width, a height, a capture NTP time in milliseconds and a 90 kHz
    RTP timestamp; the zero frame denotes "unset". *)
Record VideoFrame := mkVideoFrame {
  width : Z;
  height : Z;
  payload : list Z;
  ntp_time_ms : Z;          (* int64_t *)
  timestamp : Z             (* uint32_t *)
}.

Definition zero_frame : VideoFrame :=
  {| width := 0; height := 0; payload := []; ntp_time_ms := 0; timestamp := 0 |}.

Definition IsZeroSize (f : VideoFrame) : bool :=
  (width f =? 0) && (height f =? 0).

(** [VideoFrame::Reset]: back to the unset frame. *)
Definition Reset (_ : VideoFrame) : VideoFrame := zero_frame.

Definition wrap32 (z : Z) : Z := z mod 2 ^ 32.

(** [copy.set_timestamp(x)]: the argument is converted to [uint32_t]. *)
Definition set_timestamp (x : Z) (f : VideoFrame) : VideoFrame :=
  {| width := width f; height := height f; payload := payload f;
     ntp_time_ms := ntp_time_ms f; timestamp := wrap32 x |}.

(** The parsed RTP header; only the timestamp is read by the analyzer. *)
Record RTPHeader := mkRTPHeader { header_timestamp : Z }.

Definition Packet := list Z.

(** [RtpHeaderParser::Parse], taken as a parameter. *)
Class RtpHeaderParser := { Parse : Packet → RTPHeader }.

(** The downstream [newapi::Transport]: a stateful object with two entry
    points, each returning its verdict and its next state. *)
Class Transport (T : Type) := {
  transport_SendRtp : T → Packet → bool * T;
  transport_SendRtcp : T → Packet → bool * T
}.

(** Samples are C++ [double]s.  The similarity routines and the conversion
    from integers are parameters; [test::Statistics] lives outside the
    sources at hand. *)
Class Metrics := {
  double : Type;
  double_of_Z : Z → double;
  I420PSNR : VideoFrame → VideoFrame → double;
  I420SSIM : VideoFrame → VideoFrame → double
}.

(** Modelled from the spec: [test::Statistics] is a collection that accepts
    real-valued samples and only grows; it is kept as the samples in the
    order they were added. *)
Record Statistics `{Metrics} := mkStatistics { samples : list double }.

Definition empty_Statistics `{Metrics} : Statistics := {| samples := [] |}.

Definition AddSample `{Metrics} (x : double) (st : Statistics) : Statistics :=
  {| samples := samples st ++ [x] |}.

(** [VideoSendStream::Stats], the four fields the poller reads. *)
Record SendStreamStats := mkSendStreamStats {
  stats_encode_frame_rate : Z;
  stats_avg_encode_time_ms : Z;
  stats_encode_usage_percent : Z;
  stats_media_bitrate_bps : Z
}.

(** ** The analyzer's data *)

Record FrameComparison := mkFrameComparison {
  reference : VideoFrame;
  render : VideoFrame;
  dropped : bool;
  send_time_ms : Z;
  recv_time_ms : Z;
  render_time_ms : Z
}.

(** The program point of one comparison thread inside [CompareFrames].
    Every critical section is one step. *)
Inductive WorkerPc :=
  | PcEntry                              (* about to call AllFramesRecorded *)
  | PcPop                                (* about to call PopComparison *)
  | PcWait                               (* pop failed: waiting on the event *)
  | PcRecheck                            (* woken up: AllFramesRecorded again *)
  | PcCompare (c : FrameComparison)      (* popped: PerformFrameComparison *)
  | PcProcessed                          (* about to call FrameProcessed *)
  | PcLast                               (* FrameProcessed returned true *)
  | PcExit.                              (* CompareFrames returned false *)

Section Analyzer.
Context `{Metrics} `{RtpHeaderParser}.

Record VideoAnalyzer := mkVideoAnalyzer {
  (* guarded by comparison_lock_ *)
  sender_time_ : Statistics;
  receiver_time_ : Statistics;
  psnr_ : Statistics;
  ssim_ : Statistics;
  end_to_end_ : Statistics;
  rendered_delta_ : Statistics;
  encoded_frame_size_ : Statistics;
  encode_frame_rate_ : Statistics;
  encode_time_ms : Statistics;
  encode_usage_percent : Statistics;
  media_bitrate_bps : Statistics;
  frames_to_process_ : Z;
  frames_recorded_ : Z;
  frames_processed_ : Z;
  dropped_frames_ : Z;
  last_render_time_ : Z;
  comparisons_ : list FrameComparison;
  (* guarded by crit_ *)
  rtp_timestamp_delta_ : Z;
  frames_ : list VideoFrame;
  last_rendered_frame_ : VideoFrame;
  send_times_ : gmap Z Z;
  recv_times_ : gmap Z Z;
  first_send_frame_ : VideoFrame;
  (* events and threads *)
  comparison_available_event_ : bool;
  done_ : bool;
  done_signals : nat;                    (* ghost: calls of done_->Set() by workers *)
  performed : list FrameComparison;      (* ghost: comparisons fed to the statistics *)
  comparison_thread_pool_ : list WorkerPc
}.

(** The fields guarded by [crit_]. *)
Definition with_crit (a : VideoAnalyzer) delta frames last sends recvs first : VideoAnalyzer :=
  {| sender_time_ := sender_time_ a; receiver_time_ := receiver_time_ a;
     psnr_ := psnr_ a; ssim_ := ssim_ a; end_to_end_ := end_to_end_ a;
     rendered_delta_ := rendered_delta_ a;
     encoded_frame_size_ := encoded_frame_size_ a;
     encode_frame_rate_ := encode_frame_rate_ a;
     encode_time_ms := encode_time_ms a;
     encode_usage_percent := encode_usage_percent a;
     media_bitrate_bps := media_bitrate_bps a;
     frames_to_process_ := frames_to_process_ a;
     frames_recorded_ := frames_recorded_ a;
     frames_processed_ := frames_processed_ a;
     dropped_frames_ := dropped_frames_ a;
     last_render_time_ := last_render_time_ a; comparisons_ := comparisons_ a;
     rtp_timestamp_delta_ := delta; frames_ := frames;
     last_rendered_frame_ := last; send_times_ := sends; recv_times_ := recvs;
     first_send_frame_ := first;
     comparison_available_event_ := comparison_available_event_ a;
     done_ := done_ a; done_signals := done_signals a;
     performed := performed a;
     comparison_thread_pool_ := comparison_thread_pool_ a |}.

(** The fields that steer the comparison threads. *)
Definition with_workers (a : VideoAnalyzer) recorded processed comparisons event done signals pool : VideoAnalyzer :=
  {| sender_time_ := sender_time_ a; receiver_time_ := receiver_time_ a;
     psnr_ := psnr_ a; ssim_ := ssim_ a; end_to_end_ := end_to_end_ a;
     rendered_delta_ := rendered_delta_ a;
     encoded_frame_size_ := encoded_frame_size_ a;
     encode_frame_rate_ := encode_frame_rate_ a;
     encode_time_ms := encode_time_ms a;
     encode_usage_percent := encode_usage_percent a;
     media_bitrate_bps := media_bitrate_bps a;
     frames_to_process_ := frames_to_process_ a; frames_recorded_ := recorded;
     frames_processed_ := processed; dropped_frames_ := dropped_frames_ a;
     last_render_time_ := last_render_time_ a; comparisons_ := comparisons;
     rtp_timestamp_delta_ := rtp_timestamp_delta_ a; frames_ := frames_ a;
     last_rendered_frame_ := last_rendered_frame_ a;
     send_times_ := send_times_ a; recv_times_ := recv_times_ a;
     first_send_frame_ := first_send_frame_ a;
     comparison_available_event_ := event; done_ := done;
     done_signals := signals; performed := performed a;
     comparison_thread_pool_ := pool |}.

(** The fields written by [PerformFrameComparison]. *)
Definition with_stats (a : VideoAnalyzer) sender receiver psnr ssim e2e rdelta ndropped last log : VideoAnalyzer :=
  {| sender_time_ := sender; receiver_time_ := receiver; psnr_ := psnr;
     ssim_ := ssim; end_to_end_ := e2e; rendered_delta_ := rdelta;
     encoded_frame_size_ := encoded_frame_size_ a;
     encode_frame_rate_ := encode_frame_rate_ a;
     encode_time_ms := encode_time_ms a;
     encode_usage_percent := encode_usage_percent a;
     media_bitrate_bps := media_bitrate_bps a;
     frames_to_process_ := frames_to_process_ a;
     frames_recorded_ := frames_recorded_ a;
     frames_processed_ := frames_processed_ a; dropped_frames_ := ndropped;
     last_render_time_ := last; comparisons_ := comparisons_ a;
     rtp_timestamp_delta_ := rtp_timestamp_delta_ a; frames_ := frames_ a;
     last_rendered_frame_ := last_rendered_frame_ a;
     send_times_ := send_times_ a; recv_times_ := recv_times_ a;
     first_send_frame_ := first_send_frame_ a;
     comparison_available_event_ := comparison_available_event_ a;
     done_ := done_ a; done_signals := done_signals a; performed := log;
     comparison_thread_pool_ := comparison_thread_pool_ a |}.

(** The statistics fed by the encoder observer and the stats poller. *)
Definition with_poll (a : VideoAnalyzer) size rate time usage bitrate : VideoAnalyzer :=
  {| sender_time_ := sender_time_ a; receiver_time_ := receiver_time_ a;
     psnr_ := psnr_ a; ssim_ := ssim_ a; end_to_end_ := end_to_end_ a;
     rendered_delta_ := rendered_delta_ a; encoded_frame_size_ := size;
     encode_frame_rate_ := rate; encode_time_ms := time;
     encode_usage_percent := usage; media_bitrate_bps := bitrate;
     frames_to_process_ := frames_to_process_ a;
     frames_recorded_ := frames_recorded_ a;
     frames_processed_ := frames_processed_ a;
     dropped_frames_ := dropped_frames_ a;
     last_render_time_ := last_render_time_ a; comparisons_ := comparisons_ a;
     rtp_timestamp_delta_ := rtp_timestamp_delta_ a; frames_ := frames_ a;
     last_rendered_frame_ := last_rendered_frame_ a;
     send_times_ := send_times_ a; recv_times_ := recv_times_ a;
     first_send_frame_ := first_send_frame_ a;
     comparison_available_event_ := comparison_available_event_ a;
     done_ := done_ a; done_signals := done_signals a;
     performed := performed a;
     comparison_thread_pool_ := comparison_thread_pool_ a |}.

(** ** The constructor *)

(** The size of the comparison thread pool, from the detected number of
    cores (a [uint32_t]). *)
Definition kMinCoresLeft : Z := 4.
Definition kMaxComparisonThreads : Z := 8.

Definition num_comparison_threads (num_cores : Z) : Z :=
  if num_cores <=? kMinCoresLeft then 1
  else Z.min (wrap32 (num_cores - kMinCoresLeft)) kMaxComparisonThreads.

Definition new_VideoAnalyzer (duration_frames num_cores : Z) : VideoAnalyzer :=
  {| sender_time_ := empty_Statistics; receiver_time_ := empty_Statistics;
     psnr_ := empty_Statistics; ssim_ := empty_Statistics;
     end_to_end_ := empty_Statistics; rendered_delta_ := empty_Statistics;
     encoded_frame_size_ := empty_Statistics;
     encode_frame_rate_ := empty_Statistics;
     encode_time_ms := empty_Statistics;
     encode_usage_percent := empty_Statistics;
     media_bitrate_bps := empty_Statistics;
     frames_to_process_ := duration_frames;
     frames_recorded_ := 0; frames_processed_ := 0; dropped_frames_ := 0;
     last_render_time_ := 0;
     comparisons_ := [];
     rtp_timestamp_delta_ := 0; frames_ := [];
     last_rendered_frame_ := zero_frame;
     send_times_ := ∅; recv_times_ := ∅;
     first_send_frame_ := zero_frame;
     comparison_available_event_ := false;
     done_ := false; done_signals := 0%nat; performed := [];
     comparison_thread_pool_ :=
       replicate (Z.to_nat (num_comparison_threads num_cores)) PcEntry |}.

(** ** The callbacks guarded by [crit_] *)

(** [DeliverPacket], up to the call of the real receiver. *)
Definition DeliverPacket (a : VideoAnalyzer) (packet : Packet) (now : Z) : VideoAnalyzer :=
  let header := Parse packet in
  with_crit a (rtp_timestamp_delta_ a) (frames_ a) (last_rendered_frame_ a)
    (send_times_ a)
    (<[wrap32 (header_timestamp header - rtp_timestamp_delta_ a) := now]> (recv_times_ a))
    (first_send_frame_ a).

(** [IncomingCapturedFrame], up to the call of the real capture input. *)
Definition IncomingCapturedFrame (a : VideoAnalyzer) (video_frame : VideoFrame) : VideoAnalyzer :=
  let copy := set_timestamp (ntp_time_ms video_frame * 90) video_frame in
  let first :=
    if IsZeroSize (first_send_frame_ a) && (rtp_timestamp_delta_ a =? 0)
    then copy else first_send_frame_ a in
  with_crit a (rtp_timestamp_delta_ a) (frames_ a ++ [copy])
    (last_rendered_frame_ a) (send_times_ a) (recv_times_ a) first.

(** The critical section of [SendRtp]. *)
Definition SendRtp_locked (a : VideoAnalyzer) (packet : Packet) (now : Z) : VideoAnalyzer :=
  let header := Parse packet in
  let delta :=
    if rtp_timestamp_delta_ a =? 0
    then wrap32 (header_timestamp header - timestamp (first_send_frame_ a))
    else rtp_timestamp_delta_ a in
  let first :=
    if rtp_timestamp_delta_ a =? 0
    then Reset (first_send_frame_ a) else first_send_frame_ a in
  with_crit a delta (frames_ a) (last_rendered_frame_ a)
    (<[wrap32 (header_timestamp header - delta) := now]> (send_times_ a))
    (recv_times_ a) first.

Section WithTransport.
Context {T : Type} `{Transport T}.

Definition SendRtp (a : VideoAnalyzer) (t : T) (packet : Packet) (now : Z)
  : bool * VideoAnalyzer * T :=
  let a' := SendRtp_locked a packet now in
  let '(r, t') := transport_SendRtp t packet in
  (r, a', t').

Definition SendRtcp (a : VideoAnalyzer) (t : T) (packet : Packet)
  : bool * VideoAnalyzer * T :=
  let '(r, t') := transport_SendRtcp t packet in
  (r, a, t').

End WithTransport.

(** The [comparison_lock_] section of [AddFrameComparison]: the push and
    the wake-up of the comparison threads. *)
Definition PushComparison (a : VideoAnalyzer) (c : FrameComparison) : VideoAnalyzer :=
  with_workers a (frames_recorded_ a) (frames_processed_ a)
    (comparisons_ a ++ [c]) true (done_ a) (done_signals a)
    (comparison_thread_pool_ a).

(** [AddFrameComparison]: [send_times_[k]] default-inserts 0 for a missing
    key before the entry is erased, so a missing time reads as 0. *)
Definition AddFrameComparison (a : VideoAnalyzer) (reference render : VideoFrame)
    (dropped : bool) (render_time_ms : Z) : VideoAnalyzer :=
  let send_time_ms := default 0 (send_times_ a !! timestamp reference) in
  let recv_time_ms := default 0 (recv_times_ a !! timestamp reference) in
  let a1 :=
    with_crit a (rtp_timestamp_delta_ a) (frames_ a) (last_rendered_frame_ a)
      (delete (timestamp reference) (send_times_ a))
      (delete (timestamp reference) (recv_times_ a))
      (first_send_frame_ a) in
  PushComparison a1
    (mkFrameComparison reference render dropped send_time_ms recv_time_ms
       render_time_ms).

Definition pop_front (a : VideoAnalyzer) : VideoAnalyzer :=
  with_crit a (rtp_timestamp_delta_ a) (tail (frames_ a))
    (last_rendered_frame_ a) (send_times_ a) (recv_times_ a)
    (first_send_frame_ a).

Definition set_last_rendered_frame (a : VideoAnalyzer) (f : VideoFrame) : VideoAnalyzer :=
  with_crit a (rtp_timestamp_delta_ a) (frames_ a) f (send_times_ a)
    (recv_times_ a) (first_send_frame_ a).

(** The loop of [RenderFrame] that turns the captured frames older than the
    rendered one into dropped comparisons.  It recurses on the capture
    queue, which [queue] mirrors; [front()] of an empty deque is undefined
    and is an error here. *)
Fixpoint drain_dropped (queue : list VideoFrame) (a : VideoAnalyzer)
    (send_timestamp render_time_ms : Z) : option VideoAnalyzer :=
  match queue with
  | [] => None
  | front :: rest =>
      if timestamp front <? send_timestamp
      then drain_dropped rest
             (pop_front (AddFrameComparison a front (last_rendered_frame_ a) true
                           render_time_ms))
             send_timestamp render_time_ms
      else Some a
  end.

(** [uint32_t send_timestamp = video_frame.timestamp() - rtp_timestamp_delta_]. *)
Definition send_timestamp_of (a : VideoAnalyzer) (video_frame : VideoFrame) : Z :=
  wrap32 (timestamp video_frame - rtp_timestamp_delta_ a).

(** [RenderFrame]; [None] is the undefined [front()] or a failed [assert]. *)
Definition RenderFrame (a : VideoAnalyzer) (video_frame : VideoFrame)
    (render_time_ms : Z) : option VideoAnalyzer :=
  let send_timestamp := send_timestamp_of a video_frame in
  a1 ← drain_dropped (frames_ a) a send_timestamp render_time_ms;
  match frames_ a1 with
  | [] => None
  | reference_frame :: _ =>
      let a2 := pop_front a1 in
      if IsZeroSize reference_frame then None
      else if negb (timestamp reference_frame =? send_timestamp) then None
      else
        Some (set_last_rendered_frame
                (AddFrameComparison a2 reference_frame video_frame false
                   render_time_ms)
                video_frame)
  end.

(** ** The callbacks guarded by [comparison_lock_] *)

Definition EncodedFrameCallback (a : VideoAnalyzer) (length_ : Z) : VideoAnalyzer :=
  if frames_recorded_ a <? frames_to_process_ a
  then with_poll a (AddSample (double_of_Z length_) (encoded_frame_size_ a))
         (encode_frame_rate_ a) (encode_time_ms a) (encode_usage_percent a)
         (media_bitrate_bps a)
  else a.

(** [PollStats]: when the done event is set the poller sets it again and
    stops; at a time-out it samples the send stream's statistics.  (A
    failing event wait, [kEventError], is left out.) *)
Definition PollStats (a : VideoAnalyzer) (stats : SendStreamStats) : bool * VideoAnalyzer :=
  if done_ a then (false, a)
  else
    (true,
     with_poll a (encoded_frame_size_ a)
       (AddSample (double_of_Z (stats_encode_frame_rate stats)) (encode_frame_rate_ a))
       (AddSample (double_of_Z (stats_avg_encode_time_ms stats)) (encode_time_ms a))
       (AddSample (double_of_Z (stats_encode_usage_percent stats)) (encode_usage_percent a))
       (AddSample (double_of_Z (stats_media_bitrate_bps stats)) (media_bitrate_bps a))).

(** [assert(frames_recorded_ <= frames_to_process_)]: [None] when it fails. *)
Definition AllFramesRecorded (a : VideoAnalyzer) : option bool :=
  if frames_recorded_ a <=? frames_to_process_ a
  then Some (frames_recorded_ a =? frames_to_process_ a)
  else None.

Definition FrameRecorded (a : VideoAnalyzer) : VideoAnalyzer :=
  with_workers a (frames_recorded_ a + 1) (frames_processed_ a)
    (comparisons_ a) (comparison_available_event_ a) (done_ a)
    (done_signals a) (comparison_thread_pool_ a).

Definition set_comparisons (a : VideoAnalyzer) (q : list FrameComparison) : VideoAnalyzer :=
  with_workers a (frames_recorded_ a) (frames_processed_ a) q
    (comparison_available_event_ a) (done_ a) (done_signals a)
    (comparison_thread_pool_ a).

(** [PopComparison]: the popped comparison, if any, and the next state. *)
Definition PopComparison (a : VideoAnalyzer)
  : option (option FrameComparison * VideoAnalyzer) :=
  match comparisons_ a with
  | [] => Some (None, a)
  | front :: rest =>
      all ← AllFramesRecorded a;
      if all : bool then Some (None, a)
      else Some (Some front, FrameRecorded (set_comparisons a rest))
  end.

(** [FrameProcessed]: [None] when [assert(frames_processed_ <=
    frames_to_process_)] fails. *)
Definition FrameProcessed (a : VideoAnalyzer) : option (bool * VideoAnalyzer) :=
  let processed := frames_processed_ a + 1 in
  let a' :=
    with_workers a (frames_recorded_ a) processed (comparisons_ a)
      (comparison_available_event_ a) (done_ a) (done_signals a)
      (comparison_thread_pool_ a) in
  if processed <=? frames_to_process_ a
  then Some (processed =? frames_to_process_ a, a')
  else None.

Definition PerformFrameComparison (a : VideoAnalyzer) (comparison : FrameComparison)
  : VideoAnalyzer :=
  let psnr := I420PSNR (reference comparison) (render comparison) in
  let ssim := I420SSIM (reference comparison) (render comparison) in
  let psnr' := AddSample psnr (psnr_ a) in
  let ssim' := AddSample ssim (ssim_ a) in
  if dropped comparison
  then with_stats a (sender_time_ a) (receiver_time_ a) psnr' ssim'
         (end_to_end_ a) (rendered_delta_ a) (dropped_frames_ a + 1)
         (last_render_time_ a) (performed a ++ [comparison])
  else
    let rdelta :=
      if negb (last_render_time_ a =? 0)
      then AddSample
             (double_of_Z (render_time_ms comparison - last_render_time_ a))
             (rendered_delta_ a)
      else rendered_delta_ a in
    let input_time_ms := ntp_time_ms (reference comparison) in
    with_stats a
      (AddSample (double_of_Z (send_time_ms comparison - input_time_ms))
         (sender_time_ a))
      (AddSample (double_of_Z (render_time_ms comparison - recv_time_ms comparison))
         (receiver_time_ a))
      psnr' ssim'
      (AddSample (double_of_Z (render_time_ms comparison - input_time_ms))
         (end_to_end_ a))
      rdelta (dropped_frames_ a) (render_time_ms comparison)
      (performed a ++ [comparison]).

(** ** The comparison threads *)

Definition set_pc (i : nat) (pc : WorkerPc) (a : VideoAnalyzer) : VideoAnalyzer :=
  with_workers a (frames_recorded_ a) (frames_processed_ a) (comparisons_ a)
    (comparison_available_event_ a) (done_ a) (done_signals a)
    (<[i := pc]> (comparison_thread_pool_ a)).

Definition set_event (e : bool) (a : VideoAnalyzer) : VideoAnalyzer :=
  with_workers a (frames_recorded_ a) (frames_processed_ a) (comparisons_ a)
    e (done_ a) (done_signals a) (comparison_thread_pool_ a).

(** [done_->Set()] by a comparison thread. *)
Definition set_done (a : VideoAnalyzer) : VideoAnalyzer :=
  with_workers a (frames_recorded_ a) (frames_processed_ a) (comparisons_ a)
    (comparison_available_event_ a) true (S (done_signals a))
    (comparison_thread_pool_ a).

(** One step of thread [i] through [CompareFrames], from one critical
    section to the next.  A thread whose call returned [true] is called
    again ([PcEntry]); one whose call returned [false] has stopped
    ([PcExit]).  [None] is a failed [assert]. *)
Definition CompareFrames_step (i : nat) (a : VideoAnalyzer) : option VideoAnalyzer :=
  match comparison_thread_pool_ a !! i with
  | None => Some a
  | Some PcEntry =>
      all ← AllFramesRecorded a;
      Some (set_pc i (if all : bool then PcExit else PcPop) a)
  | Some PcPop =>
      '(popped, a') ← PopComparison a;
      match popped with
      | None => Some (set_pc i PcWait a')
      | Some comparison => Some (set_pc i (PcCompare comparison) a')
      end
  | Some PcWait =>
      (* comparison_available_event_->Wait(1000): signalled or timed out;
         the event resets itself *)
      Some (set_pc i PcRecheck (set_event false a))
  | Some PcRecheck =>
      all ← AllFramesRecorded a;
      if all : bool then Some (set_pc i PcExit (set_event true a))
      else Some (set_pc i PcEntry a)
  | Some (PcCompare comparison) =>
      Some (set_pc i PcProcessed (PerformFrameComparison a comparison))
  | Some PcProcessed =>
      '(last, a') ← FrameProcessed a;
      Some (set_pc i (if last : bool then PcLast else PcEntry) a')
  | Some PcLast =>
      (* PrintResults(); done_->Set(); comparison_available_event_->Set() *)
      Some (set_pc i PcExit (set_event true (set_done a)))
  | Some PcExit => Some a
  end.

(** ** Runs *)

(** What the threads around the analyzer can do to it.  [APush] is the
    [comparison_lock_] section of [AddFrameComparison] on its own: the
    render thread holds [crit_] across [RenderFrame] but takes
    [comparison_lock_] once per comparison, so the comparison threads can
    run between two pushes of one call. *)
Inductive Action :=
  | ACapture (video_frame : VideoFrame)          (* capture thread *)
  | ASendRtp (packet : Packet) (now : Z)         (* send thread *)
  | ADeliver (packet : Packet) (now : Z)         (* receive thread *)
  | ARender (video_frame : VideoFrame) (now : Z) (* render thread *)
  | APush (c : FrameComparison)                  (* render thread, one push *)
  | AEncoded (length_ : Z)                       (* encoder thread *)
  | APoll (stats : SendStreamStats)              (* stats poller *)
  | AWorker (i : nat).                           (* comparison thread i *)

Definition step (a : VideoAnalyzer) (act : Action) : option VideoAnalyzer :=
  match act with
  | ACapture f => Some (IncomingCapturedFrame a f)
  | ASendRtp p now => Some (SendRtp_locked a p now)
  | ADeliver p now => Some (DeliverPacket a p now)
  | ARender f now => RenderFrame a f now
  | APush c => Some (PushComparison a c)
  | AEncoded n => Some (EncodedFrameCallback a n)
  | APoll st => Some (snd (PollStats a st))
  | AWorker i => CompareFrames_step i a
  end.

Fixpoint run (a : VideoAnalyzer) (acts : list Action) : option VideoAnalyzer :=
  match acts with
  | [] => Some a
  | act :: acts => a' ← step a act; run a' acts
  end.

(** ** [Wait] *)

Inductive WaitResult :=
  | WaitDone            (* the done event was signalled *)
  | WaitStalled         (* ASSERT_GT failed: "Analyzer stalled ..." *)
  | WaitPending         (* still blocked when the schedule ends *)
  | WaitCrashed.        (* another thread ran into a failed assert *)

(** The loop of [Wait].  Each element of [periods] is what the other
    threads do during one [done_->Wait(kDefaultTimeoutMs)]: the wait
    returns [kEventSignaled] when the period leaves [done_] set and times
    out otherwise.  The result comes with [iteration], the number of
    time-outs seen. *)
Fixpoint Wait_loop (a : VideoAnalyzer) (periods : list (list Action))
    (last_frames_processed : Z) (iteration : nat) : WaitResult * nat :=
  match periods with
  | [] => (WaitPending, iteration)
  | acts :: periods =>
      match run a acts with
      | None => (WaitCrashed, iteration)
      | Some a' =>
          if done_ a' then (WaitDone, iteration)
          else
            let frames_processed := frames_processed_ a' in
            let iteration := S iteration in
            if last_frames_processed =? -1
            then Wait_loop a' periods frames_processed iteration
            else if last_frames_processed <? frames_processed
            then Wait_loop a' periods frames_processed iteration
            else (WaitStalled, iteration)
      end
  end.

Definition Wait (a : VideoAnalyzer) (periods : list (list Action)) : WaitResult * nat :=
  Wait_loop a periods (-1) 0.

End Analyzer.

(** ** Concrete collaborators, for evaluating the analyzer *)

(** Samples kept as the integers they were made from; both similarity
    routines answer 0. *)
Definition integer_metrics : Metrics :=
  {| double := Z; double_of_Z := λ z, z;
     I420PSNR := λ _ _, 0; I420SSIM := λ _ _, 0 |}.

(** A packet whose first element is its RTP timestamp. *)
Definition head_parser : RtpHeaderParser :=
  {| Parse := λ p, mkRTPHeader (hd 0 p) |}.

(** A transport that counts the packets it was given and accepts all. *)
Definition counting_transport : Transport nat :=
  {| transport_SendRtp := λ t _, (true, S t);
     transport_SendRtcp := λ t _, (true, S t) |}.

Definition frame_at (ntp : Z) : VideoFrame :=
  {| width := 176; height := 144; payload := []; ntp_time_ms := ntp;
     timestamp := 0 |}.

(** The copy of it that the capture tap queues, and a rendered frame that
    arrives with a given RTP timestamp. *)
Definition captured (ntp : Z) : VideoFrame :=
  set_timestamp (ntp * 90) (frame_at ntp).

Definition rendered (rtp : Z) : VideoFrame := set_timestamp rtp (frame_at 0).

Section Scenarios.
#[local] Existing Instance integer_metrics.
#[local] Existing Instance head_parser.

(** Three frames captured at 10, 20 and 30 ms; the first packet leaves with
    RTP timestamp 5000, so the delta is 4100. *)
Definition three_captured : VideoAnalyzer :=
  SendRtp_locked
    (IncomingCapturedFrame
       (IncomingCapturedFrame
          (IncomingCapturedFrame (new_VideoAnalyzer 2 6) (frame_at 10))
          (frame_at 20))
       (frame_at 30))
    [5000] 11.

(** One frame through the whole analyzer with a budget of one frame and
    one comparison thread. *)
Definition one_frame_run : list Action :=
  [ACapture (frame_at 10); ASendRtp [5000] 11; ADeliver [5000] 12;
   ARender (rendered 5000) 40;
   AWorker 0; AWorker 0; AWorker 0; AWorker 0; AWorker 0].

(** A sender whose RTP timestamps equal the capture timestamps: one frame
    captured at 10 ms (timestamp 900). *)
Definition zero_offset_start : VideoAnalyzer :=
  IncomingCapturedFrame (new_VideoAnalyzer 2 6) (frame_at 10).

(** A frame rendered without any send or receive time on record, and
    picked up by the comparison thread. *)
Definition untimed_run : list Action :=
  [ACapture (frame_at 10); ARender (rendered 900) 40;
   AWorker 0; AWorker 0; AWorker 0].

(** Budget of one frame, two threads: the frame captured first is never
    rendered, so rendering the second one queues two comparisons; thread 0
    takes the first. *)
Definition two_queued_run : list Action :=
  [ACapture (frame_at 10); ACapture (frame_at 20); ASendRtp [5000] 11;
   ARender (rendered 5900) 40; AWorker 0; AWorker 0].

End Scenarios.

(** ** Vocabulary of the statements *)

(** *** Counting threads by program point *)

Fixpoint count_pc (p : WorkerPc → bool) (pool : list WorkerPc) : Z :=
  match pool with
  | [] => 0
  | pc :: pool => (if p pc then 1 else 0) + count_pc p pool
  end.

(** Popped from the queue and not yet counted as processed. *)
Definition in_flight (pc : WorkerPc) : bool :=
  match pc with PcCompare _ | PcProcessed => true | _ => false end.

(** Fed to the statistics and not yet counted as processed. *)
Definition is_compared (pc : WorkerPc) : bool :=
  match pc with PcProcessed => true | _ => false end.

(** Saw [FrameProcessed] return true and has not signalled yet. *)
Definition is_last (pc : WorkerPc) : bool :=
  match pc with PcLast => true | _ => false end.

(** Has returned [false] from [CompareFrames]: the thread has stopped. *)
Definition is_exit (pc : WorkerPc) : bool :=
  match pc with PcExit => true | _ => false end.

(** How many steps a thread is at most away from counting a frame as
    processed or from stopping, provided the queue does not run dry before
    every frame has been recorded; [all] tells whether every frame has been
    recorded. *)
Definition pc_rank (all : bool) (pc : WorkerPc) : Z :=
  match pc with
  | PcExit => 0
  | PcLast => 1
  | PcProcessed => 2
  | PcCompare _ => 3
  | PcPop => 4
  | PcEntry => if all then 1 else 5
  | PcRecheck => if all then 2 else 6
  | PcWait => if all then 3 else 7
  end.

Fixpoint pool_rank (all : bool) (pool : list WorkerPc) : Z :=
  match pool with
  | [] => 0
  | pc :: pool => pc_rank all pc + pool_rank all pool
  end.

(** The comparisons of a log that were dropped ([tally true]) or rendered
    ([tally false]). *)
Definition tally (b : bool) (log : list FrameComparison) : Z :=
  Z.of_nat (length (List.filter (λ c, eqb (dropped c) b) log)).

Section Vocabulary.
Context `{Metrics} `{RtpHeaderParser}.

(** The part of the analyzer that the comparison threads steer by. *)
Definition pool_view (a : VideoAnalyzer) :=
  (frames_to_process_ a, frames_recorded_ a, frames_processed_ a,
   dropped_frames_ a, done_ a, done_signals a, performed a,
   comparison_thread_pool_ a,
   (samples (psnr_ a), samples (ssim_ a), samples (sender_time_ a),
    samples (receiver_time_ a), samples (end_to_end_ a),
    samples (rendered_delta_ a))).

(** The state of the thread pool is consistent: every popped comparison
    is either in flight or counted, and the thread that counted the last
    one is the one that signals. *)
Definition all_done (a : VideoAnalyzer) : bool :=
  (frames_processed_ a =? frames_to_process_ a) && (0 <? frames_to_process_ a).

Record Inv (a : VideoAnalyzer) : Prop := {
  inv_nonneg : 0 ≤ frames_processed_ a;
  inv_in_flight :
    frames_processed_ a + count_pc in_flight (comparison_thread_pool_ a)
    = frames_recorded_ a;
  inv_budget : frames_recorded_ a ≤ frames_to_process_ a;
  inv_last :
    count_pc is_last (comparison_thread_pool_ a) + Z.of_nat (done_signals a)
    = if all_done a then 1 else 0;
  inv_done : done_ a = negb (Nat.eqb (done_signals a) 0);
  inv_performed :
    Z.of_nat (length (performed a))
    = frames_processed_ a + count_pc is_compared (comparison_thread_pool_ a);
  inv_dropped : dropped_frames_ a = tally true (performed a);
  inv_psnr : length (samples (psnr_ a)) = length (performed a);
  inv_ssim : length (samples (ssim_ a)) = length (performed a);
  inv_sender :
    Z.of_nat (length (samples (sender_time_ a))) = tally false (performed a);
  inv_receiver :
    Z.of_nat (length (samples (receiver_time_ a))) = tally false (performed a);
  inv_end_to_end :
    Z.of_nat (length (samples (end_to_end_ a))) = tally false (performed a);
  inv_rendered_delta :
    Z.of_nat (length (samples (rendered_delta_ a))) ≤ tally false (performed a)
}.

(** A thread stops only once every frame has been recorded. *)
Definition exits_late (a : VideoAnalyzer) : Prop :=
  ∀ i, comparison_thread_pool_ a !! i = Some PcExit →
       frames_recorded_ a = frames_to_process_ a.

(** The comparisons still to be recorded are in the queue already. *)
Definition enough_queued (a : VideoAnalyzer) : Prop :=
  frames_to_process_ a
  ≤ frames_recorded_ a + Z.of_nat (length (comparisons_ a)).

(** A bound on the steps the comparison threads still take. *)
Definition rank (a : VideoAnalyzer) : Z :=
  8 * (frames_to_process_ a - frames_processed_ a)
  + pool_rank (frames_recorded_ a =? frames_to_process_ a)
      (comparison_thread_pool_ a).

(** A step of a comparison thread that has not stopped. *)
Definition is_thread_step (a : VideoAnalyzer) (act : Action) : bool :=
  match act with
  | AWorker i =>
      match comparison_thread_pool_ a !! i with
      | Some pc => negb (is_exit pc)
      | None => false
      end
  | _ => false
  end.

(** The number of such steps in a run. *)
Fixpoint thread_steps (a : VideoAnalyzer) (acts : list Action) : nat :=
  match acts with
  | [] => 0
  | act :: acts =>
      match step a act with
      | Some a' =>
          ((if is_thread_step a act then 1 else 0) + thread_steps a' acts)%nat
      | None => 0%nat
      end
  end.

End Vocabulary.

(** ** Sequences of callbacks *)

Section Sequences.
Context `{Metrics} `{RtpHeaderParser}.

(** The copy of a frame that [IncomingCapturedFrame] queues. *)
Definition capture_copy (video_frame : VideoFrame) : VideoFrame :=
  set_timestamp (ntp_time_ms video_frame * 90) video_frame.

(** The capture thread delivering frames one after the other. *)
Definition captures (a : VideoAnalyzer) (fs : list VideoFrame) : VideoAnalyzer :=
  foldl IncomingCapturedFrame a fs.

(** The render thread delivering frames one after the other, each with the
    time at which it is rendered. *)
Fixpoint renders (a : VideoAnalyzer) (vs : list (VideoFrame * Z))
  : option VideoAnalyzer :=
  match vs with
  | [] => Some a
  | (video_frame, now) :: vs =>
      a' ← RenderFrame a video_frame now; renders a' vs
  end.

(** The comparisons that the threads have popped and not yet fed to the
    statistics. *)
Fixpoint holding (pool : list WorkerPc) : list FrameComparison :=
  match pool with
  | [] => []
  | PcCompare c :: pool => c :: holding pool
  | _ :: pool => holding pool
  end.

(** The statistics fed by the encoder observer and by the stats poller. *)
Definition poll_view (a : VideoAnalyzer) :=
  (encoded_frame_size_ a, encode_frame_rate_ a, encode_time_ms a,
   encode_usage_percent a, media_bitrate_bps a).

(** The comparison a thread holds at a program point, if any. *)
Definition held (pc : WorkerPc) : list FrameComparison :=
  match pc with PcCompare c => [c] | _ => [] end.

(** The actions that put comparisons into the queue. *)
Definition produces (act : Action) : bool :=
  match act with
  | ARender _ _ | APush _ => true
  | _ => false
  end.

(** Erase-on-read over a run of consumed frames. *)
Definition erase_times (m : gmap Z Z) (consumed : list VideoFrame) : gmap Z Z :=
  foldl (λ m f, delete (timestamp f) m) m consumed.

(** The part of the analyzer guarded by [crit_]. *)
Definition crit_view (a : VideoAnalyzer) :=
  (rtp_timestamp_delta_ a, frames_ a, last_rendered_frame_ a, send_times_ a,
   recv_times_ a, first_send_frame_ a).

(** One call of [CompareFrames] by thread [i] that finds work and is not
    interleaved with anything: entry check, pop, comparison, count. *)
Definition CompareFrames_call (i : nat) : list Action :=
  [AWorker i; AWorker i; AWorker i; AWorker i].

(** One frame on its way through the analyzer: captured, sent in one
    packet, received, rendered, and compared by thread 0. *)
Definition frame_round_trip (f : VideoFrame) (packet : Packet)
    (t_send t_recv : Z) (v : VideoFrame) (t_render : Z) : list Action :=
  [ACapture f; ASendRtp packet t_send; ADeliver packet t_recv;
   ARender v t_render] ++ CompareFrames_call 0.

End Sequences.

(** * AudioEncoderOpus (webrtc/modules/audio_coding/codecs/opus/audio_encoder_opus.cc) *)

Module Opus.

Inductive ApplicationMode := kVoip | kAudio.

(** [AudioEncoderOpus::Config]; the fields are C++ [int]s and [bool]s. *)
Record Config := mkConfig {
  frame_size_ms : Z;
  num_channels : Z;
  payload_type : Z;
  application : ApplicationMode;
  bitrate_bps : Z;
  fec_enabled : bool;
  max_playback_rate_hz : Z;
  complexity : Z;
  dtx_enabled : bool
}.

(** [AudioEncoder::EncodedInfo], the fields [EncodeInternal] writes. *)
Record EncodedInfo := mkEncodedInfo {
  encoded_bytes : Z;
  encoded_timestamp : Z;
  info_payload_type : Z;
  send_even_if_empty : bool;
  speech : bool
}.

(** [CodecInst], the fields [CreateConfig] reads. *)
Record CodecInst := mkCodecInst {
  pltype : Z;
  pacsize : Z;
  channels : Z;
  rate : Z
}.

(** What the encoder is built on and that lives outside the sources at
    hand: the width of [size_t], the platform's default complexity,
    [rtc::CheckedDivExact] (which dies unless the division is exact), the
    allocator behind [std::vector<int16_t>::reserve] ([vector_reserve n]
    tells whether storage for [n] samples is obtained; otherwise [reserve]
    throws and nothing catches it), the default-constructed [EncodedInfo],
    and the Opus wrapper library.  A library call returns its status and the
    next state of the instance; [WebRtcOpus_Encode] also returns the bytes
    it wrote. *)
Class Env (Inst : Type) := {
  size_bits : Z;
  low_complexity_platform : bool;
  CheckedDivExact : Z → Z → option Z;
  CheckedDivExact_exact a b :
    b ≠ 0 → Z.rem a b = 0 → CheckedDivExact a b = Some (Z.quot a b);
  CheckedDivExact_inexact a b :
    b ≠ 0 → Z.rem a b ≠ 0 → CheckedDivExact a b = None;
  vector_reserve : Z → bool;
  default_EncodedInfo : EncodedInfo;
  WebRtcOpus_EncoderCreate : Z → ApplicationMode → Z * Inst;
  WebRtcOpus_SetBitRate : Inst → Z → Z * Inst;
  WebRtcOpus_EnableFec : Inst → Z * Inst;
  WebRtcOpus_DisableFec : Inst → Z * Inst;
  WebRtcOpus_SetMaxPlaybackRate : Inst → Z → Z * Inst;
  WebRtcOpus_SetComplexity : Inst → Z → Z * Inst;
  WebRtcOpus_EnableDtx : Inst → Z * Inst;
  WebRtcOpus_DisableDtx : Inst → Z * Inst;
  WebRtcOpus_Encode : Inst → list Z → Z → Z → Z * list Z * Inst
}.

Definition kMinBitrateBps : Z := 500.
Definition kMaxBitrateBps : Z := 512000.
Definition kSampleRateHz : Z := 48000.

Section Encoder.
Context {Inst : Type} `{Env Inst}.

Definition kDefaultComplexity : Z := if low_complexity_platform then 5 else 9.

(** Conversion to [size_t]. *)
Definition to_size (z : Z) : Z := z mod 2 ^ size_bits.

(** [Config::Config()]. *)
Definition default_Config : Config :=
  {| frame_size_ms := 20; num_channels := 1; payload_type := 120;
     application := kVoip; bitrate_bps := 64000; fec_enabled := false;
     max_playback_rate_hz := 48000; complexity := kDefaultComplexity;
     dtx_enabled := false |}.

(** [Config::IsOk]; [%] is the C++ remainder. *)
Definition IsOk (c : Config) : bool :=
  if (frame_size_ms c <=? 0) || negb (Z.rem (frame_size_ms c) 10 =? 0)
  then false
  else if negb (num_channels c =? 1) && negb (num_channels c =? 2)
  then false
  else if (bitrate_bps c <? kMinBitrateBps) || (kMaxBitrateBps <? bitrate_bps c)
  then false
  else if (complexity c <? 0) || (10 <? complexity c)
  then false
  else true.

(** The encoder object.  [packet_loss_rate_], a [double] written only by
    [SetProjectedPacketLossRate], is left out. *)
Record AudioEncoderOpus := mkAudioEncoderOpus {
  num_10ms_frames_per_packet_ : Z;      (* size_t *)
  num_channels_ : Z;
  payload_type_ : Z;
  application_ : ApplicationMode;
  dtx_enabled_ : bool;
  samples_per_10ms_frame_ : Z;          (* size_t *)
  inst_ : Inst;
  bitrate_bps_ : Z;
  input_buffer_ : list Z;
  first_timestamp_in_buffer_ : Z        (* uint32_t *)
}.

Definition with_inst (e : AudioEncoderOpus) (inst : Inst) : AudioEncoderOpus :=
  {| num_10ms_frames_per_packet_ := num_10ms_frames_per_packet_ e;
     num_channels_ := num_channels_ e; payload_type_ := payload_type_ e;
     application_ := application_ e; dtx_enabled_ := dtx_enabled_ e;
     samples_per_10ms_frame_ := samples_per_10ms_frame_ e;
     inst_ := inst; bitrate_bps_ := bitrate_bps_ e;
     input_buffer_ := input_buffer_ e;
     first_timestamp_in_buffer_ := first_timestamp_in_buffer_ e |}.

Definition with_bitrate (e : AudioEncoderOpus) (b : Z) : AudioEncoderOpus :=
  {| num_10ms_frames_per_packet_ := num_10ms_frames_per_packet_ e;
     num_channels_ := num_channels_ e; payload_type_ := payload_type_ e;
     application_ := application_ e; dtx_enabled_ := dtx_enabled_ e;
     samples_per_10ms_frame_ := samples_per_10ms_frame_ e;
     inst_ := inst_ e; bitrate_bps_ := b;
     input_buffer_ := input_buffer_ e;
     first_timestamp_in_buffer_ := first_timestamp_in_buffer_ e |}.

Definition with_buffer (e : AudioEncoderOpus) (buffer : list Z) (first : Z)
  : AudioEncoderOpus :=
  {| num_10ms_frames_per_packet_ := num_10ms_frames_per_packet_ e;
     num_channels_ := num_channels_ e; payload_type_ := payload_type_ e;
     application_ := application_ e; dtx_enabled_ := dtx_enabled_ e;
     samples_per_10ms_frame_ := samples_per_10ms_frame_ e;
     inst_ := inst_ e; bitrate_bps_ := bitrate_bps_ e;
     input_buffer_ := buffer;
     first_timestamp_in_buffer_ := first |}.

(** [CHECK_EQ(0, call)]: the next instance, or [None] when the check
    fails. *)
Definition check_zero (r : Z * Inst) : option Inst :=
  if fst r =? 0 then Some (snd r) else None.

(** [SetTargetBitrate]. *)
Definition SetTargetBitrate (e : AudioEncoderOpus) (bits_per_second : Z)
  : option AudioEncoderOpus :=
  let b := Z.max (Z.min bits_per_second kMaxBitrateBps) kMinBitrateBps in
  inst ← check_zero (WebRtcOpus_SetBitRate (inst_ e) b);
  Some (with_inst (with_bitrate e b) inst).

Definition GetTargetBitrate (e : AudioEncoderOpus) : Z := bitrate_bps_ e.

(** The constructor: the member initialisers, [CHECK(config.IsOk())],
    [input_buffer_.reserve] for one packet (the product is a [size_t] one),
    and the configuration of the library instance, each call checked. *)
Definition new_AudioEncoderOpus (config : Config) : option AudioEncoderOpus :=
  n10 ← CheckedDivExact (frame_size_ms config) 10;
  per_10ms ← CheckedDivExact kSampleRateHz 100;
  if negb (IsOk config) then None
  else if negb (vector_reserve
                  (to_size (to_size n10
                            * to_size (per_10ms * num_channels config))))
  then None
  else
    inst ← check_zero (WebRtcOpus_EncoderCreate (num_channels config)
                         (application config));
    let e0 :=
      {| num_10ms_frames_per_packet_ := to_size n10;
         num_channels_ := num_channels config;
         payload_type_ := payload_type config;
         application_ := application config;
         dtx_enabled_ := dtx_enabled config;
         samples_per_10ms_frame_ := to_size (per_10ms * num_channels config);
         inst_ := inst; bitrate_bps_ := 0; input_buffer_ := [];
         first_timestamp_in_buffer_ := 0 |} in
    e1 ← SetTargetBitrate e0 (bitrate_bps config);
    inst ← check_zero (if fec_enabled config
                       then WebRtcOpus_EnableFec (inst_ e1)
                       else WebRtcOpus_DisableFec (inst_ e1));
    inst ← check_zero (WebRtcOpus_SetMaxPlaybackRate inst
                         (max_playback_rate_hz config));
    inst ← check_zero (WebRtcOpus_SetComplexity inst (complexity config));
    inst ← check_zero (if dtx_enabled config
                       then WebRtcOpus_EnableDtx inst
                       else WebRtcOpus_DisableDtx inst);
    Some (with_inst e1 inst).

(** [MaxEncodedBytes]; the division is the C++ one on [int]. *)
Definition MaxEncodedBytes (e : AudioEncoderOpus) : Z :=
  let bytes_per_millisecond :=
    to_size (Z.quot (bitrate_bps_ e) (1000 * 8) + 1) in
  let approx_encoded_bytes :=
    to_size (num_10ms_frames_per_packet_ e * 10 * bytes_per_millisecond) in
  to_size (2 * approx_encoded_bytes).

(** [EncodeInternal].  [audio] is what the caller's pointer leads to; the
    call reads [samples_per_10ms_frame_] samples of it, and reading past its
    end is an error here, like a failed [CHECK].  The result is the info,
    the bytes written to [encoded], and the encoder afterwards. *)
Definition EncodeInternal (e : AudioEncoderOpus) (rtp_timestamp : Z)
    (audio : list Z) (max_encoded_bytes : Z)
  : option (EncodedInfo * list Z * AudioEncoderOpus) :=
  let first :=
    match input_buffer_ e with
    | [] => rtp_timestamp
    | _ => first_timestamp_in_buffer_ e
    end in
  if Z.of_nat (length audio) <? samples_per_10ms_frame_ e then None
  else
    let buffer :=
      input_buffer_ e ++ take (Z.to_nat (samples_per_10ms_frame_ e)) audio in
    let full :=
      to_size (num_10ms_frames_per_packet_ e * samples_per_10ms_frame_ e) in
    if Z.of_nat (length buffer) <? full
    then Some (default_EncodedInfo, [], with_buffer e buffer first)
    else if negb (Z.of_nat (length buffer) =? full) then None
    else
      samples ← CheckedDivExact (Z.of_nat (length buffer))
                   (to_size (num_channels_ e));
      let '(status, encoded, inst) :=
        WebRtcOpus_Encode (inst_ e) buffer samples max_encoded_bytes in
      if status <? 0 then None
      else
        (* status is a non-negative int: the cast to size_t keeps it *)
        Some ({| encoded_bytes := status;
                 encoded_timestamp := first;
                 info_payload_type := payload_type_ e;
                 send_even_if_empty := true;
                 speech := 0 <? status |},
              encoded,
              with_inst (with_buffer e [] first) inst).

(** [CreateConfig]. *)
Definition CreateConfig (codec_inst : CodecInst) : option Config :=
  ms ← CheckedDivExact (pacsize codec_inst) 48;
  Some {| frame_size_ms := ms;
          num_channels := channels codec_inst;
          payload_type := pltype codec_inst;
          application := if channels codec_inst =? 1 then kVoip else kAudio;
          bitrate_bps := rate codec_inst;
          fec_enabled := false;
          max_playback_rate_hz := 48000;
          complexity := kDefaultComplexity;
          dtx_enabled := false |}.

(** A stream of 10 ms frames handed to [EncodeInternal] one after the
    other, each with its RTP timestamp; the infos come back in order. *)
Fixpoint encode_all (e : AudioEncoderOpus) (frames : list (Z * list Z))
    (max_encoded_bytes : Z) : option (list EncodedInfo * AudioEncoderOpus) :=
  match frames with
  | [] => Some ([], e)
  | (rtp_timestamp, audio) :: frames =>
      '(info, _, e') ← EncodeInternal e rtp_timestamp audio max_encoded_bytes;
      '(infos, e'') ← encode_all e' frames max_encoded_bytes;
      Some (info :: infos, e'')
  end.

(** The calls by which the constructor configures the library instance,
    in its order; [None] as soon as one of them is refused. *)
Definition library_setup (config : Config) : option Inst :=
  inst ← check_zero (WebRtcOpus_EncoderCreate (num_channels config)
                       (application config));
  inst ← check_zero (WebRtcOpus_SetBitRate inst (bitrate_bps config));
  inst ← check_zero (if fec_enabled config
                     then WebRtcOpus_EnableFec inst
                     else WebRtcOpus_DisableFec inst);
  inst ← check_zero (WebRtcOpus_SetMaxPlaybackRate inst
                       (max_playback_rate_hz config));
  inst ← check_zero (WebRtcOpus_SetComplexity inst (complexity config));
  check_zero (if dtx_enabled config
              then WebRtcOpus_EnableDtx inst
              else WebRtcOpus_DisableDtx inst).

(** The 10 ms frames a stream of calls hands over, as [EncodeInternal]
    reads them. *)
Definition frames_read (e : AudioEncoderOpus) (frames : list (Z * list Z))
  : list Z :=
  concat (map (λ f, take (Z.to_nat (samples_per_10ms_frame_ e)) (snd f)) frames).

(** The encoder as its constructor leaves it and as its methods keep it:
    one or two channels, 480 samples per channel in a 10 ms frame, a whole
    number of such frames per packet, a target bit rate within the limits,
    sizes that fit [size_t], and a buffer holding a whole number of 10 ms
    frames, fewer than a packet. *)
Record Wf (e : AudioEncoderOpus) : Prop := {
  wf_channels : num_channels_ e = 1 ∨ num_channels_ e = 2;
  wf_samples : samples_per_10ms_frame_ e = 480 * num_channels_ e;
  wf_frames : 1 ≤ num_10ms_frames_per_packet_ e;
  wf_size : num_10ms_frames_per_packet_ e * 1300 < 2 ^ size_bits;
  wf_bitrate : kMinBitrateBps ≤ bitrate_bps_ e ≤ kMaxBitrateBps;
  wf_buffer :
    ∃ k, 0 ≤ k < num_10ms_frames_per_packet_ e
         ∧ Z.of_nat (length (input_buffer_ e)) = k * samples_per_10ms_frame_ e
}.

End Encoder.

End Opus.

(** ** A concrete Opus environment, for evaluating the encoder *)

(** Exact division as [rtc::CheckedDivExact] is used here. *)
Definition exact_div (a b : Z) : option Z :=
  if Z.rem a b =? 0 then Some (Z.quot a b) else None.

(** A 64-bit platform whose allocator grants up to 2^32 samples, with a
    library that accepts every call and counts them; its encoder writes one
    byte per 480 samples it is given. *)
Definition counting_opus : Opus.Env nat :=
  {| Opus.size_bits := 64;
     Opus.low_complexity_platform := false;
     Opus.CheckedDivExact := exact_div;
     Opus.CheckedDivExact_exact := λ a b _ Hr,
       ltac:(unfold exact_div; rewrite Hr; reflexivity);
     Opus.CheckedDivExact_inexact := λ a b _ Hr,
       ltac:(unfold exact_div; destruct (Z.eqb_spec (Z.rem a b) 0);
             [contradiction | reflexivity]);
     Opus.vector_reserve := λ n, n <=? 2 ^ 32;
     Opus.default_EncodedInfo := Opus.mkEncodedInfo 0 0 0 false true;
     Opus.WebRtcOpus_EncoderCreate := λ _ _, (0, 0%nat);
     Opus.WebRtcOpus_SetBitRate := λ i _, (0, S i);
     Opus.WebRtcOpus_EnableFec := λ i, (0, S i);
     Opus.WebRtcOpus_DisableFec := λ i, (0, S i);
     Opus.WebRtcOpus_SetMaxPlaybackRate := λ i _, (0, S i);
     Opus.WebRtcOpus_SetComplexity := λ i _, (0, S i);
     Opus.WebRtcOpus_EnableDtx := λ i, (0, S i);
     Opus.WebRtcOpus_DisableDtx := λ i, (0, S i);
     Opus.WebRtcOpus_Encode := λ i buffer _ _,
       (Z.of_nat (length buffer) / 480,
        replicate (Z.to_nat (Z.of_nat (length buffer) / 480)) 0, S i) |}.

(** A mono encoder for 20 ms packets at 64 kbit/s with nothing buffered. *)
Definition mono_20ms : Opus.AudioEncoderOpus (Inst := nat) :=
  {| Opus.num_10ms_frames_per_packet_ := 2; Opus.num_channels_ := 1;
     Opus.payload_type_ := 120; Opus.application_ := Opus.kVoip;
     Opus.dtx_enabled_ := false; Opus.samples_per_10ms_frame_ := 480;
     Opus.inst_ := 5%nat; Opus.bitrate_bps_ := 64000;
     Opus.input_buffer_ := []; Opus.first_timestamp_in_buffer_ := 0 |}.

(** * Properties *)

(** ** Counting threads by program point *)

Lemma count_pc_nonneg p pool : 0 ≤ count_pc p pool.
Proof. induction pool as [|pc pool IH]; simpl; [lia|]. destruct (p pc); lia. Qed.

Lemma count_pc_replicate p n pc : p pc = false → count_pc p (replicate n pc) = 0.
Proof. intros Hp. induction n as [|n IH]; simpl; [done|]. rewrite Hp. lia. Qed.

Lemma count_pc_insert p (pool : list WorkerPc) i old new :
  pool !! i = Some old →
  count_pc p (<[i := new]> pool)
  = count_pc p pool - (if p old then 1 else 0) + (if p new then 1 else 0).
Proof.
  revert i. induction pool as [|pc pool IH]; intros [|i] Hi; simpl in *;
    try discriminate.
  - injection Hi as ->. lia.
  - rewrite (IH i Hi). lia.
Qed.

Lemma count_pc_le p q (pool : list WorkerPc) :
  (∀ pc, p pc = true → q pc = true) → count_pc p pool ≤ count_pc q pool.
Proof.
  intros Hpq. induction pool as [|pc pool IH]; simpl; [lia|].
  specialize (Hpq pc).
  destruct (p pc), (q pc); first [lia | specialize (Hpq eq_refl); discriminate].
Qed.

Lemma count_pc_pos p (pool : list WorkerPc) i pc :
  pool !! i = Some pc → p pc = true → 1 ≤ count_pc p pool.
Proof.
  revert i. induction pool as [|pc' pool IH]; intros [|i] Hi Hp; simpl in *;
    try discriminate.
  - injection Hi as ->. rewrite Hp. pose proof (count_pc_nonneg p pool). lia.
  - specialize (IH i Hi Hp). destruct (p pc'); lia.
Qed.

Lemma tally_snoc b log c :
  tally b (log ++ [c]) = tally b log + (if eqb (dropped c) b then 1 else 0).
Proof.
  unfold tally. rewrite List.filter_app, length_app. simpl.
  destruct (eqb (dropped c) b); simpl; lia.
Qed.

Lemma tally_total log :
  tally true log + tally false log = Z.of_nat (length log).
Proof.
  induction log as [|c log IH] using rev_ind; [done|].
  rewrite !tally_snoc, length_app. simpl. destruct (dropped c); simpl; lia.
Qed.

Ltac case_tests :=
  repeat match goal with
    | |- context [?x =? ?y] => destruct (Z.eqb_spec x y)
    | |- context [?x <? ?y] => destruct (Z.ltb_spec x y)
    | |- context [?x <=? ?y] => destruct (Z.leb_spec x y)
    | H : context [?x =? ?y] |- _ => destruct (Z.eqb_spec x y)
    | H : context [?x <? ?y] |- _ => destruct (Z.ltb_spec x y)
    | H : context [?x <=? ?y] |- _ => destruct (Z.leb_spec x y)
    end;
  simpl in *.

Ltac pool_inv Hi :=
  constructor; unfold all_done in *; simpl;
  rewrite ?(count_pc_insert _ _ _ _ _ Hi); simpl;
  rewrite ?tally_snoc, ?length_app; simpl;
  first [assumption | lia | idtac].

(** ** What the threads outside the pool leave alone *)

Section Properties.
Context `{Metrics} `{RtpHeaderParser}.

Lemma drain_dropped_view queue a send_timestamp now a' :
  drain_dropped queue a send_timestamp now = Some a' →
  pool_view a' = pool_view a
  ∧ rtp_timestamp_delta_ a' = rtp_timestamp_delta_ a
  ∧ last_rendered_frame_ a' = last_rendered_frame_ a
  ∧ encoded_frame_size_ a' = encoded_frame_size_ a.
Proof.
  revert a. induction queue as [|front rest IH]; intros a Hd; simpl in Hd;
    [discriminate|].
  destruct (timestamp front <? send_timestamp).
  - apply IH in Hd. exact Hd.
  - injection Hd as <-. done.
Qed.

Lemma RenderFrame_view a video_frame now a' :
  RenderFrame a video_frame now = Some a' →
  pool_view a' = pool_view a ∧ encoded_frame_size_ a' = encoded_frame_size_ a.
Proof.
  unfold RenderFrame. intros Hr.
  destruct (drain_dropped _ _ _ _) as [a1|] eqn:Hd; simpl in Hr; [|discriminate].
  apply drain_dropped_view in Hd as (Hv & _ & _ & He).
  destruct (frames_ a1) as [|ref rest]; [discriminate|].
  destruct (IsZeroSize ref); [discriminate|].
  destruct (negb _); [discriminate|].
  injection Hr as <-. split; [exact Hv | exact He].
Qed.

Lemma EncodedFrameCallback_view a n :
  pool_view (EncodedFrameCallback a n) = pool_view a.
Proof. unfold EncodedFrameCallback. by destruct (_ <? _). Qed.

Lemma PollStats_view a st : pool_view (snd (PollStats a st)) = pool_view a.
Proof. unfold PollStats. by destruct (done_ a). Qed.

(** Every action other than a step of a comparison thread. *)
Lemma step_outside_view a act a' :
  step a act = Some a' →
  (∀ i, act ≠ AWorker i) →
  pool_view a' = pool_view a.
Proof.
  intros Hs Hw. destruct act; simpl in Hs;
    try (injection Hs as <-; first [done | apply EncodedFrameCallback_view
                                   | apply PollStats_view]).
  - by apply RenderFrame_view in Hs as [? _].
  - by destruct (Hw i).
Qed.

(** ** The invariant of the thread pool *)

Lemma Inv_view a a' : pool_view a' = pool_view a → Inv a → Inv a'.
Proof.
  unfold pool_view. intros Hv [].
  injection Hv as Hto Hrec Hproc Hdrop Hdone Hsig Hperf Hpool Hp Hs Hst Hrt He Hrd.
  constructor; unfold all_done in *;
    rewrite ?Hto, ?Hrec, ?Hproc, ?Hdrop, ?Hdone, ?Hsig, ?Hperf, ?Hpool, ?Hp,
      ?Hs, ?Hst, ?Hrt, ?He, ?Hrd; assumption.
Qed.

Lemma Inv_new n cores : 0 ≤ n → Inv (new_VideoAnalyzer n cores).
Proof.
  intros Hn. constructor; unfold all_done; simpl;
    rewrite ?count_pc_replicate by done; try done; try lia.
  by destruct n.
Qed.

Lemma CompareFrames_step_Inv i a a' :
  Inv a → CompareFrames_step i a = Some a' → Inv a'.
Proof.
  intros HI. pose proof HI as [].
  unfold CompareFrames_step.
  destruct (comparison_thread_pool_ a !! i) as [pc|] eqn:Hi;
    [|intros [= <-]; done].
  destruct pc; simpl.
  - unfold AllFramesRecorded. destruct (_ <=? _); simpl; [|discriminate].
    intros [= <-]. destruct (_ =? _); pool_inv Hi.
  - unfold PopComparison. destruct (comparisons_ a) as [|c q]; simpl.
    + intros [= <-]. pool_inv Hi.
    + unfold AllFramesRecorded. destruct (_ <=? _); simpl; [|discriminate].
      destruct (Z.eqb_spec (frames_recorded_ a) (frames_to_process_ a)); simpl;
        intros [= <-]; pool_inv Hi.
  - intros [= <-]. pool_inv Hi.
  - unfold AllFramesRecorded. destruct (_ <=? _); simpl; [|discriminate].
    destruct (_ =? _); intros [= <-]; pool_inv Hi.
  - intros [= <-]. unfold PerformFrameComparison.
    destruct (dropped c) eqn:Hd;
      [|destruct (negb (last_render_time_ a =? 0))];
      pool_inv Hi; rewrite ?length_app, ?Hd; simpl; lia.
  - unfold FrameProcessed.
    destruct (Z.leb_spec (frames_processed_ a + 1) (frames_to_process_ a));
      simpl; [|discriminate].
    destruct (Z.eqb_spec (frames_processed_ a + 1) (frames_to_process_ a));
      intros [= <-]; pool_inv Hi; case_tests; lia.
  - intros [= <-]. pool_inv Hi.
  - intros [= <-]. done.
Qed.

(** No [assert] of a comparison thread fails. *)
Lemma CompareFrames_step_total i a : Inv a → is_Some (CompareFrames_step i a).
Proof.
  intros []. unfold CompareFrames_step, PopComparison, FrameProcessed,
    AllFramesRecorded.
  destruct (comparison_thread_pool_ a !! i) as [pc|] eqn:Hi; [|by eexists].
  pose proof (count_pc_pos in_flight _ _ _ Hi) as Hpos.
  destruct (Z.leb_spec (frames_recorded_ a) (frames_to_process_ a)); [|lia].
  destruct pc; simpl; try by eexists.
  - destruct (comparisons_ a); simpl; [by eexists|].
    destruct (_ =? _); by eexists.
  - destruct (_ =? _); by eexists.
  - specialize (Hpos eq_refl).
    destruct (Z.leb_spec (frames_processed_ a + 1) (frames_to_process_ a));
      [by eexists | lia].
Qed.

Lemma step_Inv a act a' : Inv a → step a act = Some a' → Inv a'.
Proof.
  intros HI Hs. destruct act;
    try (apply (Inv_view a); [|exact HI];
         apply (step_outside_view _ _ _ Hs); discriminate).
  simpl in Hs. by apply (CompareFrames_step_Inv i a).
Qed.

Lemma run_Inv acts : ∀ a a', Inv a → run a acts = Some a' → Inv a'.
Proof.
  induction acts as [|act acts IH]; intros a a' HI Hr; simpl in Hr.
  - by injection Hr as <-.
  - destruct (step a act) as [a1|] eqn:Hs; simpl in Hr; [|discriminate].
    eapply IH; [|exact Hr]. by eapply step_Inv.
Qed.

(** What one step of a comparison thread does to the counters and to the
    done event. *)
Lemma CompareFrames_step_counters i a a' :
  Inv a → CompareFrames_step i a = Some a' →
  frames_to_process_ a' = frames_to_process_ a
  ∧ (frames_recorded_ a' = frames_recorded_ a
     ∨ frames_recorded_ a' = frames_recorded_ a + 1
       ∧ comparison_thread_pool_ a !! i = Some PcPop
       ∧ comparisons_ a ≠ []
       ∧ frames_recorded_ a < frames_to_process_ a)
  ∧ (frames_processed_ a' = frames_processed_ a
     ∨ frames_processed_ a' = frames_processed_ a + 1
       ∧ comparison_thread_pool_ a !! i = Some PcProcessed
       ∧ comparison_thread_pool_ a' !! i
         = Some (if frames_processed_ a' =? frames_to_process_ a
                 then PcLast else PcEntry))
  ∧ (done_signals a' = done_signals a ∧ done_ a' = done_ a
     ∨ comparison_thread_pool_ a !! i = Some PcLast
       ∧ done_signals a' = S (done_signals a) ∧ done_ a' = true).
Proof.
  intros HI. pose proof HI as [].
  unfold CompareFrames_step.
  destruct (comparison_thread_pool_ a !! i) as [pc|] eqn:Hi;
    [|intros [= <-]; tauto].
  pose proof (lookup_lt_Some _ _ _ Hi) as Hlt.
  destruct pc; simpl.
  - unfold AllFramesRecorded. destruct (_ <=? _); simpl; [|discriminate].
    intros [= <-]. simpl. tauto.
  - unfold PopComparison. destruct (comparisons_ a) as [|c q]; simpl.
    + intros [= <-]. simpl. tauto.
    + unfold AllFramesRecorded. destruct (_ <=? _); simpl; [|discriminate].
      destruct (Z.eqb_spec (frames_recorded_ a) (frames_to_process_ a)); simpl;
        intros [= <-]; simpl; [tauto|].
      split; [done|]. split; [right; repeat split; [done|lia]|]. tauto.
  - intros [= <-]. simpl. tauto.
  - unfold AllFramesRecorded. destruct (_ <=? _); simpl; [|discriminate].
    destruct (_ =? _); intros [= <-]; simpl; tauto.
  - intros [= <-]. unfold PerformFrameComparison.
    destruct (dropped c); simpl; tauto.
  - unfold FrameProcessed.
    destruct (Z.leb_spec (frames_processed_ a + 1) (frames_to_process_ a));
      simpl; [|discriminate].
    intros [= <-]. simpl. split; [done|]. split; [tauto|].
    split; [|tauto]. right. split; [done|]. split; [done|].
    by rewrite list_lookup_insert_eq.
  - intros [= <-]. simpl. split; [done|]. split; [tauto|]. split; [tauto|].
    right. done.
  - intros [= <-]. tauto.
Qed.

(** The same for every action: only the comparison threads move the
    counters and the done event. *)
Lemma step_counters a act a' :
  Inv a → step a act = Some a' →
  frames_to_process_ a' = frames_to_process_ a
  ∧ (frames_recorded_ a' = frames_recorded_ a
     ∨ frames_recorded_ a' = frames_recorded_ a + 1
       ∧ frames_recorded_ a < frames_to_process_ a
       ∧ ∃ i, act = AWorker i
              ∧ comparison_thread_pool_ a !! i = Some PcPop)
  ∧ (frames_processed_ a' = frames_processed_ a
     ∨ frames_processed_ a' = frames_processed_ a + 1
       ∧ ∃ i, act = AWorker i
              ∧ comparison_thread_pool_ a !! i = Some PcProcessed
              ∧ comparison_thread_pool_ a' !! i
                = Some (if frames_processed_ a' =? frames_to_process_ a
                        then PcLast else PcEntry))
  ∧ (done_signals a' = done_signals a ∧ done_ a' = done_ a
     ∨ (∃ i, act = AWorker i
             ∧ comparison_thread_pool_ a !! i = Some PcLast)
       ∧ done_signals a' = S (done_signals a) ∧ done_ a' = true).
Proof.
  intros HI Hs.
  assert (pool_view a' = pool_view a →
          frames_to_process_ a' = frames_to_process_ a
          ∧ frames_recorded_ a' = frames_recorded_ a
          ∧ frames_processed_ a' = frames_processed_ a
          ∧ done_signals a' = done_signals a ∧ done_ a' = done_ a) as Hview.
  { unfold pool_view. intros [= -> -> -> _ -> -> _]. done. }
  destruct act;
    try (destruct Hview as (-> & -> & -> & -> & ->);
         [apply (step_outside_view _ _ _ Hs); discriminate | tauto]).
  simpl in Hs.
  destruct (CompareFrames_step_counters i a a' HI Hs)
    as (Hto & Hrec & Hproc & Hdone).
  split; [exact Hto|]. split; [|split].
  - destruct Hrec as [?|(? & ? & ? & ?)]; [by left|].
    right. repeat split; try done. by exists i.
  - destruct Hproc as [?|(? & ? & ?)]; [by left|].
    right. split; [done|]. by exists i.
  - destruct Hdone as [?|(? & ? & ?)]; [by left|].
    right. repeat split; try done. by exists i.
Qed.

Lemma run_frames_to_process acts : ∀ a a',
  Inv a → run a acts = Some a' → frames_to_process_ a' = frames_to_process_ a.
Proof.
  induction acts as [|act acts IH]; intros a a' HI Hr; simpl in Hr.
  - by injection Hr as <-.
  - destruct (step a act) as [a1|] eqn:Hs; simpl in Hr; [|discriminate].
    rewrite (IH a1 a'); [|by eapply step_Inv|done].
    by destruct (step_counters a act a1 HI Hs) as (-> & _).
Qed.

(** The done event is set only once every frame has been processed, and
    it is set at most once. *)
Lemma Inv_done a :
  Inv a →
  (done_signals a ≤ 1)%nat
  ∧ (done_ a = true ↔ done_signals a = 1%nat)
  ∧ (done_ a = true → frames_processed_ a = frames_to_process_ a).
Proof.
  intros []. pose proof (count_pc_nonneg is_last (comparison_thread_pool_ a)).
  unfold all_done in *.
  assert (done_signals a ≤ 1)%nat as Hle
    by (destruct (_ && _); lia).
  split; [exact Hle|]. rewrite inv_done0. split.
  - destruct (done_signals a) as [|[|k]]; simpl; split; intros; try done; lia.
  - destruct (done_signals a) as [|k]; simpl; [done|]. intros _.
    destruct (Z.eqb_spec (frames_processed_ a) (frames_to_process_ a));
      simpl in *; [done|lia].
Qed.

End Properties.

(** ** [RenderFrame]: pairing rendered frames with captured ones *)

Section Rendering.
Context `{Metrics} `{RtpHeaderParser}.

(** The comparison that [AddFrameComparison] appends. *)
Lemma AddFrameComparison_comparisons a ref rnd drp now :
  comparisons_ (AddFrameComparison a ref rnd drp now)
  = comparisons_ a
    ++ [mkFrameComparison ref rnd drp
          (default 0 (send_times_ a !! timestamp ref))
          (default 0 (recv_times_ a !! timestamp ref)) now].
Proof. reflexivity. Qed.

(** The draining loop: the frames older than [send_timestamp] leave the
    capture queue, each as a dropped comparison against the last rendered
    frame, and the loop stops at the first frame that is not older. *)
Lemma drain_dropped_older older : ∀ a ref rest send_timestamp now,
  frames_ a = older ++ ref :: rest →
  Forall (λ f, timestamp f < send_timestamp) older →
  ¬ timestamp ref < send_timestamp →
  ∃ a1 drops,
    drain_dropped (frames_ a) a send_timestamp now = Some a1
    ∧ frames_ a1 = ref :: rest
    ∧ comparisons_ a1 = comparisons_ a ++ drops
    ∧ map reference drops = older
    ∧ Forall (λ c, dropped c = true ∧ render c = last_rendered_frame_ a
                   ∧ render_time_ms c = now) drops
    ∧ rtp_timestamp_delta_ a1 = rtp_timestamp_delta_ a.
Proof.
  induction older as [|f older IH]; intros a ref rest send_ts now Hq Hold Hge.
  - exists a, []. rewrite Hq. simpl.
    destruct (Z.ltb_spec (timestamp ref) send_ts); [lia|].
    rewrite app_nil_r. by repeat split.
  - inversion Hold as [|? ? Hf Hold']; subst.
    set (a1 := pop_front (AddFrameComparison a f (last_rendered_frame_ a) true now)).
    destruct (IH a1 ref rest send_ts now) as (a2 & drops & Hd & Hfr & Hc & Hm & Hall & Hdelta);
      [by (subst a1; simpl; rewrite Hq) | done | done |].
    eexists a2, (_ :: drops). rewrite Hq. simpl.
    destruct (Z.ltb_spec (timestamp f) send_ts); [|lia].
    assert (frames_ a1 = older ++ ref :: rest) as Hq1
      by (subst a1; simpl; by rewrite Hq).
    rewrite Hq1 in Hd. fold a1. split; [exact Hd|].
    split; [exact Hfr|]. split.
    { rewrite Hc. subst a1. simpl. rewrite <- app_assoc. reflexivity. }
    split; [simpl; by rewrite Hm|]. split; [|exact Hdelta].
    constructor; [done|]. exact Hall.
Qed.

(** When every captured frame is older than the rendered one the loop
    runs off the end of the queue. *)
Lemma drain_dropped_exhausted queue : ∀ a send_timestamp now,
  Forall (λ f, timestamp f < send_timestamp) queue →
  drain_dropped queue a send_timestamp now = None.
Proof.
  induction queue as [|f queue IH]; intros a send_ts now Hall; simpl; [done|].
  inversion Hall; subst.
  destruct (Z.ltb_spec (timestamp f) send_ts); [|lia]. by apply IH.
Qed.

Lemma RenderFrame_exhausted a video_frame now :
  Forall (λ f, timestamp f < send_timestamp_of a video_frame) (frames_ a) →
  RenderFrame a video_frame now = None.
Proof.
  intros Hall. unfold RenderFrame.
  by rewrite (drain_dropped_exhausted _ _ _ _ Hall).
Qed.

(** C1: [RenderFrame] computes send_ts = rendered.rtp_ts − delta (modulo
    2^32), turns every captured frame at the front of the queue that is
    older than send_ts into a dropped comparison against the last rendered
    frame, and then requires the front frame to carry exactly send_ts: if it
    does (and is not the unset frame) it is popped and enqueued as a
    non-dropped comparison and the rendered frame becomes the last rendered
    one, otherwise the call dies on its assertion.  So every non-dropped
    comparison has reference.rtp_ts = rendered.rtp_ts − delta. *)
Theorem C1_RenderFrame_pairs_by_timestamp
    a video_frame now older ref rest :
  frames_ a = older ++ ref :: rest →
  Forall (λ f, timestamp f < send_timestamp_of a video_frame) older →
  ¬ timestamp ref < send_timestamp_of a video_frame →
  if (timestamp ref =? send_timestamp_of a video_frame)
     && negb (IsZeroSize ref)
  then
    ∃ a' drops final,
      RenderFrame a video_frame now = Some a'
      ∧ frames_ a' = rest
      ∧ comparisons_ a' = comparisons_ a ++ drops ++ [final]
      ∧ map reference drops = older
      ∧ Forall (λ c, dropped c = true ∧ render c = last_rendered_frame_ a) drops
      ∧ reference final = ref
      ∧ render final = video_frame
      ∧ dropped final = false
      ∧ last_rendered_frame_ a' = video_frame
      ∧ Forall (λ c, dropped c = false →
                     timestamp (reference c)
                     = wrap32 (timestamp (render c) - rtp_timestamp_delta_ a))
          (drops ++ [final])
  else RenderFrame a video_frame now = None.
Proof.
  intros Hq Hold Hge.
  destruct (drain_dropped_older older a ref rest _ now Hq Hold Hge)
    as (a1 & drops & Hd & Hfr & Hc & Hm & Hall & Hdelta).
  unfold RenderFrame. rewrite Hd. simpl. rewrite Hfr.
  destruct (Z.eqb_spec (timestamp ref) (send_timestamp_of a video_frame))
    as [Hts|Hts]; simpl.
  - destruct (IsZeroSize ref); simpl; [done|].
    eexists _, drops, _. split; [reflexivity|]. simpl.
    rewrite Hfr, Hc, <- app_assoc. simpl.
    repeat split; try done.
    + eapply Forall_impl; [exact Hall|]. simpl. tauto.
    + apply Forall_app. split.
      * eapply Forall_impl; [exact Hall|]. simpl.
        intros c (Hdr & _) Hnd. congruence.
      * constructor; [|constructor]. simpl. intros _. exact Hts.
  - by destruct (IsZeroSize ref).
Qed.

End Rendering.

(** ** The thread pool: counters and termination *)

Section Pool.
Context `{Metrics} `{RtpHeaderParser}.

(** *** Progress of the pool *)

Lemma pool_rank_insert all (pool : list WorkerPc) i old new :
  pool !! i = Some old →
  pool_rank all (<[i := new]> pool)
  = pool_rank all pool - pc_rank all old + pc_rank all new.
Proof.
  revert i. induction pool as [|pc pool IH]; intros [|i] Hi; simpl in *;
    try discriminate.
  - injection Hi as ->. lia.
  - rewrite (IH i Hi). lia.
Qed.

Lemma pool_rank_all pool : pool_rank true pool ≤ pool_rank false pool.
Proof.
  induction pool as [|pc pool IH]; simpl; [lia|]. destruct pc; simpl; lia.
Qed.

Lemma pool_rank_bounds all pool :
  0 ≤ pool_rank all pool ≤ 7 * Z.of_nat (length pool).
Proof.
  induction pool as [|pc pool IH]; simpl length; simpl pool_rank; [lia|].
  destruct pc, all; simpl; lia.
Qed.

Lemma rank_bounds a :
  Inv a →
  0 ≤ rank a
  ≤ 8 * (frames_to_process_ a - frames_processed_ a)
    + 7 * Z.of_nat (length (comparison_thread_pool_ a)).
Proof.
  intros []. unfold rank.
  pose proof (count_pc_nonneg in_flight (comparison_thread_pool_ a)).
  pose proof (pool_rank_bounds (frames_recorded_ a =? frames_to_process_ a)
                (comparison_thread_pool_ a)).
  lia.
Qed.

Lemma rank_view a a' : pool_view a' = pool_view a → rank a' = rank a.
Proof. unfold pool_view, rank. intros [= -> -> -> _ _ _ _ ->]. done. Qed.

Lemma exits_late_view a a' :
  pool_view a' = pool_view a → exits_late a → exits_late a'.
Proof. unfold pool_view, exits_late. intros [= -> -> _ _ _ _ _ ->]. done. Qed.

Lemma exits_late_new n cores : exits_late (new_VideoAnalyzer n cores).
Proof. intros i Hi. simpl in Hi. by apply lookup_replicate in Hi as [? _]. Qed.

(** A step of a thread that has not stopped brings the pool closer to its
    end, as long as the queue holds what is still to be recorded. *)
Lemma CompareFrames_step_rank i a a' pc :
  Inv a → enough_queued a →
  comparison_thread_pool_ a !! i = Some pc → pc ≠ PcExit →
  CompareFrames_step i a = Some a' →
  rank a' < rank a.
Proof.
  intros HI Hq Hi Hpc. pose proof HI as [].
  pose proof (pool_rank_all (comparison_thread_pool_ a)) as Hall.
  pose proof (count_pc_nonneg in_flight (comparison_thread_pool_ a)).
  pose proof (count_pc_pos in_flight _ _ _ Hi) as Hfl.
  pose proof (count_pc_pos is_last _ _ _ Hi) as Hlast.
  unfold enough_queued in Hq. unfold all_done in *.
  unfold CompareFrames_step. rewrite Hi.
  destruct pc; simpl; try done.
  - unfold AllFramesRecorded. destruct (_ <=? _); simpl; [|discriminate].
    intros [= <-]. unfold rank. simpl.
    rewrite (pool_rank_insert _ _ _ _ _ Hi).
    destruct (frames_recorded_ a =? frames_to_process_ a); simpl; lia.
  - unfold PopComparison. destruct (comparisons_ a) as [|c q] eqn:Hc; simpl.
    + intros [= <-]. unfold rank. simpl.
      rewrite (pool_rank_insert _ _ _ _ _ Hi).
      destruct (Z.eqb_spec (frames_recorded_ a) (frames_to_process_ a));
        simpl in *; lia.
    + unfold AllFramesRecorded. destruct (_ <=? _); simpl; [|discriminate].
      destruct (Z.eqb_spec (frames_recorded_ a) (frames_to_process_ a)); simpl;
        intros [= <-]; unfold rank; simpl;
        rewrite (pool_rank_insert _ _ _ _ _ Hi).
      * destruct (Z.eqb_spec (frames_recorded_ a) (frames_to_process_ a));
          simpl; lia.
      * destruct (frames_recorded_ a + 1 =? frames_to_process_ a);
          destruct (Z.eqb_spec (frames_recorded_ a) (frames_to_process_ a));
          simpl; lia.
  - intros [= <-]. unfold rank. simpl.
    rewrite (pool_rank_insert _ _ _ _ _ Hi).
    destruct (frames_recorded_ a =? frames_to_process_ a); simpl; lia.
  - unfold AllFramesRecorded. destruct (_ <=? _); simpl; [|discriminate].
    destruct (Z.eqb_spec (frames_recorded_ a) (frames_to_process_ a)); simpl;
      intros [= <-]; unfold rank; simpl;
      rewrite (pool_rank_insert _ _ _ _ _ Hi);
      destruct (Z.eqb_spec (frames_recorded_ a) (frames_to_process_ a));
      simpl; lia.
  - intros [= <-]. unfold rank, PerformFrameComparison.
    destruct (dropped c); simpl;
      rewrite (pool_rank_insert _ _ _ _ _ Hi);
      destruct (frames_recorded_ a =? frames_to_process_ a); simpl; lia.
  - unfold FrameProcessed.
    destruct (Z.leb_spec (frames_processed_ a + 1) (frames_to_process_ a));
      simpl; [|discriminate].
    intros [= <-]. unfold rank. simpl.
    rewrite (pool_rank_insert _ _ _ _ _ Hi).
    destruct (frames_processed_ a + 1 =? frames_to_process_ a);
      destruct (frames_recorded_ a =? frames_to_process_ a); simpl; lia.
  - intros [= <-]. unfold rank. simpl.
    rewrite (pool_rank_insert _ _ _ _ _ Hi).
    destruct (frames_recorded_ a =? frames_to_process_ a); simpl; lia.
Qed.

Lemma CompareFrames_step_queued i a a' :
  enough_queued a → CompareFrames_step i a = Some a' →
  enough_queued a'
  ∧ length (comparison_thread_pool_ a') = length (comparison_thread_pool_ a).
Proof.
  unfold enough_queued, CompareFrames_step. intros Hq.
  destruct (comparison_thread_pool_ a !! i) as [pc|] eqn:Hi;
    [|intros [= <-]; done].
  destruct pc; simpl.
  - unfold AllFramesRecorded. destruct (_ <=? _); simpl; [|discriminate].
    intros [= <-]. simpl. by rewrite length_insert.
  - unfold PopComparison. destruct (comparisons_ a) as [|c q] eqn:Hc; simpl.
    + intros [= <-]. simpl. rewrite length_insert, Hc. done.
    + unfold AllFramesRecorded. destruct (_ <=? _); simpl; [|discriminate].
      destruct (_ =? _); simpl; intros [= <-]; simpl; rewrite length_insert.
      * by rewrite Hc.
      * simpl in Hq. split; [lia|done].
  - intros [= <-]. simpl. by rewrite length_insert.
  - unfold AllFramesRecorded. destruct (_ <=? _); simpl; [|discriminate].
    destruct (_ =? _); intros [= <-]; simpl; by rewrite length_insert.
  - intros [= <-]. unfold PerformFrameComparison.
    destruct (dropped c); simpl; by rewrite length_insert.
  - unfold FrameProcessed. destruct (_ <=? _); simpl; [|discriminate].
    intros [= <-]. simpl. by rewrite length_insert.
  - intros [= <-]. simpl. by rewrite length_insert.
  - intros [= <-]. done.
Qed.

Lemma CompareFrames_step_exits i a a' :
  Inv a → exits_late a → CompareFrames_step i a = Some a' → exits_late a'.
Proof.
  intros HI Hex. pose proof HI as [].
  pose proof (count_pc_nonneg in_flight (comparison_thread_pool_ a)).
  unfold exits_late in *. unfold all_done in *. unfold CompareFrames_step.
  destruct (comparison_thread_pool_ a !! i) as [pc|] eqn:Hi;
    [|intros [= <-]; done].
  pose proof (lookup_lt_Some _ _ _ Hi) as Hlt.
  pose proof (count_pc_pos is_last _ _ _ Hi) as Hlast.
  assert (∀ new j (P : Prop),
            (new = PcExit → P) →
            (comparison_thread_pool_ a !! j = Some PcExit → P) →
            <[i := new]> (comparison_thread_pool_ a) !! j = Some PcExit → P)
    as Hcase.
  { intros new j P Hnew Hold. destruct (decide (i = j)) as [<-|Hne].
    - rewrite list_lookup_insert_eq by done. intros [= ->]. by apply Hnew.
    - by rewrite list_lookup_insert_ne. }
  destruct pc; simpl.
  - unfold AllFramesRecorded. destruct (_ <=? _); simpl; [|discriminate].
    destruct (Z.eqb_spec (frames_recorded_ a) (frames_to_process_ a));
      intros [= <-] j; simpl; apply Hcase; try done; apply Hex.
  - unfold PopComparison. destruct (comparisons_ a) as [|c q]; simpl.
    + intros [= <-] j. simpl. apply Hcase; [done|apply Hex].
    + unfold AllFramesRecorded. destruct (_ <=? _); simpl; [|discriminate].
      destruct (Z.eqb_spec (frames_recorded_ a) (frames_to_process_ a)); simpl;
        intros [= <-] j; simpl; (apply Hcase; [done|]); [apply Hex|].
      intros Hj. by apply Hex in Hj.
  - intros [= <-] j. simpl. apply Hcase; [done|apply Hex].
  - unfold AllFramesRecorded. destruct (_ <=? _); simpl; [|discriminate].
    destruct (Z.eqb_spec (frames_recorded_ a) (frames_to_process_ a));
      intros [= <-] j; simpl; apply Hcase; try done; apply Hex.
  - intros [= <-] j. unfold PerformFrameComparison.
    destruct (dropped c); simpl; (apply Hcase; [done|apply Hex]).
  - unfold FrameProcessed. destruct (_ <=? _); simpl; [|discriminate].
    intros [= <-] j. simpl.
    destruct (frames_processed_ a + 1 =? frames_to_process_ a);
      (apply Hcase; [done|apply Hex]).
  - intros [= <-] j. simpl. apply Hcase; [|apply Hex]. intros _.
    specialize (Hlast eq_refl).
    destruct (Z.eqb_spec (frames_processed_ a) (frames_to_process_ a));
      simpl in *; lia.
  - intros [= <-]. done.
Qed.

Lemma step_exits a act a' :
  Inv a → exits_late a → step a act = Some a' → exits_late a'.
Proof.
  intros HI Hex Hs. destruct act;
    try (apply (exits_late_view a); [|exact Hex];
         apply (step_outside_view _ _ _ Hs); discriminate).
  simpl in Hs. by apply (CompareFrames_step_exits i a).
Qed.

Lemma run_exits acts : ∀ a a',
  Inv a → exits_late a → run a acts = Some a' → exits_late a'.
Proof.
  induction acts as [|act acts IH]; intros a a' HI Hex Hr; simpl in Hr.
  - by injection Hr as <-.
  - destruct (step a act) as [a1|] eqn:Hs; simpl in Hr; [|discriminate].
    eapply IH; [| |exact Hr]; [by eapply step_Inv|by eapply step_exits].
Qed.

(** The render thread only adds to the comparison queue. *)
Lemma drain_dropped_queue queue : ∀ a send_timestamp now a',
  drain_dropped queue a send_timestamp now = Some a' →
  (length (comparisons_ a) ≤ length (comparisons_ a'))%nat.
Proof.
  induction queue as [|front rest IH]; intros a send_timestamp now a' Hd;
    simpl in Hd; [discriminate|].
  destruct (timestamp front <? send_timestamp).
  - apply IH in Hd. simpl in Hd. rewrite length_app in Hd. lia.
  - by injection Hd as <-.
Qed.

Lemma step_queued a act a' :
  Inv a → enough_queued a → step a act = Some a' → enough_queued a'.
Proof.
  intros HI Hq Hs.
  assert (pool_view a' = pool_view a →
          (length (comparisons_ a) ≤ length (comparisons_ a'))%nat →
          enough_queued a') as Hview.
  { unfold pool_view, enough_queued in *. intros [= -> -> _]. lia. }
  destruct act;
    try (apply Hview;
         [apply (step_outside_view _ _ _ Hs); discriminate|]);
    simpl in Hs.
  - by injection Hs as <-.
  - by injection Hs as <-.
  - by injection Hs as <-.
  - unfold RenderFrame in Hs.
    destruct (drain_dropped _ _ _ _) as [a1|] eqn:Hd; simpl in Hs;
      [|discriminate].
    apply drain_dropped_queue in Hd.
    destruct (frames_ a1) as [|ref rest]; [discriminate|].
    destruct (IsZeroSize ref); [discriminate|].
    destruct (negb _); [discriminate|].
    injection Hs as <-. simpl. rewrite length_app. lia.
  - injection Hs as <-. simpl. rewrite length_app. lia.
  - injection Hs as <-. unfold EncodedFrameCallback. by destruct (_ <? _).
  - injection Hs as <-. unfold PollStats. by destruct (done_ a).
  - by apply (CompareFrames_step_queued i a a').
Qed.

Lemma step_rank a act a' :
  Inv a → enough_queued a → step a act = Some a' →
  rank a' ≤ rank a ∧ (is_thread_step a act = true → rank a' < rank a).
Proof.
  intros HI Hq Hs. destruct act;
    try (rewrite (rank_view a a')
           by (apply (step_outside_view _ _ _ Hs); discriminate);
         split; [lia|discriminate]).
  simpl in *.
  destruct (comparison_thread_pool_ a !! i) as [pc|] eqn:Hi.
  - assert (pc = PcExit ∨ pc ≠ PcExit) as [->|Hpc]
      by (destruct pc; first [by left | by right]).
    + unfold CompareFrames_step in Hs. rewrite Hi in Hs. injection Hs as <-.
      split; [lia|discriminate].
    + pose proof (CompareFrames_step_rank i a a' pc HI Hq Hi Hpc Hs).
      split; [lia|done].
  - unfold CompareFrames_step in Hs. rewrite Hi in Hs. injection Hs as <-.
    split; [lia|discriminate].
Qed.

(** Whatever runs, the threads take no more steps than the rank allows. *)
Lemma thread_steps_rank acts : ∀ a,
  Inv a → enough_queued a → Z.of_nat (thread_steps a acts) ≤ rank a.
Proof.
  induction acts as [|act acts IH]; intros a HI Hq; simpl.
  - by apply rank_bounds.
  - destruct (step a act) as [a1|] eqn:Hs; [|by apply rank_bounds].
    pose proof (step_rank a act a1 HI Hq Hs) as (Hle & Hlt).
    specialize (IH a1 (step_Inv _ _ _ HI Hs) (step_queued _ _ _ HI Hq Hs)).
    destruct (is_thread_step a act); [specialize (Hlt eq_refl)|]; lia.
Qed.

Lemma count_pc_none p (pool : list WorkerPc) :
  Forall (λ pc, p pc = false) pool → count_pc p pool = 0.
Proof. induction 1 as [|pc pool Hp _ IH]; simpl; [done|]. by rewrite Hp, IH. Qed.

(** A pool whose threads have all stopped has signalled the end. *)
Lemma stopped_pool_done a :
  Inv a → exits_late a →
  1 ≤ frames_to_process_ a →
  comparison_thread_pool_ a ≠ [] →
  Forall (λ pc, pc = PcExit) (comparison_thread_pool_ a) →
  frames_recorded_ a = frames_to_process_ a
  ∧ frames_processed_ a = frames_to_process_ a
  ∧ done_ a = true
  ∧ done_signals a = 1%nat.
Proof.
  intros HI Hex Hn Hne Hall. pose proof HI as [].
  assert (frames_recorded_ a = frames_to_process_ a) as Hrec.
  { destruct (comparison_thread_pool_ a) as [|pc pool] eqn:Hp; [done|].
    apply (Hex 0%nat). rewrite Hp. simpl.
    by rewrite (Forall_inv Hall). }
  assert (count_pc in_flight (comparison_thread_pool_ a) = 0) as Hfl.
  { apply count_pc_none. eapply Forall_impl; [exact Hall|].
    by intros pc ->. }
  assert (count_pc is_last (comparison_thread_pool_ a) = 0) as Hlast.
  { apply count_pc_none. eapply Forall_impl; [exact Hall|].
    by intros pc ->. }
  assert (frames_processed_ a = frames_to_process_ a) as Hproc by lia.
  assert (done_signals a = 1%nat) as Hsig.
  { unfold all_done in *. rewrite Hproc, Z.eqb_refl in inv_last0.
    destruct (Z.ltb_spec 0 (frames_to_process_ a)); simpl in *; lia. }
  split; [done|]. split; [done|]. split; [|done].
  by rewrite inv_done0, Hsig.
Qed.

Lemma pool_stopped_or_not (pool : list WorkerPc) :
  Forall (λ pc, pc = PcExit) pool
  ∨ ∃ i pc, pool !! i = Some pc ∧ pc ≠ PcExit.
Proof.
  induction pool as [|pc pool IH]; [left; constructor|].
  assert (pc = PcExit ∨ pc ≠ PcExit) as [->|Hpc]
    by (destruct pc; first [by left | by right]).
  - destruct IH as [IH|(i & pc & Hi & Hpc)].
    + left. by constructor.
    + right. by exists (S i), pc.
  - right. by exists 0%nat, pc.
Qed.

(** With the comparisons still to be recorded in the queue, the threads
    can always finish: some order of their steps takes both counters to the
    budget, sets the done event and lets every thread stop. *)
Lemma threads_finish (k : nat) : ∀ a,
  rank a < Z.of_nat k →
  Inv a → exits_late a → enough_queued a →
  1 ≤ frames_to_process_ a →
  comparison_thread_pool_ a ≠ [] →
  ∃ threads a',
    run a (map AWorker threads) = Some a'
    ∧ frames_recorded_ a' = frames_to_process_ a
    ∧ frames_processed_ a' = frames_to_process_ a
    ∧ done_ a' = true
    ∧ done_signals a' = 1%nat
    ∧ Forall (λ pc, pc = PcExit) (comparison_thread_pool_ a').
Proof.
  induction k as [|k IH]; intros a Hk HI Hex Hq Hn Hne.
  { pose proof (rank_bounds a HI). lia. }
  destruct (pool_stopped_or_not (comparison_thread_pool_ a))
    as [Hall|(i & pc & Hi & Hpc)].
  - exists [], a.
    destruct (stopped_pool_done a HI Hex Hn Hne Hall) as (? & ? & ? & ?).
    done.
  - destruct (CompareFrames_step_total i a HI) as [a1 Hs].
    pose proof (CompareFrames_step_rank i a a1 pc HI Hq Hi Hpc Hs) as Hlt.
    destruct (CompareFrames_step_queued i a a1 Hq Hs) as [Hq1 Hlen].
    destruct (CompareFrames_step_counters i a a1 HI Hs) as (Hto & _).
    destruct (IH a1) as (threads & a' & Hr & Hrest).
    + lia.
    + by apply (CompareFrames_step_Inv i a).
    + by apply (CompareFrames_step_exits i a).
    + exact Hq1.
    + by rewrite Hto.
    + intros Hnil. rewrite Hnil in Hlen.
      by destruct (comparison_thread_pool_ a).
    + exists (i :: threads), a'. simpl. rewrite Hs. simpl.
      rewrite <- Hto. done.
Qed.

(** C4: in every state the analyzer reaches, frames_recorded ≤
    frames_to_process and frames_processed ≤ frames_recorded; each counter
    only moves up, one at a time, and stays at frames_to_process once
    there, so it reaches that value once and never exceeds it; the done
    event is set by the one thread whose [FrameProcessed] made
    frames_processed equal to frames_to_process, as its next step, and by
    no other step.  No [assert] of a comparison thread ever fails.

    The counters do get there.  A thread stops only once every frame has
    been recorded, and a pool whose threads have all stopped has both
    counters at frames_to_process and the done event set.  Once the
    comparisons still to be recorded are in the queue, the threads take at
    most 8 * (frames_to_process - frames_processed) + 7 * threads further
    steps in any run, whatever else happens in between; and from that state
    the threads can take both counters to frames_to_process, set the done
    event (once) and stop. *)
Theorem C4_counters_bounded_done_once (n cores : Z) acts a :
  0 ≤ n →
  run (new_VideoAnalyzer n cores) acts = Some a →
  (frames_to_process_ a = n
   ∧ frames_recorded_ a ≤ frames_to_process_ a
   ∧ frames_processed_ a ≤ frames_recorded_ a
   ∧ 0 ≤ frames_processed_ a)
  ∧ ((done_ a = true ↔ done_signals a = 1%nat)
     ∧ (done_ a = true → frames_processed_ a = frames_to_process_ a)
     ∧ count_pc is_last (comparison_thread_pool_ a) + Z.of_nat (done_signals a)
       = if (frames_processed_ a =? n) && (0 <? n) then 1 else 0)
  ∧ (∀ act a', step a act = Some a' →
       frames_recorded_ a ≤ frames_recorded_ a' ≤ frames_recorded_ a + 1
       ∧ (frames_recorded_ a = n → frames_recorded_ a' = n)
       ∧ frames_processed_ a ≤ frames_processed_ a' ≤ frames_processed_ a + 1
       ∧ (frames_processed_ a = n → frames_processed_ a' = n)
       ∧ (frames_processed_ a ≠ n → frames_processed_ a' = n →
          ∃ i, act = AWorker i
               ∧ comparison_thread_pool_ a' !! i = Some PcLast)
       ∧ (done_ a = false → done_ a' = true →
          ∃ i, act = AWorker i
               ∧ comparison_thread_pool_ a !! i = Some PcLast))
  ∧ (∀ i, comparison_thread_pool_ a !! i = Some PcLast →
       ∃ a', step a (AWorker i) = Some a'
             ∧ done_ a' = true ∧ done_signals a' = 1%nat)
  ∧ (∀ i, is_Some (step a (AWorker i)))
  ∧ (∀ i, comparison_thread_pool_ a !! i = Some PcExit →
       frames_recorded_ a = n)
  ∧ (1 ≤ n → comparison_thread_pool_ a ≠ [] →
     Forall (λ pc, pc = PcExit) (comparison_thread_pool_ a) →
     frames_recorded_ a = n ∧ frames_processed_ a = n ∧ done_ a = true)
  ∧ (n ≤ frames_recorded_ a + Z.of_nat (length (comparisons_ a)) →
     (∀ acts', Z.of_nat (thread_steps a acts')
               ≤ 8 * (n - frames_processed_ a)
                 + 7 * Z.of_nat (length (comparison_thread_pool_ a)))
     ∧ (1 ≤ n → comparison_thread_pool_ a ≠ [] →
        ∃ threads a',
          run a (map AWorker threads) = Some a'
          ∧ frames_recorded_ a' = n
          ∧ frames_processed_ a' = n
          ∧ done_ a' = true
          ∧ done_signals a' = 1%nat
          ∧ Forall (λ pc, pc = PcExit) (comparison_thread_pool_ a'))).
Proof.
  intros Hn Hr.
  assert (Inv a) as HI by (eapply run_Inv; [by apply Inv_new|exact Hr]).
  assert (exits_late a) as Hex
    by (eapply run_exits; [by apply Inv_new|apply exits_late_new|exact Hr]).
  assert (frames_to_process_ a = n) as Hto
    by (by rewrite (run_frames_to_process _ _ _ (Inv_new n cores Hn) Hr)).
  pose proof (Inv_done a HI) as (Hle & Hdone & Hdp).
  pose proof HI as [].
  pose proof (count_pc_nonneg in_flight (comparison_thread_pool_ a)).
  split; [repeat split; [done|lia..]|].
  split; [split; [done|split; [done|]]; unfold all_done in *; by rewrite <- Hto|].
  split.
  - intros act a' Hs.
    assert (Inv a') as [] by (by eapply step_Inv).
    pose proof (count_pc_nonneg in_flight (comparison_thread_pool_ a')).
    destruct (step_counters a act a' HI Hs) as (Hto' & Hrec & Hproc & Hsig).
    split; [destruct Hrec as [?|(? & ?)]; lia|].
    split; [destruct Hrec as [?|(? & ?)]; lia|].
    split; [destruct Hproc as [?|(? & ?)]; lia|].
    split; [destruct Hproc as [?|(? & ?)]; lia|].
    split.
    + intros Hne Heq. destruct Hproc as [?|(? & i & -> & _ & Hi)]; [lia|].
      exists i. split; [done|]. rewrite Hi.
      destruct (Z.eqb_spec (frames_processed_ a') (frames_to_process_ a));
        [done|lia].
    + intros Hf Ht. destruct Hsig as [(_ & ?)|((i & ? & ?) & _)];
        [congruence|]. by exists i.
  - split; [|split; [intros i; by apply CompareFrames_step_total|]].
    + intros i Hi. unfold step, CompareFrames_step. rewrite Hi.
      eexists. split; [reflexivity|]. simpl. split; [done|].
      pose proof (count_pc_pos is_last _ _ _ Hi eq_refl).
      destruct (all_done a); lia.
    + split; [intros i Hi; rewrite <- Hto; by apply (Hex i)|].
      split.
      * intros Hn1 Hne Hall.
        destruct (stopped_pool_done a HI Hex) as (? & ? & ? & _);
          [lia|done|done|]. rewrite <- Hto. done.
      * intros Hq. assert (enough_queued a) as Hq'
          by (unfold enough_queued; lia).
        split.
        -- intros acts'.
           pose proof (thread_steps_rank acts' a HI Hq').
           pose proof (rank_bounds a HI). lia.
        -- intros Hn1 Hne.
           destruct (threads_finish (S (Z.to_nat (rank a))) a)
             as (threads & a' & Hrun & Hrest); try done; [lia..|].
           exists threads, a'. rewrite <- Hto. done.
Qed.

(** C6: when frames_processed equals frames_to_process, the dropped_frames
    counter and the number of rendered (non-dropped) comparisons fed to the
    statistics add up to frames_to_process; [PerformFrameComparison] moves
    exactly one of the two tallies, by one. *)
Theorem C6_dropped_plus_rendered (n cores : Z) acts a :
  0 ≤ n →
  run (new_VideoAnalyzer n cores) acts = Some a →
  frames_processed_ a = frames_to_process_ a →
  dropped_frames_ a + tally false (performed a) = frames_to_process_ a
  ∧ dropped_frames_ a = tally true (performed a)
  ∧ Z.of_nat (length (samples (sender_time_ a))) = tally false (performed a)
  ∧ Z.of_nat (length (samples (psnr_ a))) = frames_to_process_ a
  ∧ ∀ b c,
      let b' := PerformFrameComparison b c in
      performed b' = performed b ++ [c]
      ∧ if dropped c
        then dropped_frames_ b' = dropped_frames_ b + 1
             ∧ tally false (performed b') = tally false (performed b)
        else dropped_frames_ b' = dropped_frames_ b
             ∧ tally false (performed b') = tally false (performed b) + 1.
Proof.
  intros Hn Hr Hall.
  assert (Inv a) as HI by (eapply run_Inv; [by apply Inv_new|exact Hr]).
  pose proof HI as [].
  pose proof (count_pc_nonneg in_flight (comparison_thread_pool_ a)).
  pose proof (count_pc_nonneg is_compared (comparison_thread_pool_ a)).
  assert (count_pc is_compared (comparison_thread_pool_ a)
          ≤ count_pc in_flight (comparison_thread_pool_ a)) as Hle
    by (apply count_pc_le; by intros []).
  pose proof (tally_total (performed a)).
  split; [lia|]. split; [done|]. split; [done|]. split; [lia|].
  intros b c. unfold PerformFrameComparison.
  destruct (dropped c) eqn:Hd; simpl; rewrite ?tally_snoc, ?Hd; simpl;
    repeat split; lia.
Qed.

(** C7 (as the code has it): a thread that finds all frames recorded,
    frames_recorded = frames_to_process, leaves the comparison queue as it
    is, empty or not: at the entry check its call returns false, inside
    [PopComparison] it pops nothing and goes to wait, and at the check
    after the wait its call returns false. *)
Theorem C7_all_recorded_thread_pops_nothing a i pc :
  frames_recorded_ a = frames_to_process_ a →
  comparison_thread_pool_ a !! i = Some pc →
  pc = PcEntry ∨ pc = PcPop ∨ pc = PcRecheck →
  ∃ a',
    CompareFrames_step i a = Some a'
    ∧ comparisons_ a' = comparisons_ a
    ∧ frames_recorded_ a' = frames_recorded_ a
    ∧ frames_processed_ a' = frames_processed_ a
    ∧ comparison_thread_pool_ a' !! i
      = Some (match pc with PcPop => PcWait | _ => PcExit end).
Proof.
  intros Hall Hi Hpc. pose proof (lookup_lt_Some _ _ _ Hi) as Hlt.
  unfold CompareFrames_step, PopComparison, AllFramesRecorded.
  rewrite Hi, Hall, Z.leb_refl, Z.eqb_refl.
  destruct Hpc as [->| [->| ->]]; simpl.
  - eexists. split; [reflexivity|]. simpl.
    by rewrite list_lookup_insert_eq.
  - destruct (comparisons_ a) eqn:Hq; simpl;
      (eexists; split; [reflexivity|]; simpl;
       by rewrite list_lookup_insert_eq).
  - eexists. split; [reflexivity|]. simpl.
    by rewrite list_lookup_insert_eq.
Qed.

(** With a budget of zero frames the threads only ever stand at the entry
    of [CompareFrames] or have left it, and the encoder observer records
    nothing. *)
Lemma zero_budget_step a act a' :
  Inv a → frames_to_process_ a = 0 →
  Forall (λ pc, pc = PcEntry ∨ pc = PcExit) (comparison_thread_pool_ a) →
  samples (encoded_frame_size_ a) = [] →
  step a act = Some a' →
  Forall (λ pc, pc = PcEntry ∨ pc = PcExit) (comparison_thread_pool_ a')
  ∧ samples (encoded_frame_size_ a') = [].
Proof.
  intros HI Hto Hpool Henc Hs. pose proof HI as [].
  pose proof (count_pc_nonneg in_flight (comparison_thread_pool_ a)).
  assert (frames_recorded_ a = 0) as Hrec by lia.
  destruct act; simpl in Hs; try (injection Hs as <-; simpl; done).
  - apply RenderFrame_view in Hs as [Hv He]. rewrite He. split; [|done].
    unfold pool_view in Hv. by injection Hv as _ _ _ _ _ _ _ ->.
  - injection Hs as <-. unfold EncodedFrameCallback.
    rewrite Hrec, Hto. done.
  - injection Hs as <-. unfold PollStats. by destruct (done_ a).
  - unfold CompareFrames_step in Hs.
    destruct (comparison_thread_pool_ a !! i) as [pc|] eqn:Hi;
      [|by injection Hs as <-].
    destruct (proj1 (Forall_lookup _ _) Hpool i pc Hi) as [-> | ->].
    + unfold AllFramesRecorded in Hs. rewrite Hrec, Hto in Hs.
      simpl in Hs. injection Hs as <-. simpl. split; [|done].
      apply Forall_insert; [done|by right].
    + by injection Hs as <-.
Qed.

Lemma zero_budget_run acts : ∀ a a',
  Inv a → frames_to_process_ a = 0 →
  Forall (λ pc, pc = PcEntry ∨ pc = PcExit) (comparison_thread_pool_ a) →
  samples (encoded_frame_size_ a) = [] →
  run a acts = Some a' →
  Forall (λ pc, pc = PcEntry ∨ pc = PcExit) (comparison_thread_pool_ a')
  ∧ samples (encoded_frame_size_ a') = [].
Proof.
  induction acts as [|act acts IH]; intros a a' HI Hto Hpool Henc Hr;
    simpl in Hr.
  - by injection Hr as <-.
  - destruct (step a act) as [a1|] eqn:Hs; simpl in Hr; [|discriminate].
    destruct (zero_budget_step a act a1 HI Hto Hpool Henc Hs) as [Hp1 He1].
    apply (IH a1 a'); try done.
    + by eapply step_Inv.
    + by destruct (step_counters a act a1 HI Hs) as (-> & _).
Qed.

(** While frames_processed stays below frames_to_process the done event
    is not set. *)
Lemma Inv_not_done a :
  Inv a → frames_processed_ a ≠ frames_to_process_ a ∨ frames_to_process_ a = 0 →
  done_ a = false.
Proof.
  intros HI Hne. pose proof HI as [].
  pose proof (count_pc_nonneg is_last (comparison_thread_pool_ a)).
  rewrite inv_done0. unfold all_done in *.
  destruct (done_signals a); [done|].
  destruct (Z.eqb_spec (frames_processed_ a) (frames_to_process_ a)),
    (Z.ltb_spec 0 (frames_to_process_ a)); simpl in *; lia.
Qed.

Lemma Wait_loop_zero_budget periods : ∀ a last it,
  Inv a → frames_to_process_ a = 0 →
  fst (Wait_loop a periods last it) ≠ WaitDone.
Proof.
  induction periods as [|acts periods IH]; intros a last it HI Hto; simpl;
    [done|].
  destruct (run a acts) as [a1|] eqn:Hr; [|done].
  assert (Inv a1) as HI1 by (by eapply run_Inv).
  assert (frames_to_process_ a1 = 0) as Hto1
    by (by rewrite (run_frames_to_process _ _ _ HI Hr)).
  rewrite (Inv_not_done a1 HI1) by (by right).
  destruct (last =? -1); [by apply IH|].
  destruct (last <? frames_processed_ a1); [by apply IH|done].
Qed.

(** C8 (as the code has it): with frames_to_process = 0 every comparison
    thread leaves [CompareFrames] at its first check without popping or
    comparing anything; the counters stay 0 and the statistics fed by the
    threads and by the encoder observer stay empty; no thread sets the done
    event, so [Wait] is never released by it and reports the stall at its
    second time-out. *)
Theorem C8_zero_budget_never_signals (cores : Z) acts a :
  run (new_VideoAnalyzer 0 cores) acts = Some a →
  (frames_recorded_ a = 0 ∧ frames_processed_ a = 0 ∧ dropped_frames_ a = 0)
  ∧ Forall (λ pc, pc = PcEntry ∨ pc = PcExit) (comparison_thread_pool_ a)
  ∧ (∀ i, comparison_thread_pool_ a !! i = Some PcEntry →
       ∃ a', step a (AWorker i) = Some a'
             ∧ comparison_thread_pool_ a' !! i = Some PcExit
             ∧ comparisons_ a' = comparisons_ a)
  ∧ (samples (psnr_ a) = [] ∧ samples (ssim_ a) = []
     ∧ samples (sender_time_ a) = [] ∧ samples (receiver_time_ a) = []
     ∧ samples (end_to_end_ a) = [] ∧ samples (rendered_delta_ a) = []
     ∧ samples (encoded_frame_size_ a) = [])
  ∧ done_ a = false
  ∧ (∀ periods last it, fst (Wait_loop a periods last it) ≠ WaitDone)
  ∧ (∀ p1 p2 rest a1 a2,
       run a p1 = Some a1 → run a1 p2 = Some a2 →
       Wait a (p1 :: p2 :: rest) = (WaitStalled, 2%nat)).
Proof.
  intros Hr.
  pose proof (Inv_new 0 cores (Z.le_refl 0)) as HI0.
  assert (Inv a) as HI by (by eapply run_Inv).
  assert (frames_to_process_ a = 0) as Hto
    by (by rewrite (run_frames_to_process _ _ _ HI0 Hr)).
  destruct (zero_budget_run acts _ a HI0 eq_refl) as [Hpool Henc]; try done.
  { simpl. apply Forall_replicate. by left. }
  pose proof HI as [].
  pose proof (count_pc_nonneg in_flight (comparison_thread_pool_ a)).
  pose proof (count_pc_nonneg is_compared (comparison_thread_pool_ a)).
  assert (count_pc is_compared (comparison_thread_pool_ a)
          ≤ count_pc in_flight (comparison_thread_pool_ a)) as Hle
    by (apply count_pc_le; by intros []).
  pose proof (tally_total (performed a)) as Htot.
  assert (0 ≤ tally true (performed a) ∧ 0 ≤ tally false (performed a))
    as [Ht Hf] by (unfold tally; lia).
  assert (∀ l : list double, Z.of_nat (length l) ≤ 0 → l = []) as Hnil
    by (intros [|x l]; simpl; [done|lia]).
  assert (frames_processed_ a = 0) as Hp0 by lia.
  split; [repeat split; lia|]. split; [exact Hpool|]. split.
  { intros i Hi. pose proof (lookup_lt_Some _ _ _ Hi) as Hlt.
    unfold step, CompareFrames_step, AllFramesRecorded. rewrite Hi.
    assert (frames_recorded_ a = 0) as -> by lia. rewrite Hto. simpl.
    eexists. split; [reflexivity|]. simpl.
    by rewrite list_lookup_insert_eq. }
  split.
  { repeat split; try (apply Hnil; lia). exact Henc. }
  split; [apply Inv_not_done; [done|by right]|].
  split; [intros; by apply Wait_loop_zero_budget|].
  intros p1 p2 rest a1 a2 Hr1 Hr2. unfold Wait. simpl.
  assert (Inv a1) as HI1 by (by eapply run_Inv).
  assert (Inv a2) as HI2 by (by eapply run_Inv).
  assert (frames_to_process_ a1 = 0) as Hto1
    by (by rewrite (run_frames_to_process _ _ _ HI Hr1)).
  assert (frames_to_process_ a2 = 0) as Hto2
    by (by rewrite (run_frames_to_process _ _ _ HI1 Hr2)).
  rewrite Hr1, (Inv_not_done a1 HI1) by (by right).
  rewrite Hr2, (Inv_not_done a2 HI2) by (by right).
  destruct HI1, HI2.
  pose proof (count_pc_nonneg in_flight (comparison_thread_pool_ a1)).
  pose proof (count_pc_nonneg in_flight (comparison_thread_pool_ a2)).
  assert (frames_processed_ a1 = 0) as -> by lia.
  assert (frames_processed_ a2 = 0) as -> by lia.
  reflexivity.
Qed.


End Pool.

(** ** The callbacks on the sending side *)

Section Sending.
Context `{Metrics} `{RtpHeaderParser}.

(** What [SendRtp] does to the delta, to the held first frame and to the
    send times, whatever the delta was. *)
Lemma SendRtp_locked_spec a packet now :
  let ts := header_timestamp (Parse packet) in
  let a' := SendRtp_locked a packet now in
  (if rtp_timestamp_delta_ a =? 0
   then rtp_timestamp_delta_ a'
        = wrap32 (ts - timestamp (first_send_frame_ a))
        ∧ first_send_frame_ a' = zero_frame
   else rtp_timestamp_delta_ a' = rtp_timestamp_delta_ a
        ∧ first_send_frame_ a' = first_send_frame_ a)
  ∧ send_times_ a'
    = <[wrap32 (ts - rtp_timestamp_delta_ a') := now]> (send_times_ a)
  ∧ recv_times_ a' = recv_times_ a.
Proof. unfold SendRtp_locked. simpl. by destruct (_ =? _). Qed.

(** [DeliverPacket] files the receive time under the packet's timestamp
    less the delta and leaves the delta alone. *)
Lemma DeliverPacket_spec a packet now :
  let a' := DeliverPacket a packet now in
  rtp_timestamp_delta_ a' = rtp_timestamp_delta_ a
  ∧ recv_times_ a'
    = <[wrap32 (header_timestamp (Parse packet) - rtp_timestamp_delta_ a) := now]>
        (recv_times_ a).
Proof. done. Qed.

(** C3 (as the code has it): a missing send or receive time reads as 0
    when the comparison is built, and consuming the comparison adds its
    PSNR and SSIM samples and, unless it is a dropped one, a sender_time
    and a receiver_time sample computed from the times it carries, the 0
    included; timing samples are left out for dropped comparisons only. *)
Theorem C3_missing_time_reads_as_zero a ref rnd drp now b :
  send_times_ a !! timestamp ref = None
  ∨ recv_times_ a !! timestamp ref = None →
  ∃ c,
    comparisons_ (AddFrameComparison a ref rnd drp now) = comparisons_ a ++ [c]
    ∧ reference c = ref ∧ render c = rnd ∧ dropped c = drp
    ∧ render_time_ms c = now
    ∧ send_time_ms c
      = match send_times_ a !! timestamp ref with Some t => t | None => 0 end
    ∧ recv_time_ms c
      = match recv_times_ a !! timestamp ref with Some t => t | None => 0 end
    ∧ samples (psnr_ (PerformFrameComparison b c))
      = samples (psnr_ b) ++ [I420PSNR ref rnd]
    ∧ samples (ssim_ (PerformFrameComparison b c))
      = samples (ssim_ b) ++ [I420SSIM ref rnd]
    ∧ samples (sender_time_ (PerformFrameComparison b c))
      = (if drp then samples (sender_time_ b)
         else samples (sender_time_ b)
              ++ [double_of_Z (send_time_ms c - ntp_time_ms ref)])
    ∧ samples (receiver_time_ (PerformFrameComparison b c))
      = (if drp then samples (receiver_time_ b)
         else samples (receiver_time_ b)
              ++ [double_of_Z (now - recv_time_ms c)]).
Proof.
  intros _. eexists. split; [apply AddFrameComparison_comparisons|].
  simpl. unfold PerformFrameComparison. simpl.
  repeat split; try (by destruct (send_times_ a !! timestamp ref));
    try (by destruct (recv_times_ a !! timestamp ref));
    by destruct drp.
Qed.

Section WithTransport.
Context {T : Type} `{Transport T}.

(** C10: [SendRtcp] hands the packet to the transport, returns what the
    transport returned and leaves the analyzer as it was, field for
    field. *)
Theorem C10_SendRtcp_forwards_only (a : VideoAnalyzer) (t : T) packet :
  SendRtcp a t packet
  = (fst (transport_SendRtcp t packet), a, snd (transport_SendRtcp t packet)).
Proof. unfold SendRtcp. by destruct (transport_SendRtcp t packet). Qed.

End WithTransport.

End Sending.

(** ** The size of the thread pool *)

(** C5: for a machine with at least one core the analyzer starts
    max(1, min(8, cores − 4)) comparison threads: one thread up to 4 cores,
    eight threads from 13 cores on. *)
Theorem C5_thread_count `{Metrics} `{RtpHeaderParser}
    (duration_frames cpu_cores : Z) :
  1 ≤ cpu_cores < 2 ^ 32 →
  num_comparison_threads cpu_cores = Z.max 1 (Z.min 8 (cpu_cores - 4))
  ∧ Z.of_nat (length (comparison_thread_pool_
                        (new_VideoAnalyzer duration_frames cpu_cores)))
    = Z.max 1 (Z.min 8 (cpu_cores - 4))
  ∧ (if cpu_cores <=? 4 then num_comparison_threads cpu_cores = 1
     else if 13 <=? cpu_cores then num_comparison_threads cpu_cores = 8
     else 1 ≤ num_comparison_threads cpu_cores ≤ 8).
Proof.
  intros Hc.
  assert (num_comparison_threads cpu_cores = Z.max 1 (Z.min 8 (cpu_cores - 4)))
    as Hnum.
  { unfold num_comparison_threads, kMinCoresLeft, kMaxComparisonThreads, wrap32.
    destruct (Z.leb_spec cpu_cores 4); [lia|].
    rewrite Z.mod_small by lia. lia. }
  split; [exact Hnum|]. split.
  - simpl. rewrite length_replicate, Hnum. lia.
  - rewrite Hnum.
    destruct (Z.leb_spec cpu_cores 4); [lia|].
    destruct (Z.leb_spec 13 cpu_cores); lia.
Qed.

(** ** The analyzer evaluated *)

Section Evaluation.
#[local] Existing Instance integer_metrics.
#[local] Existing Instance head_parser.
#[local] Existing Instance counting_transport.

(** Three frames are queued and the third one is rendered: the first two
    are dropped and the queue is empty afterwards. *)
Lemma C1_witness :
  ∃ a', RenderFrame three_captured (rendered 6800) 40 = Some a'
        ∧ frames_ a' = []
        ∧ last_rendered_frame_ a' = rendered 6800.
Proof.
  pose proof (C1_RenderFrame_pairs_by_timestamp three_captured (rendered 6800)
                40 [captured 10; captured 20] (captured 30) [] eq_refl) as W.
  assert (Forall (λ f, timestamp f < send_timestamp_of three_captured (rendered 6800))
            [captured 10; captured 20]) as Hold
    by (repeat constructor).
  assert (¬ timestamp (captured 30) < send_timestamp_of three_captured (rendered 6800))
    as Hge by (vm_compute; discriminate).
  specialize (W Hold Hge).
  change ((timestamp (captured 30) =? send_timestamp_of three_captured (rendered 6800))
          && negb (IsZeroSize (captured 30))) with true in W.
  destruct W as (a' & drops & final & HR & Hf & _ & _ & _ & _ & _ & _ & Hl & _).
  exists a'. split; [exact HR|]. split; [exact Hf|exact Hl].
Defined.
(** C2: with a sender whose RTP timestamps equal the capture timestamps
    the first packet yields delta 0, which [SendRtp] cannot tell from "not
    yet known": the second packet of the same frame computes the delta
    again, now against the cleared first frame, and gets 900.  The frame is
    then filed under timestamp 0, and rendering it trips the assertion. *)
Theorem C2_delta_recomputed_after_zero_delta :
  let a1 := SendRtp_locked zero_offset_start [900] 11 in
  let a2 := SendRtp_locked a1 [900] 12 in
  rtp_timestamp_delta_ a1 = 0
  ∧ first_send_frame_ a1 = zero_frame
  ∧ rtp_timestamp_delta_ a2 = 900
  ∧ send_times_ a2 !! 900 = Some 11
  ∧ send_times_ a2 !! 0 = Some 12
  ∧ is_Some (RenderFrame a1 (rendered 900) 40)
  ∧ RenderFrame a2 (rendered 900) 40 = None.
Proof. vm_compute. repeat split. by eexists. Qed.

(** A frame is rendered with neither a send nor a receive time on record;
    the thread that consumes the comparison still adds a sender_time sample
    (0 - 10) and a receiver_time sample (40 - 0). *)
Lemma C3_counterexample :
  ∃ a1 c a,
    RenderFrame zero_offset_start (rendered 900) 40 = Some a1
    ∧ comparisons_ a1 = [c]
    ∧ dropped c = false
    ∧ send_times_ zero_offset_start !! timestamp (reference c) = None
    ∧ recv_times_ zero_offset_start !! timestamp (reference c) = None
    ∧ run (new_VideoAnalyzer 1 1) untimed_run = Some a
    ∧ performed a = [c]
    ∧ samples (sender_time_ a) = [-10]
    ∧ samples (receiver_time_ a) = [40]
    ∧ samples (sender_time_ a) ≠ samples (sender_time_ a1)
    ∧ samples (receiver_time_ a) ≠ samples (receiver_time_ a1).
Proof.
  eexists _, _, _. split; [vm_compute; reflexivity|].
  split; [vm_compute; reflexivity|].
  split; [reflexivity|]. split; [reflexivity|]. split; [reflexivity|].
  split; [vm_compute; reflexivity|].
  repeat split; try (vm_compute; reflexivity); vm_compute; discriminate.
Qed.

(** The same frame, through [AddFrameComparison] and
    [PerformFrameComparison] directly. *)
Lemma C3_witness :
  ∃ c, comparisons_ (AddFrameComparison zero_offset_start (captured 10)
                       (rendered 900) false 40) = [c]
       ∧ send_time_ms c = 0
       ∧ samples (sender_time_ (PerformFrameComparison zero_offset_start c))
         = [-10].
Proof.
  destruct (C3_missing_time_reads_as_zero zero_offset_start (captured 10)
              (rendered 900) false 40 zero_offset_start (or_introl eq_refl))
    as (c & Hc & _ & _ & _ & _ & Hs & _ & _ & _ & Ht & _).
  exists c. split; [exact Hc|]. split; [exact Hs|].
  rewrite Ht, Hs. reflexivity.
Defined.

(** One frame, one thread, budget one: the run ends with the thread
    stopped, both counters at one and done set; and from the moment the
    comparison is queued the thread can get there. *)
Lemma C4_witness :
  (∃ a, run (new_VideoAnalyzer 1 1) one_frame_run = Some a
        ∧ frames_recorded_ a ≤ frames_to_process_ a
        ∧ frames_processed_ a ≤ frames_recorded_ a
        ∧ (done_ a = true ↔ done_signals a = 1%nat)
        ∧ frames_recorded_ a = 1
        ∧ frames_processed_ a = 1
        ∧ done_ a = true)
  ∧ (∃ a threads a',
       run (new_VideoAnalyzer 1 1)
         [ACapture (frame_at 10); ASendRtp [5000] 11; ADeliver [5000] 12;
          ARender (rendered 5000) 40] = Some a
       ∧ frames_processed_ a = 0
       ∧ done_ a = false
       ∧ run a (map AWorker threads) = Some a'
       ∧ frames_recorded_ a' = 1
       ∧ frames_processed_ a' = 1
       ∧ done_ a' = true).
Proof.
  split.
  - eexists. split; [vm_compute; reflexivity|].
    edestruct (C4_counters_bounded_done_once 1 1 one_frame_run)
      as ((_ & Hrec & Hproc & _) & (Hdone & _) & _ & _ & _ & _ & Hstop & _);
      [lia | vm_compute; reflexivity |].
    destruct Hstop as (Hr1 & Hp1 & Hd1);
      [lia | intros Hnil; vm_compute in Hnil; discriminate Hnil
      | vm_compute; repeat constructor |].
    split; [exact Hrec|]. split; [exact Hproc|]. split; [exact Hdone|].
    split; [exact Hr1|]. split; [exact Hp1|exact Hd1].
  - edestruct (C4_counters_bounded_done_once 1 1
                 [ACapture (frame_at 10); ASendRtp [5000] 11;
                  ADeliver [5000] 12; ARender (rendered 5000) 40])
      as (_ & _ & _ & _ & _ & _ & _ & Hprog);
      [lia | vm_compute; reflexivity |].
    destruct Hprog as [_ Hfin]; [vm_compute; discriminate|].
    destruct Hfin as (threads & a' & Hr & Hr1 & Hp1 & Hd1 & _);
      [lia | intros Hnil; vm_compute in Hnil; discriminate Hnil |].
    eexists _, threads, a'. split; [vm_compute; reflexivity|].
    split; [reflexivity|]. split; [reflexivity|]. split; [exact Hr|].
    split; [exact Hr1|]. split; [exact Hp1|exact Hd1].
Defined.

(** Sixteen cores give eight threads, two cores give one. *)
Lemma C5_witness :
  num_comparison_threads 16 = Z.max 1 (Z.min 8 (16 - 4))
  ∧ num_comparison_threads 2 = Z.max 1 (Z.min 8 (2 - 4)).
Proof.
  split.
  - apply (C5_thread_count 60 16). lia.
  - apply (C5_thread_count 60 2). lia.
Defined.

(** After the one-frame run: no dropped frame, one rendered one. *)
Lemma C6_witness :
  ∃ a, run (new_VideoAnalyzer 1 1) one_frame_run = Some a
       ∧ frames_processed_ a = frames_to_process_ a
       ∧ dropped_frames_ a + tally false (performed a) = frames_to_process_ a.
Proof.
  eexists. split; [vm_compute; reflexivity|]. split; [reflexivity|].
  apply (C6_dropped_plus_rendered 1 1 one_frame_run);
    [lia | vm_compute; reflexivity | reflexivity].
Defined.

(** Thread 0 has taken the budget of one frame from the queue; thread 1
    finds all frames recorded with one comparison still queued, and leaves. *)
Lemma C7_counterexample :
  ∃ a a',
    run (new_VideoAnalyzer 1 6) two_queued_run = Some a
    ∧ AllFramesRecorded a = Some true
    ∧ length (comparisons_ a) = 1%nat
    ∧ comparison_thread_pool_ a !! 1%nat = Some PcEntry
    ∧ step a (AWorker 1) = Some a'
    ∧ comparison_thread_pool_ a' !! 1%nat = Some PcExit
    ∧ comparisons_ a' = comparisons_ a.
Proof.
  eexists _, _. split; [vm_compute; reflexivity|].
  split; [reflexivity|]. split; [reflexivity|]. split; [reflexivity|].
  split; [vm_compute; reflexivity|]. split; reflexivity.
Qed.

(** The same state: the step of thread 1 pops nothing. *)
Lemma C7_witness :
  ∃ a a',
    run (new_VideoAnalyzer 1 6) two_queued_run = Some a
    ∧ CompareFrames_step 1 a = Some a'
    ∧ comparisons_ a' = comparisons_ a
    ∧ comparison_thread_pool_ a' !! 1%nat = Some PcExit.
Proof.
  set (a := default (new_VideoAnalyzer 1 6)
              (run (new_VideoAnalyzer 1 6) two_queued_run)).
  destruct (C7_all_recorded_thread_pops_nothing a 1%nat PcEntry
              eq_refl eq_refl (or_introl eq_refl))
    as (a' & Hs & Hq & _ & _ & Hp).
  exists a, a'. split; [vm_compute; reflexivity|].
  split; [exact Hs|]. split; [exact Hq|exact Hp].
Defined.

(** Budget zero: the only thread leaves at once, nobody sets the done
    event, the poller goes on sampling, and [Wait] gives up at its second
    time-out. *)
Lemma C8_counterexample :
  ∃ a,
    run (new_VideoAnalyzer 0 1)
      [AWorker 0; APoll (mkSendStreamStats 30 5 50 300000)] = Some a
    ∧ comparison_thread_pool_ a = [PcExit]
    ∧ done_ a = false
    ∧ samples (encode_frame_rate_ a) = [30]
    ∧ Wait (new_VideoAnalyzer 0 1)
        [[AWorker 0]; [APoll (mkSendStreamStats 30 5 50 300000)]]
      = (WaitStalled, 2%nat).
Proof.
  eexists. split; [vm_compute; reflexivity|].
  repeat split; vm_compute; reflexivity.
Qed.

(** Budget zero: an encoded frame that arrives is not recorded either. *)
Lemma C8_witness :
  ∃ a, run (new_VideoAnalyzer 0 1) [AWorker 0; AEncoded 1200] = Some a
       ∧ done_ a = false
       ∧ samples (encoded_frame_size_ a) = [].
Proof.
  eexists. split; [vm_compute; reflexivity|].
  destruct (C8_zero_budget_never_signals 1 [AWorker 0; AEncoded 1200] _
              ltac:(vm_compute; reflexivity))
    as (_ & _ & _ & (_ & _ & _ & _ & _ & _ & He) & Hd & _).
  split; [exact Hd|exact He].
Defined.


End Evaluation.

(** * Further properties of the analyzer *)

(** ** Arithmetic of RTP timestamps *)

Lemma wrap32_range z : 0 ≤ wrap32 z < 2 ^ 32.
Proof. unfold wrap32. apply Z.mod_pos_bound. lia. Qed.

Lemma wrap32_small z : 0 ≤ z < 2 ^ 32 → wrap32 z = z.
Proof. unfold wrap32. apply Z.mod_small. Qed.

(** Taking the sender's offset off again gives the capture timestamp. *)
Lemma wrap32_add_sub c off :
  0 ≤ c < 2 ^ 32 → wrap32 (wrap32 (c + off) - off) = c.
Proof.
  intros Hc. unfold wrap32. rewrite Zminus_mod_idemp_l.
  replace (c + off - off) with c by lia. by apply Z.mod_small.
Qed.

Lemma wrap32_add_sub_l c off :
  0 ≤ off < 2 ^ 32 → wrap32 (wrap32 (c + off) - c) = off.
Proof.
  intros Hc. unfold wrap32. rewrite Zminus_mod_idemp_l.
  replace (c + off - c) with off by lia. by apply Z.mod_small.
Qed.

(** ** Capturing and sending *)

Section Capturing.
Context `{Metrics} `{RtpHeaderParser}.

Lemma IsZeroSize_capture_copy f : IsZeroSize (capture_copy f) = IsZeroSize f.
Proof. done. Qed.

Lemma captures_snoc a fs f :
  captures a (fs ++ [f]) = IncomingCapturedFrame (captures a fs) f.
Proof. unfold captures. by rewrite foldl_app. Qed.

(** The capture tap is a FIFO and touches nothing but the queue and the
    held first frame. *)
Lemma captures_frames fs : ∀ a,
  frames_ (captures a fs) = frames_ a ++ map capture_copy fs
  ∧ rtp_timestamp_delta_ (captures a fs) = rtp_timestamp_delta_ a
  ∧ send_times_ (captures a fs) = send_times_ a
  ∧ recv_times_ (captures a fs) = recv_times_ a
  ∧ pool_view (captures a fs) = pool_view a.
Proof.
  induction fs as [|f fs IH]; intros a; simpl.
  - by rewrite app_nil_r.
  - destruct (IH (IncomingCapturedFrame a f)) as (-> & -> & -> & -> & ->).
    simpl. by rewrite <- app_assoc.
Qed.

(** Once a frame is held, or once the delta is known, further captures
    leave the held first frame alone. *)
Lemma captures_first_kept fs : ∀ a,
  IsZeroSize (first_send_frame_ a) = false ∨ rtp_timestamp_delta_ a ≠ 0 →
  first_send_frame_ (captures a fs) = first_send_frame_ a.
Proof.
  induction fs as [|f fs IH]; intros a Hheld; simpl; [done|].
  assert (first_send_frame_ (IncomingCapturedFrame a f) = first_send_frame_ a)
    as Hf.
  { unfold IncomingCapturedFrame. simpl.
    destruct Hheld as [-> | Hd]; [done|].
    destruct (Z.eqb_spec (rtp_timestamp_delta_ a) 0); [done|].
    by rewrite andb_false_r. }
  rewrite IH; [exact Hf|]. rewrite Hf. simpl. exact Hheld.
Qed.

Lemma captures_fresh (n cores : Z) f fs :
  IsZeroSize f = false →
  frames_ (captures (new_VideoAnalyzer n cores) (f :: fs))
  = map capture_copy (f :: fs)
  ∧ first_send_frame_ (captures (new_VideoAnalyzer n cores) (f :: fs))
    = capture_copy f
  ∧ rtp_timestamp_delta_ (captures (new_VideoAnalyzer n cores) (f :: fs)) = 0.
Proof.
  intros Hf.
  destruct (captures_frames (f :: fs) (new_VideoAnalyzer n cores))
    as (Hq & Hd & _).
  split; [exact Hq|]. split; [|exact Hd]. simpl.
  rewrite captures_first_kept; [done|]. left. exact Hf.
Qed.

(** X1: on a fresh analyzer the capture tap queues the copies of the
    frames it is given, in order, each stamped with ntp_time_ms * 90 modulo
    2^32, and holds the copy of the first one as first_send_frame, however
    many frames follow before the first packet leaves. *)
Theorem X1_captures_queue_and_first_frame (n cores : Z) f fs :
  IsZeroSize f = false →
  frames_ (captures (new_VideoAnalyzer n cores) (f :: fs))
  = map capture_copy (f :: fs)
  ∧ map timestamp (frames_ (captures (new_VideoAnalyzer n cores) (f :: fs)))
    = map (λ g, wrap32 (ntp_time_ms g * 90)) (f :: fs)
  ∧ first_send_frame_ (captures (new_VideoAnalyzer n cores) (f :: fs))
    = capture_copy f
  ∧ rtp_timestamp_delta_ (captures (new_VideoAnalyzer n cores) (f :: fs)) = 0.
Proof.
  intros Hf. destruct (captures_fresh n cores f fs Hf) as (Hq & Hfirst & Hd).
  split; [exact Hq|]. split; [|by split].
  rewrite Hq, map_map. reflexivity.
Qed.

(** X2: the first packet after the captures teaches the analyzer the
    sender's timestamp offset: if it carries the first frame's capture
    timestamp plus an offset between 1 and 2^32 - 1, the delta becomes that
    offset, the held first frame is cleared, and the send time is filed under
    the capture timestamp of the first frame. *)
Theorem X2_first_packet_learns_offset (n cores : Z) f fs packet now off :
  IsZeroSize f = false →
  0 < off < 2 ^ 32 →
  header_timestamp (Parse packet) = wrap32 (timestamp (capture_copy f) + off) →
  rtp_timestamp_delta_
    (SendRtp_locked (captures (new_VideoAnalyzer n cores) (f :: fs)) packet now)
  = off
  ∧ first_send_frame_
      (SendRtp_locked (captures (new_VideoAnalyzer n cores) (f :: fs)) packet now)
    = zero_frame
  ∧ send_times_
      (SendRtp_locked (captures (new_VideoAnalyzer n cores) (f :: fs)) packet now)
    !! timestamp (capture_copy f) = Some now.
Proof.
  intros Hf Hoff Hts.
  destruct (captures_fresh n cores f fs Hf) as (Hq & Hfirst & Hd).
  pose proof (wrap32_range (ntp_time_ms f * 90)) as Hr.
  remember (captures (new_VideoAnalyzer n cores) (f :: fs)) as a0.
  unfold SendRtp_locked. simpl. rewrite Hd, Hfirst, Hts. simpl.
  rewrite wrap32_add_sub_l by lia.
  rewrite wrap32_add_sub by exact Hr.
  by rewrite lookup_insert_eq.
Qed.

(** The comparison threads, the encoder observer and the stats poller
    stay away from what [crit_] guards. *)
Lemma CompareFrames_step_crit i a a' :
  CompareFrames_step i a = Some a' → crit_view a' = crit_view a.
Proof.
  unfold CompareFrames_step, PopComparison, FrameProcessed, AllFramesRecorded.
  destruct (comparison_thread_pool_ a !! i) as [pc|]; [|by intros [= <-]].
  destruct pc; simpl.
  - destruct (_ <=? _); simpl; [|done]. by intros [= <-].
  - destruct (comparisons_ a); simpl; [by intros [= <-]|].
    destruct (_ <=? _); simpl; [|done].
    destruct (_ =? _); by intros [= <-].
  - by intros [= <-].
  - destruct (_ <=? _); simpl; [|done].
    destruct (_ =? _); by intros [= <-].
  - intros [= <-]. unfold PerformFrameComparison. by destruct (dropped c).
  - destruct (_ <=? _); simpl; [|done]. by intros [= <-].
  - by intros [= <-].
  - by intros [= <-].
Qed.

Lemma drain_dropped_first queue : ∀ a send_timestamp now a',
  drain_dropped queue a send_timestamp now = Some a' →
  first_send_frame_ a' = first_send_frame_ a.
Proof.
  induction queue as [|front rest IH]; intros a s now a' Hd; simpl in Hd;
    [discriminate|].
  destruct (timestamp front <? s).
  - by apply IH in Hd.
  - by injection Hd as <-.
Qed.

Lemma RenderFrame_delta a video_frame now a' :
  RenderFrame a video_frame now = Some a' →
  rtp_timestamp_delta_ a' = rtp_timestamp_delta_ a
  ∧ first_send_frame_ a' = first_send_frame_ a.
Proof.
  unfold RenderFrame. intros Hr.
  destruct (drain_dropped _ _ _ _) as [a1|] eqn:Hd; simpl in Hr; [|discriminate].
  pose proof (drain_dropped_first _ _ _ _ _ Hd) as Hf.
  apply drain_dropped_view in Hd as (_ & Hdelta & _).
  destruct (frames_ a1) as [|ref rest]; [discriminate|].
  destruct (IsZeroSize ref); [discriminate|].
  destruct (negb _); [discriminate|].
  injection Hr as <-. simpl. by split.
Qed.

Lemma step_delta_kept a act a' :
  rtp_timestamp_delta_ a ≠ 0 → step a act = Some a' →
  rtp_timestamp_delta_ a' = rtp_timestamp_delta_ a
  ∧ first_send_frame_ a' = first_send_frame_ a.
Proof.
  intros Hd Hs.
  assert ((rtp_timestamp_delta_ a =? 0) = false) as Hz by lia.
  destruct act; simpl in Hs.
  - injection Hs as <-. unfold IncomingCapturedFrame. simpl.
    by rewrite Hz, andb_false_r.
  - injection Hs as <-. unfold SendRtp_locked. simpl. by rewrite Hz.
  - by injection Hs as <-.
  - by apply RenderFrame_delta in Hs.
  - by injection Hs as <-.
  - injection Hs as <-. unfold EncodedFrameCallback. by destruct (_ <? _).
  - injection Hs as <-. unfold PollStats. by destruct (done_ a).
  - apply CompareFrames_step_crit in Hs. unfold crit_view in Hs.
    by injection Hs as -> _ _ _ _ ->.
Qed.

(** X3: once the delta is nonzero it is final: whatever the capture, send,
    receive, render, encoder, poller and comparison threads do afterwards,
    the delta and the cleared first frame stay as they are. *)
Theorem X3_nonzero_delta_is_final a acts a' :
  rtp_timestamp_delta_ a ≠ 0 →
  run a acts = Some a' →
  rtp_timestamp_delta_ a' = rtp_timestamp_delta_ a
  ∧ first_send_frame_ a' = first_send_frame_ a.
Proof.
  revert a. induction acts as [|act acts IH]; intros a Hd Hr; simpl in Hr.
  - by injection Hr as <-.
  - destruct (step a act) as [a1|] eqn:Hs; simpl in Hr; [|discriminate].
    destruct (step_delta_kept a act a1 Hd Hs) as [Hd1 Hf1].
    destruct (IH a1) as [Hd' Hf']; [by rewrite Hd1 | done |].
    split; congruence.
Qed.

Lemma SendRtp_locked_known a packet now :
  rtp_timestamp_delta_ a ≠ 0 →
  rtp_timestamp_delta_ (SendRtp_locked a packet now) = rtp_timestamp_delta_ a
  ∧ send_times_ (SendRtp_locked a packet now)
    = <[wrap32 (header_timestamp (Parse packet) - rtp_timestamp_delta_ a)
        := now]> (send_times_ a)
  ∧ recv_times_ (SendRtp_locked a packet now) = recv_times_ a
  ∧ comparisons_ (SendRtp_locked a packet now) = comparisons_ a.
Proof.
  intros Hd. unfold SendRtp_locked.
  destruct (Z.eqb_spec (rtp_timestamp_delta_ a) 0); [done|]. done.
Qed.

(** X4: the send time of a frame is the time of the last packet sent with
    its timestamp: a later packet with the same RTP timestamp overwrites the
    entry.  Building the frame's comparison reads that time and erases the
    entry, so a second comparison for the same timestamp reads 0. *)
Theorem X4_send_time_last_packet_then_erased
    a packet t1 t2 ref rnd drp now rnd' drp' now' :
  rtp_timestamp_delta_ a ≠ 0 →
  timestamp ref
  = wrap32 (header_timestamp (Parse packet) - rtp_timestamp_delta_ a) →
  let a2 := SendRtp_locked (SendRtp_locked a packet t1) packet t2 in
  let a3 := AddFrameComparison a2 ref rnd drp now in
  let a4 := AddFrameComparison a3 ref rnd' drp' now' in
  send_times_ a2 = <[timestamp ref := t2]> (send_times_ a)
  ∧ comparisons_ a3
    = comparisons_ a
      ++ [mkFrameComparison ref rnd drp t2
            (default 0 (recv_times_ a !! timestamp ref)) now]
  ∧ send_times_ a3 = delete (timestamp ref) (send_times_ a)
  ∧ comparisons_ a4
    = comparisons_ a3 ++ [mkFrameComparison ref rnd' drp' 0 0 now'].
Proof.
  intros Hd Hts a2 a3 a4.
  destruct (SendRtp_locked_known a packet t1 Hd) as (Hd1 & Hs1 & Hr1 & Hc1).
  destruct (SendRtp_locked_known (SendRtp_locked a packet t1) packet t2)
    as (_ & Hs2 & Hr2 & Hc2); [by rewrite Hd1|].
  fold a2 in Hs2, Hr2, Hc2.
  rewrite Hd1, Hs1, <- Hts, insert_insert_eq in Hs2.
  rewrite Hr1 in Hr2. rewrite Hc1 in Hc2. clearbody a2.
  split; [exact Hs2|]. split.
  { subst a3. rewrite AddFrameComparison_comparisons, Hs2, Hr2, Hc2.
    by rewrite lookup_insert_eq. }
  split.
  { subst a3. simpl. rewrite Hs2. apply delete_insert_eq. }
  subst a4. rewrite AddFrameComparison_comparisons.
  subst a3. simpl. by rewrite !lookup_delete_eq.
Qed.

(** X5: the receive time works the same way through [DeliverPacket], and a
    packet that is delivered after the comparison was built puts the entry
    back: it stays in recv_times under the frame's capture timestamp. *)
Theorem X5_recv_time_read_erased_and_late_packet
    a packet t1 t2 ref rnd drp now :
  timestamp ref
  = wrap32 (header_timestamp (Parse packet) - rtp_timestamp_delta_ a) →
  let a1 := DeliverPacket a packet t1 in
  let a2 := AddFrameComparison a1 ref rnd drp now in
  let a3 := DeliverPacket a2 packet t2 in
  comparisons_ a2
  = comparisons_ a
    ++ [mkFrameComparison ref rnd drp
          (default 0 (send_times_ a !! timestamp ref)) t1 now]
  ∧ recv_times_ a2 !! timestamp ref = None
  ∧ recv_times_ a3 !! timestamp ref = Some t2
  ∧ (∀ k, k ≠ timestamp ref → recv_times_ a3 !! k = recv_times_ a !! k).
Proof.
  intros Hts a1 a2 a3. subst a1 a2 a3.
  rewrite AddFrameComparison_comparisons. simpl. rewrite <- Hts.
  rewrite !lookup_insert_eq, lookup_delete_eq.
  repeat split; try done.
  intros k Hk.
  by rewrite lookup_insert_ne, lookup_delete_ne, lookup_insert_ne.
Qed.

End Capturing.

(** ** Rendering: what leaves the queue and the maps *)

Section MoreRendering.
Context `{Metrics} `{RtpHeaderParser}.

Lemma erase_times_lookup consumed : ∀ (m : gmap Z Z) k,
  erase_times m consumed !! k
  = if decide (k ∈ map timestamp consumed) then None else m !! k.
Proof.
  induction consumed as [|f consumed IH]; intros m k.
  - rewrite decide_False; [done|apply not_elem_of_nil].
  - change (erase_times m (f :: consumed))
      with (erase_times (delete (timestamp f) m) consumed).
    change (map timestamp (f :: consumed))
      with (timestamp f :: map timestamp consumed).
    rewrite IH.
    destruct (decide (k ∈ map timestamp consumed)) as [Hin|Hnin].
    + rewrite decide_True; [done|by right].
    + destruct (decide (k = timestamp f)) as [->|Hne].
      * rewrite lookup_delete_eq, decide_True; [done|by left].
      * rewrite lookup_delete_ne by done. rewrite decide_False; [done|].
        intros [?|?]%elem_of_cons; done.
Qed.

Lemma erase_times_snoc (m : gmap Z Z) consumed f :
  erase_times m (consumed ++ [f]) = delete (timestamp f) (erase_times m consumed).
Proof. unfold erase_times. by rewrite foldl_app. Qed.

(** What the draining loop has done when it stops. *)
Lemma drain_dropped_inv queue : ∀ a send_timestamp now a1,
  drain_dropped queue a send_timestamp now = Some a1 →
  frames_ a = queue →
  ∃ older ref rest,
    queue = older ++ ref :: rest
    ∧ frames_ a1 = ref :: rest
    ∧ Forall (λ f, timestamp f < send_timestamp) older
    ∧ ¬ timestamp ref < send_timestamp
    ∧ send_times_ a1 = erase_times (send_times_ a) older
    ∧ recv_times_ a1 = erase_times (recv_times_ a) older.
Proof.
  induction queue as [|f queue IH]; intros a s now a1 Hd Hq; simpl in Hd;
    [discriminate|].
  destruct (Z.ltb_spec (timestamp f) s) as [Hlt|Hge].
  - apply IH in Hd as (older & ref & rest & -> & Hfr & Hold & Hge & Hs & Hr);
      [|simpl; by rewrite Hq].
    exists (f :: older), ref, rest. repeat split; try done.
    by constructor.
  - injection Hd as <-. exists [], f, queue. repeat split; try done. lia.
Qed.

(** What a call of [RenderFrame] that returns has done. *)
Lemma RenderFrame_inv a video_frame now a' :
  RenderFrame a video_frame now = Some a' →
  ∃ older ref,
    frames_ a = older ++ ref :: frames_ a'
    ∧ Forall (λ f, timestamp f < send_timestamp_of a video_frame) older
    ∧ timestamp ref = send_timestamp_of a video_frame
    ∧ IsZeroSize ref = false
    ∧ send_times_ a' = erase_times (send_times_ a) (older ++ [ref])
    ∧ recv_times_ a' = erase_times (recv_times_ a) (older ++ [ref])
    ∧ rtp_timestamp_delta_ a' = rtp_timestamp_delta_ a
    ∧ last_rendered_frame_ a' = video_frame.
Proof.
  intros Hr. pose proof (RenderFrame_delta _ _ _ _ Hr) as [Hdelta _].
  unfold RenderFrame in Hr.
  destruct (drain_dropped _ _ _ _) as [a1|] eqn:Hd; simpl in Hr; [|discriminate].
  apply drain_dropped_inv in Hd
    as (older & ref & rest & Hq & Hfr & Hold & Hge & Hs & Hrc); [|done].
  rewrite Hfr in Hr.
  destruct (IsZeroSize ref) eqn:Hz; [discriminate|].
  destruct (Z.eqb_spec (timestamp ref) (send_timestamp_of a video_frame))
    as [Hts|]; simpl in Hr; [|discriminate].
  injection Hr as <-. exists older, ref. simpl. rewrite Hfr, Hs, Hrc. simpl.
  rewrite !erase_times_snoc. by repeat split.
Qed.

(** X6: a call of [RenderFrame] that returns has taken a non-empty run of
    frames off the front of the capture queue, and has erased the send and
    receive times filed under their timestamps; the entries under all other
    timestamps are as before.  The maps never grow by rendering. *)
Theorem X6_RenderFrame_erases_consumed_times a video_frame now a' :
  RenderFrame a video_frame now = Some a' →
  ∃ consumed,
    frames_ a = consumed ++ frames_ a'
    ∧ consumed ≠ []
    ∧ (∀ k, send_times_ a' !! k
            = if decide (k ∈ map timestamp consumed) then None
              else send_times_ a !! k)
    ∧ (∀ k, recv_times_ a' !! k
            = if decide (k ∈ map timestamp consumed) then None
              else recv_times_ a !! k)
    ∧ dom (send_times_ a') ⊆ dom (send_times_ a)
    ∧ dom (recv_times_ a') ⊆ dom (recv_times_ a).
Proof.
  intros Hr.
  apply RenderFrame_inv in Hr
    as (older & ref & Hq & _ & _ & _ & Hs & Hrc & _).
  exists (older ++ [ref]). rewrite <- app_assoc. simpl.
  split; [exact Hq|]. split; [by destruct older|].
  assert (∀ k, send_times_ a' !! k
               = if decide (k ∈ map timestamp (older ++ [ref])) then None
                 else send_times_ a !! k) as Hsl
    by (intros k; rewrite Hs; apply erase_times_lookup).
  assert (∀ k, recv_times_ a' !! k
               = if decide (k ∈ map timestamp (older ++ [ref])) then None
                 else recv_times_ a !! k) as Hrl
    by (intros k; rewrite Hrc; apply erase_times_lookup).
  split; [exact Hsl|]. split; [exact Hrl|].
  split; intros k; rewrite !elem_of_dom.
  - rewrite Hsl. case_decide; [by intros [? ?]|done].
  - rewrite Hrl. case_decide; [by intros [? ?]|done].
Qed.

(** X7: frames that come back in capture order are never dropped.  If the
    rendered frames carry the timestamps of the frames at the front of the
    capture queue, shifted by the delta, rendering them one after the other
    succeeds every time, pairs each rendered frame with its captured frame
    as a non-dropped comparison, in order, and leaves the rest of the queue. *)
Theorem X7_in_order_rendering_drops_nothing q : ∀ a rest vs,
  frames_ a = q ++ rest →
  Forall (λ f, IsZeroSize f = false ∧ 0 ≤ timestamp f < 2 ^ 32) q →
  Forall2 (λ f v, timestamp (fst v)
                  = wrap32 (timestamp f + rtp_timestamp_delta_ a)) q vs →
  ∃ a' cs,
    renders a vs = Some a'
    ∧ frames_ a' = rest
    ∧ comparisons_ a' = comparisons_ a ++ cs
    ∧ map reference cs = q
    ∧ map render cs = map fst vs
    ∧ map render_time_ms cs = map snd vs
    ∧ Forall (λ c, dropped c = false) cs
    ∧ rtp_timestamp_delta_ a' = rtp_timestamp_delta_ a.
Proof.
  induction q as [|f q IH]; intros a rest vs Hq Hok Hvs.
  - inversion Hvs; subst. exists a, []. simpl. rewrite app_nil_r.
    by repeat split.
  - inversion Hvs as [|? [v now] ? vs' Hv Hvs']; subst. simpl in Hv.
    inversion Hok as [|? ? [Hz Hrange] Hok']; subst.
    assert (send_timestamp_of a v = timestamp f) as Hst.
    { unfold send_timestamp_of. rewrite Hv. by apply wrap32_add_sub. }
    destruct (drain_dropped_older [] a f (q ++ rest) (send_timestamp_of a v) now)
      as (a1 & drops & Hd & Hfr & Hc & Hm & _ & Hdelta);
      [exact Hq | constructor | lia |].
    destruct drops; [|discriminate]. rewrite app_nil_r in Hc.
    simpl. unfold RenderFrame. rewrite Hd. simpl. rewrite Hfr, Hz, Hst.
    rewrite Z.eqb_refl. simpl.
    match goal with |- context [renders ?x vs'] => set (a2 := x) end.
    destruct (IH a2 rest vs') as (a' & cs & Hr & Hfr' & Hc' & Hm' & Hrn' & Ht' & Hdr' & Hd');
      [subst a2; simpl; by rewrite Hfr | done
      | subst a2; simpl; by rewrite Hdelta |].
    exists a', (mkFrameComparison f v false
                  (default 0 (send_times_ a1 !! timestamp f))
                  (default 0 (recv_times_ a1 !! timestamp f)) now :: cs).
    split; [exact Hr|]. split; [exact Hfr'|]. split.
    { rewrite Hc'. subst a2. simpl. rewrite Hc, <- app_assoc. reflexivity. }
    simpl. rewrite Hm', Hrn', Ht'.
    repeat split; try done; [by constructor|].
    rewrite Hd'. subst a2. simpl. exact Hdelta.
Qed.

(** X8: the analyzer cannot take a frame that is rendered late or twice.
    With the capture queue in strictly increasing timestamp order, once a
    frame has been rendered, rendering a frame whose timestamp is not newer
    than that one runs into the assertion (or off the end of the queue). *)
Theorem X8_stale_render_is_fatal a video_frame now a' video_frame' now' :
  StronglySorted (λ f g, timestamp f < timestamp g) (frames_ a) →
  RenderFrame a video_frame now = Some a' →
  send_timestamp_of a video_frame' ≤ send_timestamp_of a video_frame →
  RenderFrame a' video_frame' now' = None.
Proof.
  intros Hsorted Hr Hle.
  apply RenderFrame_inv in Hr
    as (older & ref & Hq & _ & Hts & _ & _ & _ & Hdelta & _).
  rewrite Hq in Hsorted.
  apply StronglySorted_app_1_r in Hsorted.
  apply StronglySorted_inv in Hsorted as [_ Hnewer].
  assert (send_timestamp_of a' video_frame' = send_timestamp_of a video_frame')
    as Hs' by (unfold send_timestamp_of; by rewrite Hdelta).
  unfold RenderFrame. rewrite Hs'.
  destruct (frames_ a') as [|g rest] eqn:Hfr; simpl; [done|].
  inversion Hnewer as [|? ? Hg _]; subst.
  destruct (Z.ltb_spec (timestamp g) (send_timestamp_of a video_frame')); [lia|].
  simpl. rewrite Hfr.
  destruct (IsZeroSize g); [done|].
  destruct (Z.eqb_spec (timestamp g) (send_timestamp_of a video_frame'));
    [lia|done].
Qed.

Lemma frames_split_older (send_ts : Z) (q : list VideoFrame) :
  Forall (λ f, timestamp f < send_ts) q
  ∨ ∃ older ref rest,
      q = older ++ ref :: rest
      ∧ Forall (λ f, timestamp f < send_ts) older
      ∧ ¬ timestamp ref < send_ts.
Proof.
  induction q as [|f q IH]; [left; constructor|].
  destruct (decide (timestamp f < send_ts)) as [Hf|Hf].
  - destruct IH as [IH|(older & ref & rest & -> & Ho & Hr)].
    + left. by constructor.
    + right. exists (f :: older), ref, rest.
      split; [done|]. split; [by constructor|done].
  - right. exists [], f, q. split; [done|]. split; [constructor|done].
Qed.

(** X22: when [RenderFrame] returns at all.  The call gets past its
    draining loop and its assertions exactly when the capture queue holds,
    behind frames that are all older than the rendered one, a frame that
    carries the rendered frame's send timestamp and is not the unset frame.
    With an empty queue, with only older frames, or with a newer frame in
    the way, it does not return. *)
Theorem X22_RenderFrame_returns_iff a video_frame now :
  is_Some (RenderFrame a video_frame now)
  ↔ ∃ older ref rest,
      frames_ a = older ++ ref :: rest
      ∧ Forall (λ f, timestamp f < send_timestamp_of a video_frame) older
      ∧ timestamp ref = send_timestamp_of a video_frame
      ∧ IsZeroSize ref = false.
Proof.
  split.
  - intros [a' Hr].
    destruct (frames_split_older (send_timestamp_of a video_frame) (frames_ a))
      as [Hall|(older & ref & rest & Hq & Ho & Hn)].
    + by rewrite (RenderFrame_exhausted _ _ _ Hall) in Hr.
    + exists older, ref, rest. split; [done|]. split; [done|].
      destruct (drain_dropped_older older a ref rest _ now Hq Ho Hn)
        as (a1 & drops & Hd & Hfr & _).
      unfold RenderFrame in Hr. rewrite Hd in Hr. simpl in Hr.
      rewrite Hfr in Hr.
      destruct (IsZeroSize ref); [done|].
      by destruct (Z.eqb_spec (timestamp ref)
                     (send_timestamp_of a video_frame)).
  - intros (older & ref & rest & Hq & Ho & Hts & Hz).
    assert (¬ timestamp ref < send_timestamp_of a video_frame) as Hn by lia.
    destruct (drain_dropped_older older a ref rest _ now Hq Ho Hn)
      as (a1 & drops & Hd & Hfr & _).
    unfold RenderFrame. rewrite Hd. simpl. rewrite Hfr, Hz.
    destruct (Z.eqb_spec (timestamp ref) (send_timestamp_of a video_frame));
      [|done].
    by eexists.
Qed.

End MoreRendering.

(** ** The thread pool: what happens to the comparisons *)

Section MorePool.
Context `{Metrics} `{RtpHeaderParser}.

Lemma holding_cons pc pool : holding (pc :: pool) = held pc ++ holding pool.
Proof. by destruct pc. Qed.

Lemma holding_insert (pool : list WorkerPc) i old new :
  pool !! i = Some old →
  holding (<[i := new]> pool) ++ held old ≡ₚ holding pool ++ held new.
Proof.
  revert i. induction pool as [|pc pool IH]; intros [|i] Hi; simpl in Hi;
    try discriminate.
  - injection Hi as ->. change (<[0%nat := new]> (old :: pool)) with (new :: pool).
    rewrite !holding_cons.
    rewrite <- app_assoc, (Permutation_app_comm (holding pool) (held old)).
    rewrite (Permutation_app_comm (held old ++ holding pool) (held new)).
    by rewrite app_assoc.
  - change (<[S i := new]> (pc :: pool)) with (pc :: <[i := new]> pool).
    rewrite !holding_cons, <- !app_assoc. by rewrite (IH i Hi).
Qed.

(** One step of a comparison thread moves a comparison from the queue to
    the thread, or from the thread to the statistics, or moves none. *)
Lemma CompareFrames_step_conserves i a a' :
  CompareFrames_step i a = Some a' →
  performed a' ++ holding (comparison_thread_pool_ a') ++ comparisons_ a'
  ≡ₚ performed a ++ holding (comparison_thread_pool_ a) ++ comparisons_ a.
Proof.
  unfold CompareFrames_step, PopComparison, FrameProcessed, AllFramesRecorded.
  destruct (comparison_thread_pool_ a !! i) as [pc|] eqn:Hi;
    [|by intros [= <-]].
  assert (∀ new, held pc = [] → held new = [] →
            holding (<[i := new]> (comparison_thread_pool_ a))
            ≡ₚ holding (comparison_thread_pool_ a)) as Hsame.
  { intros new Hold Hnew. pose proof (holding_insert _ i pc new Hi) as Hh.
    by rewrite Hold, Hnew, !app_nil_r in Hh. }
  destruct pc; simpl.
  - destruct (_ <=? _); simpl; [|done].
    destruct (_ =? _); intros [= <-]; simpl; by rewrite Hsame.
  - destruct (comparisons_ a) as [|c q] eqn:Hq; simpl.
    { intros [= <-]. simpl. by rewrite Hsame, Hq. }
    destruct (_ <=? _); simpl; [|done].
    destruct (_ =? _); intros [= <-]; simpl; [by rewrite Hsame, Hq|].
    pose proof (holding_insert _ i PcPop (PcCompare c) Hi) as Hh.
    simpl in Hh. rewrite app_nil_r in Hh. rewrite Hh.
    by rewrite <- app_assoc.
  - intros [= <-]. simpl. by rewrite Hsame.
  - destruct (_ <=? _); simpl; [|done].
    destruct (_ =? _); intros [= <-]; simpl; by rewrite Hsame.
  - intros [= <-].
    pose proof (holding_insert _ i (PcCompare c) PcProcessed Hi) as Hh.
    simpl in Hh. rewrite app_nil_r in Hh.
    unfold PerformFrameComparison. destruct (dropped c); simpl;
      rewrite <- Hh, <- !app_assoc;
      apply Permutation_app_head;
      rewrite !app_assoc; apply Permutation_app_tail, Permutation_app_comm.
  - destruct (_ <=? _); simpl; [|done].
    destruct (_ =? _); intros [= <-]; simpl; by rewrite Hsame.
  - intros [= <-]. simpl. by rewrite Hsame.
  - by intros [= <-].
Qed.

(** X9: the comparison threads neither lose nor duplicate a comparison.
    Over any run in which nothing new is enqueued, the comparisons fed to
    the statistics, the ones held by threads and the ones still queued are
    together the same multiset at the end as at the start: each comparison
    taken from the queue is compared once. *)
Theorem X9_threads_conserve_comparisons acts : ∀ a a',
  Forall (λ act, produces act = false) acts →
  run a acts = Some a' →
  performed a' ++ holding (comparison_thread_pool_ a') ++ comparisons_ a'
  ≡ₚ performed a ++ holding (comparison_thread_pool_ a) ++ comparisons_ a.
Proof.
  induction acts as [|act acts IH]; intros a a' Hacts Hr; simpl in Hr.
  - by injection Hr as <-.
  - destruct (step a act) as [a1|] eqn:Hs; simpl in Hr; [|discriminate].
    inversion Hacts as [|? ? Hp Hacts']; subst.
    rewrite (IH a1 a' Hacts' Hr).
    destruct act; simpl in Hs, Hp; try discriminate.
    + by injection Hs as <-.
    + by injection Hs as <-.
    + by injection Hs as <-.
    + injection Hs as <-. unfold EncodedFrameCallback. by destruct (_ <? _).
    + injection Hs as <-. unfold PollStats. by destruct (done_ a).
    + eapply CompareFrames_step_conserves. exact Hs.
Qed.

Lemma set_pc_set_pc i p q a : set_pc i p (set_pc i q a) = set_pc i p a.
Proof.
  destruct a. unfold set_pc, with_workers. cbn.
  by rewrite list_insert_insert_eq.
Qed.

Lemma set_pc_set_event i p e a :
  set_pc i p (set_event e a) = set_event e (set_pc i p a).
Proof. by destruct a. Qed.

Lemma set_pc_id i p a :
  comparison_thread_pool_ a !! i = Some p → set_pc i p a = a.
Proof.
  destruct a. unfold set_pc, with_workers. cbn. intros Hi.
  by rewrite list_insert_id.
Qed.

Lemma run_step_worker a i a' acts r :
  CompareFrames_step i a = Some a' → run a' acts = r →
  run a (AWorker i :: acts) = r.
Proof. intros Hs Hr. simpl. by rewrite Hs. Qed.

(** An uninterleaved call of [CompareFrames] with work to do. *)
Lemma CompareFrames_call_front a i c q :
  Inv a →
  comparison_thread_pool_ a !! i = Some PcEntry →
  comparisons_ a = c :: q →
  frames_recorded_ a < frames_to_process_ a →
  ∃ a',
    run a (CompareFrames_call i) = Some a'
    ∧ comparisons_ a' = q
    ∧ frames_recorded_ a' = frames_recorded_ a + 1
    ∧ frames_processed_ a' = frames_processed_ a + 1
    ∧ comparison_thread_pool_ a' !! i
      = Some (if frames_processed_ a + 1 =? frames_to_process_ a
              then PcLast else PcEntry)
    ∧ performed a' = performed a ++ [c]
    ∧ psnr_ a' = psnr_ (PerformFrameComparison a c)
    ∧ ssim_ a' = ssim_ (PerformFrameComparison a c)
    ∧ sender_time_ a' = sender_time_ (PerformFrameComparison a c)
    ∧ receiver_time_ a' = receiver_time_ (PerformFrameComparison a c)
    ∧ end_to_end_ a' = end_to_end_ (PerformFrameComparison a c)
    ∧ rendered_delta_ a' = rendered_delta_ (PerformFrameComparison a c)
    ∧ dropped_frames_ a' = dropped_frames_ (PerformFrameComparison a c)
    ∧ crit_view a' = crit_view a
    ∧ done_ a' = done_ a.
Proof.
  intros HI Hi Hq Hlt.
  pose proof HI as [].
  pose proof (count_pc_nonneg in_flight (comparison_thread_pool_ a)).
  pose proof (lookup_lt_Some _ _ _ Hi) as Hlen.
  assert ((frames_recorded_ a <=? frames_to_process_ a) = true) as Hle by lia.
  assert ((frames_recorded_ a =? frames_to_process_ a) = false) as Hne by lia.
  assert ((frames_processed_ a + 1 <=? frames_to_process_ a) = true) as Hp by lia.
  (* entry check *)
  set (a1 := set_pc i PcPop a).
  assert (CompareFrames_step i a = Some a1) as Hs1.
  { unfold CompareFrames_step, AllFramesRecorded.
    by rewrite Hi, Hle, Hne. }
  (* pop *)
  set (a2 := set_pc i (PcCompare c) (FrameRecorded (set_comparisons a1 q))).
  assert (CompareFrames_step i a1 = Some a2) as Hs2.
  { unfold CompareFrames_step, PopComparison, AllFramesRecorded.
    subst a1. simpl. rewrite list_lookup_insert_eq by done.
    by rewrite Hq, Hle, Hne. }
  (* compare *)
  set (a3 := set_pc i PcProcessed (PerformFrameComparison a2 c)).
  assert (CompareFrames_step i a2 = Some a3) as Hs3.
  { unfold CompareFrames_step. subst a2 a1. simpl.
    by rewrite list_lookup_insert_eq by (by rewrite length_insert). }
  assert (frames_processed_ a3 = frames_processed_ a
          ∧ frames_to_process_ a3 = frames_to_process_ a
          ∧ frames_recorded_ a3 = frames_recorded_ a + 1
          ∧ comparisons_ a3 = q
          ∧ comparison_thread_pool_ a3 !! i = Some PcProcessed
          ∧ performed a3 = performed a ++ [c]
          ∧ (psnr_ a3 = psnr_ (PerformFrameComparison a c)
             ∧ ssim_ a3 = ssim_ (PerformFrameComparison a c)
             ∧ sender_time_ a3 = sender_time_ (PerformFrameComparison a c)
             ∧ receiver_time_ a3 = receiver_time_ (PerformFrameComparison a c)
             ∧ end_to_end_ a3 = end_to_end_ (PerformFrameComparison a c)
             ∧ rendered_delta_ a3 = rendered_delta_ (PerformFrameComparison a c)
             ∧ dropped_frames_ a3
               = dropped_frames_ (PerformFrameComparison a c)
             ∧ crit_view a3 = crit_view a
             ∧ done_ a3 = done_ a))
    as (Hp1 & Hp2 & Hp3 & Hp4 & Hp5 & Hp6 & Hstats).
  { subst a3 a2 a1. unfold PerformFrameComparison.
    destruct (dropped c); simpl;
      (rewrite list_lookup_insert_eq by (by rewrite !length_insert));
      done. }
  clearbody a3.
  (* count *)
  destruct (CompareFrames_step i a3) as [a4|] eqn:Hs4.
  2: { unfold CompareFrames_step, FrameProcessed in Hs4.
       rewrite Hp5, Hp1, Hp2, Hp in Hs4. discriminate. }
  exists a4. split.
  { unfold CompareFrames_call. simpl. rewrite Hs1. simpl.
    rewrite Hs2. simpl. rewrite Hs3. simpl. by rewrite Hs4. }
  unfold CompareFrames_step, FrameProcessed in Hs4.
  rewrite Hp5, Hp1, Hp2, Hp in Hs4. simpl in Hs4. injection Hs4 as <-.
  pose proof (lookup_lt_Some _ _ _ Hp5) as Hlen3.
  simpl. rewrite list_lookup_insert_eq by done.
  repeat split; try done; apply Hstats.
Qed.

(** X10: a call of [CompareFrames] that finds the queue non-empty and the
    budget not yet taken, and that runs without interleaving, takes the
    comparison at the front of the queue, adds its PSNR and SSIM samples,
    and counts it as recorded and as processed; the thread then goes round
    again, or on to signal the end if this was the last frame. *)
Theorem X10_CompareFrames_call_takes_front (n cores : Z) acts a i c q :
  0 ≤ n →
  run (new_VideoAnalyzer n cores) acts = Some a →
  comparison_thread_pool_ a !! i = Some PcEntry →
  comparisons_ a = c :: q →
  frames_recorded_ a < frames_to_process_ a →
  ∃ a',
    run a (CompareFrames_call i) = Some a'
    ∧ comparisons_ a' = q
    ∧ performed a' = performed a ++ [c]
    ∧ samples (psnr_ a')
      = samples (psnr_ a) ++ [I420PSNR (reference c) (render c)]
    ∧ samples (ssim_ a')
      = samples (ssim_ a) ++ [I420SSIM (reference c) (render c)]
    ∧ frames_recorded_ a' = frames_recorded_ a + 1
    ∧ frames_processed_ a' = frames_processed_ a + 1
    ∧ comparison_thread_pool_ a' !! i
      = Some (if frames_processed_ a + 1 =? frames_to_process_ a
              then PcLast else PcEntry).
Proof.
  intros Hn Hr Hi Hq Hlt.
  assert (Inv a) as HI by (eapply run_Inv; [by apply Inv_new|exact Hr]).
  destruct (CompareFrames_call_front a i c q HI Hi Hq Hlt)
    as (a' & Hrun & Hc & Hrec & Hproc & Hpc & Hperf & Hpsnr & Hssim & _).
  exists a'. rewrite Hpsnr, Hssim.
  repeat split; try done; unfold PerformFrameComparison;
    by destruct (dropped c).
Qed.

(** X23: a call of [CompareFrames] that finds nothing to do changes
    nothing.  With the queue empty and the budget not yet taken, the thread
    fails to pop, waits on the event, checks again and comes back to the
    entry of [CompareFrames]; counters, queue, statistics and the done event
    are as before, and the wake-up event has been consumed. *)
Theorem X23_idle_call_changes_nothing a i :
  comparison_thread_pool_ a !! i = Some PcEntry →
  comparisons_ a = [] →
  frames_recorded_ a < frames_to_process_ a →
  run a (CompareFrames_call i) = Some (set_event false a).
Proof.
  intros Hi Hq Hlt.
  pose proof (lookup_lt_Some _ _ _ Hi) as Hlen.
  assert ((frames_recorded_ a <=? frames_to_process_ a) = true) as Hle by lia.
  assert ((frames_recorded_ a =? frames_to_process_ a) = false) as Hne by lia.
  assert (CompareFrames_step i a = Some (set_pc i PcPop a)) as Hs1.
  { unfold CompareFrames_step, AllFramesRecorded. by rewrite Hi, Hle, Hne. }
  assert (CompareFrames_step i (set_pc i PcPop a)
          = Some (set_pc i PcWait (set_pc i PcPop a))) as Hs2.
  { unfold CompareFrames_step, PopComparison. simpl.
    rewrite list_lookup_insert_eq by done. by rewrite Hq. }
  assert (CompareFrames_step i (set_pc i PcWait (set_pc i PcPop a))
          = Some (set_pc i PcRecheck
                    (set_event false (set_pc i PcWait (set_pc i PcPop a)))))
    as Hs3.
  { unfold CompareFrames_step. simpl.
    by rewrite list_lookup_insert_eq by (by rewrite length_insert). }
  assert (CompareFrames_step i
            (set_pc i PcRecheck
               (set_event false (set_pc i PcWait (set_pc i PcPop a))))
          = Some (set_event false a)) as Hs4.
  { unfold CompareFrames_step, AllFramesRecorded. simpl.
    rewrite list_lookup_insert_eq by (by rewrite !length_insert).
    rewrite Hle, Hne. simpl. f_equal.
    rewrite set_pc_set_pc, set_pc_set_event, !set_pc_set_pc.
    by rewrite set_pc_id. }
  unfold CompareFrames_call.
  eapply run_step_worker; [exact Hs1|].
  eapply run_step_worker; [exact Hs2|].
  eapply run_step_worker; [exact Hs3|].
  eapply run_step_worker; [exact Hs4|done].
Qed.

End MorePool.

(** ** The thread pool over whole runs *)

Section PoolRuns.
Context `{Metrics} `{RtpHeaderParser}.

Lemma CompareFrames_step_poll i a a' :
  CompareFrames_step i a = Some a' → poll_view a' = poll_view a.
Proof.
  unfold CompareFrames_step, PopComparison, FrameProcessed, AllFramesRecorded.
  destruct (comparison_thread_pool_ a !! i) as [pc|]; [|by intros [= <-]].
  destruct pc; simpl.
  - destruct (_ <=? _); simpl; [|done]. by intros [= <-].
  - destruct (comparisons_ a); simpl; [by intros [= <-]|].
    destruct (_ <=? _); simpl; [|done].
    destruct (_ =? _); by intros [= <-].
  - by intros [= <-].
  - destruct (_ <=? _); simpl; [|done].
    destruct (_ =? _); by intros [= <-].
  - intros [= <-]. unfold PerformFrameComparison. by destruct (dropped c).
  - destruct (_ <=? _); simpl; [|done]. by intros [= <-].
  - by intros [= <-].
  - by intros [= <-].
Qed.

Lemma drain_dropped_poll queue : ∀ a send_timestamp now a',
  drain_dropped queue a send_timestamp now = Some a' →
  poll_view a' = poll_view a.
Proof.
  induction queue as [|f queue IH]; intros a s now a' Hd; simpl in Hd;
    [discriminate|].
  destruct (timestamp f <? s); [by apply IH in Hd|by injection Hd as <-].
Qed.

Lemma RenderFrame_poll a video_frame now a' :
  RenderFrame a video_frame now = Some a' → poll_view a' = poll_view a.
Proof.
  unfold RenderFrame. intros Hr.
  destruct (drain_dropped _ _ _ _) as [a1|] eqn:Hd; simpl in Hr; [|discriminate].
  apply drain_dropped_poll in Hd.
  destruct (frames_ a1) as [|ref rest]; [discriminate|].
  destruct (IsZeroSize ref); [discriminate|].
  destruct (negb _); [discriminate|].
  injection Hr as <-. exact Hd.
Qed.

(** Once all frames are recorded no step adds an encoded-frame size. *)
Lemma step_encoded_frozen a act a' :
  Inv a → frames_recorded_ a = frames_to_process_ a →
  step a act = Some a' →
  encoded_frame_size_ a' = encoded_frame_size_ a
  ∧ frames_recorded_ a' = frames_to_process_ a'.
Proof.
  intros HI Hall Hs.
  destruct (step_counters a act a' HI Hs) as (Hto & Hrec & _).
  split; [|destruct Hrec as [?|(? & ? & _)]; lia].
  destruct act; simpl in Hs; try (by injection Hs as <-).
  - apply RenderFrame_poll in Hs. unfold poll_view in Hs.
    by injection Hs as ->.
  - injection Hs as <-. unfold EncodedFrameCallback.
    by rewrite Hall, Z.ltb_irrefl.
  - injection Hs as <-. unfold PollStats. by destruct (done_ a).
  - apply CompareFrames_step_poll in Hs. unfold poll_view in Hs.
    by injection Hs as ->.
Qed.

(** X11: the encoded-frame sizes are sampled only while frames are still
    to be taken from the queue: from the moment frames_recorded has reached
    frames_to_process, nothing any thread does adds to encoded_frame_size. *)
Theorem X11_encoded_frame_size_frozen (n cores : Z) acts0 a acts a' :
  0 ≤ n →
  run (new_VideoAnalyzer n cores) acts0 = Some a →
  frames_recorded_ a = frames_to_process_ a →
  run a acts = Some a' →
  encoded_frame_size_ a' = encoded_frame_size_ a.
Proof.
  intros Hn Hr0 Hall Hr.
  assert (Inv a) as HI by (eapply run_Inv; [by apply Inv_new|exact Hr0]).
  clear Hr0. revert a HI Hall Hr.
  induction acts as [|act acts IH]; intros a HI Hall Hr; simpl in Hr.
  - by injection Hr as <-.
  - destruct (step a act) as [a1|] eqn:Hs; simpl in Hr; [|discriminate].
    destruct (step_encoded_frozen a act a1 HI Hall Hs) as [He Hall1].
    rewrite <- He. apply IH; [by eapply step_Inv|done|done].
Qed.



(** X13: the statistics stay aligned.  In every state the analyzer
    reaches, PSNR and SSIM hold one sample per comparison fed to the
    statistics, dropped or not; sender_time, receiver_time and end_to_end
    hold one sample per non-dropped one, so each has as many samples as PSNR
    less dropped_frames; and rendered_delta never holds more than they. *)
Theorem X13_statistics_aligned (n cores : Z) acts a :
  0 ≤ n →
  run (new_VideoAnalyzer n cores) acts = Some a →
  length (samples (psnr_ a)) = length (performed a)
  ∧ length (samples (ssim_ a)) = length (samples (psnr_ a))
  ∧ Z.of_nat (length (samples (psnr_ a)))
    = dropped_frames_ a + Z.of_nat (length (samples (sender_time_ a)))
  ∧ length (samples (receiver_time_ a)) = length (samples (sender_time_ a))
  ∧ length (samples (end_to_end_ a)) = length (samples (sender_time_ a))
  ∧ (length (samples (rendered_delta_ a))
     ≤ length (samples (sender_time_ a)))%nat
  ∧ 0 ≤ dropped_frames_ a ≤ frames_recorded_ a.
Proof.
  intros Hn Hr.
  assert (Inv a) as HI by (eapply run_Inv; [by apply Inv_new|exact Hr]).
  pose proof HI as [].
  pose proof (tally_total (performed a)).
  pose proof (count_pc_nonneg in_flight (comparison_thread_pool_ a)).
  pose proof (count_pc_nonneg is_compared (comparison_thread_pool_ a)).
  assert (count_pc is_compared (comparison_thread_pool_ a)
          ≤ count_pc in_flight (comparison_thread_pool_ a))
    by (apply count_pc_le; by intros []).
  assert (0 ≤ tally true (performed a) ∧ 0 ≤ tally false (performed a))
    as [? ?] by (unfold tally; lia).
  repeat split; lia.
Qed.

(** The iteration count of [Wait] cannot pass the room that is left for
    frames_processed to grow. *)
Lemma Wait_loop_bound periods : ∀ a last it,
  Inv a →
  last = -1 ∨ 0 ≤ last ≤ frames_to_process_ a →
  (Z.of_nat (snd (Wait_loop a periods last it))
   ≤ Z.of_nat it + (frames_to_process_ a - last) + 1)
  ∧ (fst (Wait_loop a periods last it) = WaitPending →
     snd (Wait_loop a periods last it) = (it + length periods)%nat).
Proof.
  induction periods as [|acts periods IH]; intros a last it HI Hlast; simpl.
  - pose proof (inv_nonneg a HI). pose proof (inv_budget a HI).
    pose proof (inv_in_flight a HI).
    pose proof (count_pc_nonneg in_flight (comparison_thread_pool_ a)).
    split; [lia|]. intros _. lia.
  - pose proof HI as [].
    pose proof (count_pc_nonneg in_flight (comparison_thread_pool_ a)).
    destruct (run a acts) as [a1|] eqn:Hr; simpl; [|split; [lia|done]].
    assert (Inv a1) as HI1 by (by eapply run_Inv).
    assert (frames_to_process_ a1 = frames_to_process_ a) as Hto
      by (by apply (run_frames_to_process acts)).
    pose proof HI1 as [].
    pose proof (count_pc_nonneg in_flight (comparison_thread_pool_ a1)).
    destruct (done_ a1); simpl; [split; [lia|done]|].
    destruct (Z.eqb_spec last (-1)) as [->|Hne].
    + destruct (IH a1 (frames_processed_ a1) (S it) HI1) as [Hb Hp]; [lia|].
      split; [lia|]. intros Hpend. rewrite (Hp Hpend). lia.
    + destruct (Z.ltb_spec last (frames_processed_ a1)); simpl.
      * destruct (IH a1 (frames_processed_ a1) (S it) HI1) as [Hb Hp]; [lia|].
        split; [lia|]. intros Hpend. rewrite (Hp Hpend). lia.
      * split; [lia|done].
Qed.

(** X14: [Wait] cannot hang for longer than the budget allows.  Whatever
    the other threads do, it sees at most frames_to_process + 2 time-outs;
    given a schedule with more periods than that, it has returned before
    the schedule ends: the done event was set, the stall was declared, or
    another thread died on an assertion. *)
Theorem X14_Wait_bounded_by_budget (n cores : Z) periods :
  0 ≤ n →
  Z.of_nat (snd (Wait (new_VideoAnalyzer n cores) periods)) ≤ n + 2
  ∧ (n + 2 < Z.of_nat (length periods) →
     fst (Wait (new_VideoAnalyzer n cores) periods) ≠ WaitPending).
Proof.
  intros Hn. unfold Wait.
  destruct (Wait_loop_bound periods (new_VideoAnalyzer n cores) (-1) 0%nat)
    as [Hb Hp]; [by apply Inv_new|by left|].
  simpl in Hb. split; [lia|].
  intros Hlong Hpend. specialize (Hp Hpend). simpl in Hp. lia.
Qed.

End PoolRuns.

(** ** One frame from capture to statistics *)

Section EndToEnd.
Context `{Metrics} `{RtpHeaderParser}.

Lemma run_app a acts1 acts2 :
  run a (acts1 ++ acts2) = (a1 ← run a acts1; run a1 acts2).
Proof.
  revert a. induction acts1 as [|act acts1 IH]; intros a; simpl; [done|].
  destruct (step a act); simpl; [apply IH | done].
Qed.

Lemma num_comparison_threads_pos cores :
  1 ≤ cores < 2 ^ 32 → 1 ≤ num_comparison_threads cores.
Proof.
  intros Hc.
  unfold num_comparison_threads, kMinCoresLeft, kMaxComparisonThreads, wrap32.
  destruct (Z.leb_spec cores 4); [lia|]. rewrite Z.mod_small by lia. lia.
Qed.

Lemma run_step a act a' acts r :
  step a act = Some a' → run a' acts = r → run a (act :: acts) = r.
Proof. intros Hs Hr. simpl. by rewrite Hs. Qed.

(** The first packet, sent with the delta still unknown. *)
Lemma SendRtp_locked_first a packet now c off :
  rtp_timestamp_delta_ a = 0 →
  first_send_frame_ a = c →
  0 ≤ timestamp c < 2 ^ 32 →
  0 < off < 2 ^ 32 →
  header_timestamp (Parse packet) = wrap32 (timestamp c + off) →
  rtp_timestamp_delta_ (SendRtp_locked a packet now) = off
  ∧ send_times_ (SendRtp_locked a packet now)
    = <[timestamp c := now]> (send_times_ a)
  ∧ first_send_frame_ (SendRtp_locked a packet now) = zero_frame
  ∧ frames_ (SendRtp_locked a packet now) = frames_ a
  ∧ recv_times_ (SendRtp_locked a packet now) = recv_times_ a
  ∧ pool_view (SendRtp_locked a packet now) = pool_view a
  ∧ comparisons_ (SendRtp_locked a packet now) = comparisons_ a
  ∧ last_render_time_ (SendRtp_locked a packet now) = last_render_time_ a.
Proof.
  intros Hd Hf Hr Hoff Hts. unfold SendRtp_locked.
  rewrite Hd, Hf, Hts. simpl.
  rewrite wrap32_add_sub_l by lia. rewrite wrap32_add_sub by done.
  by repeat split.
Qed.

(** The rendered frame matches the frame at the front of the queue. *)
Lemma RenderFrame_front a v now c rest :
  frames_ a = c :: rest →
  send_timestamp_of a v = timestamp c →
  IsZeroSize c = false →
  RenderFrame a v now
  = Some (set_last_rendered_frame
            (AddFrameComparison (pop_front a) c v false now) v).
Proof.
  intros Hq Hst Hz. unfold RenderFrame. rewrite Hq. simpl.
  rewrite Hst, Z.ltb_irrefl. simpl. by rewrite Hq, Hz, Z.eqb_refl.
Qed.

(** X15: one frame from capture to statistics.  On a fresh analyzer, a
    frame that is captured, sent in a packet whose RTP timestamp is its
    capture timestamp plus the sender's offset, received, rendered with that
    RTP timestamp and compared by thread 0 yields exactly one sample each:
    sender_time = send time - capture time, receiver_time = render time -
    receive time, end_to_end = render time - capture time, and PSNR/SSIM of
    the captured copy against the rendered frame.  Nothing is dropped, no
    rendered_delta sample is taken for a first frame, and the queue and both
    time maps are empty again. *)
Theorem X15_one_frame_round_trip
    (n cores : Z) f packet off t_send t_recv v t_render :
  1 ≤ n →
  1 ≤ cores < 2 ^ 32 →
  IsZeroSize f = false →
  0 < off < 2 ^ 32 →
  header_timestamp (Parse packet) = wrap32 (timestamp (capture_copy f) + off) →
  timestamp v = header_timestamp (Parse packet) →
  ∃ a,
    run (new_VideoAnalyzer n cores)
      (frame_round_trip f packet t_send t_recv v t_render) = Some a
    ∧ samples (sender_time_ a) = [double_of_Z (t_send - ntp_time_ms f)]
    ∧ samples (receiver_time_ a) = [double_of_Z (t_render - t_recv)]
    ∧ samples (end_to_end_ a) = [double_of_Z (t_render - ntp_time_ms f)]
    ∧ samples (psnr_ a) = [I420PSNR (capture_copy f) v]
    ∧ samples (ssim_ a) = [I420SSIM (capture_copy f) v]
    ∧ samples (rendered_delta_ a) = []
    ∧ dropped_frames_ a = 0
    ∧ frames_processed_ a = 1
    ∧ frames_ a = []
    ∧ send_times_ a = ∅
    ∧ recv_times_ a = ∅
    ∧ rtp_timestamp_delta_ a = off
    ∧ last_rendered_frame_ a = v.
Proof.
  intros Hn Hcores Hz Hoff Hts Hv.
  set (c := capture_copy f) in *.
  assert (0 ≤ timestamp c < 2 ^ 32) as Hr
    by apply (wrap32_range (ntp_time_ms f * 90)).
  assert (ntp_time_ms c = ntp_time_ms f ∧ IsZeroSize c = false)
    as [Hntp Hzc] by done.
  set (a0 := new_VideoAnalyzer n cores).
  set (a1 := IncomingCapturedFrame a0 f).
  assert (rtp_timestamp_delta_ a1 = 0 ∧ first_send_frame_ a1 = c
          ∧ frames_ a1 = [c] ∧ send_times_ a1 = ∅ ∧ recv_times_ a1 = ∅
          ∧ pool_view a1 = pool_view a0 ∧ comparisons_ a1 = []
          ∧ last_render_time_ a1 = 0)
    as (Hd1 & Hf1 & Hq1 & Hs1 & Hr1 & Hv1 & Hc1 & Hl1).
  { subst a1 a0. by repeat split. }
  assert (step a0 (ACapture f) = Some a1) as Hst1 by done.
  set (a2 := SendRtp_locked a1 packet t_send).
  assert (step a1 (ASendRtp packet t_send) = Some a2) as Hst2 by done.
  destruct (SendRtp_locked_first a1 packet t_send c off Hd1 Hf1 Hr Hoff Hts)
    as (Hd2 & Hs2 & _ & Hq2 & Hr2 & Hv2 & Hc2 & Hl2).
  fold a2 in Hd2, Hs2, Hq2, Hr2, Hv2, Hc2, Hl2.
  rewrite Hs1 in Hs2. rewrite Hq1 in Hq2. rewrite Hr1 in Hr2.
  rewrite Hv1 in Hv2. rewrite Hc1 in Hc2. rewrite Hl1 in Hl2.
  clearbody a2. clear Hd1 Hf1 Hq1 Hs1 Hr1 Hv1 Hc1 Hl1. clearbody a1.
  assert (wrap32 (header_timestamp (Parse packet) - off) = timestamp c) as Hkey.
  { rewrite Hts. by apply wrap32_add_sub. }
  set (a3 := DeliverPacket a2 packet t_recv).
  assert (step a2 (ADeliver packet t_recv) = Some a3) as Hst3 by done.
  assert (frames_ a3 = [c]) as Hq by (subst a3; simpl; exact Hq2).
  assert (rtp_timestamp_delta_ a3 = off) as Hdelta
    by (subst a3; simpl; exact Hd2).
  assert (send_times_ a3 = {[timestamp c := t_send]}) as Hsend
    by (subst a3; simpl; exact Hs2).
  assert (recv_times_ a3 = {[timestamp c := t_recv]}) as Hrecv.
  { subst a3. unfold DeliverPacket. simpl. by rewrite Hd2, Hkey, Hr2. }
  assert (pool_view a3 = pool_view a0 ∧ comparisons_ a3 = []
          ∧ last_render_time_ a3 = 0) as (Hview & Hcmp & Hlast).
  { subst a3. unfold DeliverPacket. simpl. rewrite <- Hv2. by repeat split. }
  set (a4 := set_last_rendered_frame
               (AddFrameComparison (pop_front a3) c v false t_render) v).
  assert (RenderFrame a3 v t_render = Some a4) as Hrender.
  { apply (RenderFrame_front a3 v t_render c []); [done| |done].
    unfold send_timestamp_of. by rewrite Hdelta, Hv, Hkey. }
  set (cmp := mkFrameComparison c v false t_send t_recv t_render).
  assert (comparisons_ a4 = [cmp] ∧ send_times_ a4 = ∅ ∧ recv_times_ a4 = ∅
          ∧ frames_ a4 = [] ∧ rtp_timestamp_delta_ a4 = off
          ∧ last_rendered_frame_ a4 = v ∧ pool_view a4 = pool_view a0
          ∧ last_render_time_ a4 = 0)
    as (Hc4 & Hs4 & Hr4 & Hf4 & Hd4 & Hl4 & Hview4 & Hlast4).
  { clearbody a3. subst a4. unfold pool_view in *. simpl.
    rewrite Hsend, Hrecv, Hcmp, Hq. simpl.
    rewrite !lookup_singleton_eq, !delete_singleton_eq. simpl.
    done. }
  assert (run a0 [ACapture f; ASendRtp packet t_send; ADeliver packet t_recv;
                  ARender v t_render] = Some a4) as Hrun4.
  { do 3 (eapply run_step; [eassumption|]).
    eapply run_step; [exact Hrender|done]. }
  assert (Inv a4) as HI4
    by (eapply run_Inv; [apply (Inv_new n cores); lia|exact Hrun4]).
  clearbody a4. clear Hrender.
  unfold pool_view in Hview4.
  injection Hview4 as Hto Hrec Hproc Hdrop Hdone Hsig Hperf Hpool Hp Hss Hst Hrt He Hrd.
  destruct (CompareFrames_call_front a4 0%nat cmp [] HI4)
    as (a & Hrun & Hqa & _ & Hproca & _ & _ & Hpsnr & Hssim & Hsender & Hrecvr
        & He2e & Hrdelta & Hdropped & Hcrit & _).
  { rewrite Hpool. simpl. apply lookup_replicate_2.
    pose proof (num_comparison_threads_pos cores Hcores). lia. }
  { exact Hc4. }
  { rewrite Hrec, Hto. simpl. lia. }
  exists a. split.
  { unfold frame_round_trip. rewrite run_app. fold a0. by rewrite Hrun4. }
  unfold crit_view in Hcrit.
  injection Hcrit as Hcd Hcf Hcl Hcs Hcr _.
  rewrite Hsender, Hrecvr, He2e, Hpsnr, Hssim, Hrdelta, Hdropped, Hproca.
  rewrite Hcd, Hcf, Hcl, Hcs, Hcr, Hproc.
  unfold PerformFrameComparison. simpl.
  rewrite Hlast4, Hdrop. simpl. unfold AddSample. simpl.
  rewrite Hst, Hrt, He, Hp, Hss, Hrd. simpl.
  repeat split; done.
Qed.

End EndToEnd.

(** * Properties of the Opus encoder *)

Module OpusFacts.
Import Opus.

Section Facts.
Context {Inst : Type} `{Env Inst}.

Lemma to_size_small z : 0 ≤ z < 2 ^ size_bits → to_size z = z.
Proof. unfold to_size. apply Z.mod_small. Qed.

Lemma IsOk_true c :
  IsOk c = true ↔
  0 < frame_size_ms c ∧ Z.rem (frame_size_ms c) 10 = 0
  ∧ (num_channels c = 1 ∨ num_channels c = 2)
  ∧ kMinBitrateBps ≤ bitrate_bps c ≤ kMaxBitrateBps
  ∧ 0 ≤ complexity c ≤ 10.
Proof.
  unfold IsOk, kMinBitrateBps, kMaxBitrateBps.
  destruct (Z.leb_spec (frame_size_ms c) 0),
    (Z.eqb_spec (Z.rem (frame_size_ms c) 10) 0),
    (Z.eqb_spec (num_channels c) 1), (Z.eqb_spec (num_channels c) 2),
    (Z.ltb_spec (bitrate_bps c) 500), (Z.ltb_spec 512000 (bitrate_bps c)),
    (Z.ltb_spec (complexity c) 0), (Z.ltb_spec 10 (complexity c));
    simpl; split; try done; try lia; intros (? & ? & ? & ? & ?); lia.
Qed.

Lemma clamp_in_range b :
  kMinBitrateBps ≤ b ≤ kMaxBitrateBps →
  Z.max (Z.min b kMaxBitrateBps) kMinBitrateBps = b.
Proof. unfold kMinBitrateBps, kMaxBitrateBps. lia. Qed.

Lemma size_bits_room (n : Z) : 1 ≤ n → n * 1300 < 2 ^ size_bits → 1300 < 2 ^ size_bits.
Proof. nia. Qed.

(** X16: the constructor accepts exactly the configurations that pass
    [IsOk], for which the buffer for one packet (frame_size_ms / 10 frames of
    480 samples per channel) can be reserved, and that the Opus library
    takes.  The encoder it returns collects frame_size_ms / 10 frames of 480
    samples per channel for each packet, starts with an empty buffer and
    targets the configured bit rate as it is; any other configuration ends
    in a failed check or a failed allocation. *)
Theorem X16_constructor_accepts_IsOk_configs (config : Config) :
  frame_size_ms config * 130 < 2 ^ size_bits →
  new_AudioEncoderOpus config
  = (if IsOk config
        && vector_reserve (Z.quot (frame_size_ms config) 10
                           * (480 * num_channels config))
     then
       inst ← library_setup config;
       Some {| num_10ms_frames_per_packet_ := Z.quot (frame_size_ms config) 10;
               num_channels_ := num_channels config;
               payload_type_ := payload_type config;
               application_ := application config;
               dtx_enabled_ := dtx_enabled config;
               samples_per_10ms_frame_ := 480 * num_channels config;
               inst_ := inst;
               bitrate_bps_ := bitrate_bps config;
               input_buffer_ := [];
               first_timestamp_in_buffer_ := 0 |}
     else None)
  ∧ (IsOk config = true →
     vector_reserve (Z.quot (frame_size_ms config) 10
                     * (480 * num_channels config)) = false →
     new_AudioEncoderOpus config = None)
  ∧ ∀ e, new_AudioEncoderOpus config = Some e → Wf e.
Proof.
  intros Hsize.
  assert (new_AudioEncoderOpus config
          = (if IsOk config
                && vector_reserve (Z.quot (frame_size_ms config) 10
                                   * (480 * num_channels config))
             then
               inst ← library_setup config;
               Some {| num_10ms_frames_per_packet_ := Z.quot (frame_size_ms config) 10;
                       num_channels_ := num_channels config;
                       payload_type_ := payload_type config;
                       application_ := application config;
                       dtx_enabled_ := dtx_enabled config;
                       samples_per_10ms_frame_ := 480 * num_channels config;
                       inst_ := inst;
                       bitrate_bps_ := bitrate_bps config;
                       input_buffer_ := [];
                       first_timestamp_in_buffer_ := 0 |}
             else None)) as Hnew.
  { unfold new_AudioEncoderOpus.
    destruct (IsOk config) eqn:Hok.
    - apply IsOk_true in Hok as (Hms & Hrem & Hch & Hbit & Hcx).
      assert (Z.quot (frame_size_ms config) 10 * 10 = frame_size_ms config) as Hq.
      { pose proof (Z.quot_rem' (frame_size_ms config) 10). lia. }
      rewrite (CheckedDivExact_exact _ 10) by done. simpl.
      rewrite (CheckedDivExact_exact kSampleRateHz 100) by done. simpl.
      change (Z.quot kSampleRateHz 100) with 480.
      rewrite !(to_size_small (Z.quot _ _)) by lia.
      rewrite !(to_size_small (480 * _)) by lia.
      rewrite !to_size_small by nia.
      destruct (vector_reserve _); simpl; [|done].
      unfold library_setup, SetTargetBitrate. simpl.
      rewrite clamp_in_range by done.
      destruct (check_zero (WebRtcOpus_EncoderCreate _ _)) as [i0|]; simpl; [|done].
      destruct (check_zero (WebRtcOpus_SetBitRate _ _)) as [i1|]; simpl; [|done].
      destruct (check_zero (if fec_enabled config then _ else _)) as [i2|];
        simpl; [|done].
      destruct (check_zero (WebRtcOpus_SetMaxPlaybackRate _ _)) as [i3|];
        simpl; [|done].
      destruct (check_zero (WebRtcOpus_SetComplexity _ _)) as [i4|];
        simpl; [|done].
      by destruct (check_zero (if dtx_enabled config then _ else _)).
    - destruct (CheckedDivExact (frame_size_ms config) 10); simpl; [|done].
      by destruct (CheckedDivExact kSampleRateHz 100). }
  split; [exact Hnew|].
  split; [intros Hok Hres; by rewrite Hnew, Hok, Hres|].
  intros e He. rewrite Hnew in He.
  destruct (IsOk config) eqn:Hok; [|done].
  apply IsOk_true in Hok as (Hms & Hrem & Hch & Hbit & Hcx).
  destruct (vector_reserve _); simpl in He; [|done].
  destruct (library_setup config) as [inst|]; simpl in He; [|done].
  injection He as <-.
  assert (Z.quot (frame_size_ms config) 10 * 10 = frame_size_ms config) as Hq.
  { pose proof (Z.quot_rem' (frame_size_ms config) 10). lia. }
  constructor; simpl; try done; try lia.
  exists 0. lia.
Qed.

(** X17: [SetTargetBitrate] clamps.  Whatever rate is asked for, the
    encoder afterwards reports a target within 500 and 512000 bit/s: the
    request itself when it lies in that range, the nearer limit otherwise.
    The library is asked for that same rate, the buffer is not touched, a
    well-formed encoder stays well-formed, and the call fails only if the
    library refuses the rate. *)
Theorem X17_SetTargetBitrate_clamps (e : AudioEncoderOpus) (bits_per_second : Z) :
  match SetTargetBitrate e bits_per_second with
  | Some e' =>
      GetTargetBitrate e'
      = Z.max kMinBitrateBps (Z.min bits_per_second kMaxBitrateBps)
      ∧ kMinBitrateBps ≤ GetTargetBitrate e' ≤ kMaxBitrateBps
      ∧ (GetTargetBitrate e' = bits_per_second
         ↔ kMinBitrateBps ≤ bits_per_second ≤ kMaxBitrateBps)
      ∧ WebRtcOpus_SetBitRate (inst_ e) (GetTargetBitrate e') = (0, inst_ e')
      ∧ input_buffer_ e' = input_buffer_ e
      ∧ (Wf e → Wf e')
  | None =>
      fst (WebRtcOpus_SetBitRate (inst_ e)
             (Z.max kMinBitrateBps (Z.min bits_per_second kMaxBitrateBps))) ≠ 0
  end.
Proof.
  unfold SetTargetBitrate, check_zero, GetTargetBitrate,
    kMinBitrateBps, kMaxBitrateBps.
  replace (Z.max (Z.min bits_per_second 512000) 500)
    with (Z.max 500 (Z.min bits_per_second 512000)) by lia.
  destruct (WebRtcOpus_SetBitRate (inst_ e) _) as [st i1] eqn:Hset. simpl.
  destruct (Z.eqb_spec st 0) as [->|Hst]; simpl; [|done].
  split; [done|]. split; [lia|]. split; [lia|]. split; [done|].
  split; [done|].
  intros [Hch Hspf Hn Hsize Hbit Hbuf]. constructor; simpl; try done.
  unfold kMinBitrateBps, kMaxBitrateBps. lia.
Qed.

(** X18: [MaxEncodedBytes] leaves the margin its comment promises.  For a
    well-formed encoder the result is 2 * frames * 10 * (bitrate / 8000 + 1)
    without any wrap-around: at least twice the bytes that the target bit
    rate produces over the duration of one packet, and never more than 1300
    bytes per 10 ms frame. *)
Theorem X18_MaxEncodedBytes_margin (e : AudioEncoderOpus) :
  Wf e →
  MaxEncodedBytes e
  = 2 * (num_10ms_frames_per_packet_ e * 10
         * (Z.quot (bitrate_bps_ e) 8000 + 1))
  ∧ 2 * (bitrate_bps_ e * (10 * num_10ms_frames_per_packet_ e))
    ≤ 8000 * MaxEncodedBytes e
  ∧ 20 * num_10ms_frames_per_packet_ e ≤ MaxEncodedBytes e
    ≤ 1300 * num_10ms_frames_per_packet_ e.
Proof.
  intros [_ _ Hn Hsize Hbit _]. unfold kMinBitrateBps, kMaxBitrateBps in Hbit.
  pose proof (size_bits_room _ Hn Hsize) as Hroom.
  set (n := num_10ms_frames_per_packet_ e) in *.
  set (q := Z.quot (bitrate_bps_ e) 8000).
  assert (0 ≤ q ≤ 64 ∧ bitrate_bps_ e < 8000 * (q + 1)) as [Hq Hlt].
  { subst q. pose proof (Z.quot_rem' (bitrate_bps_ e) 8000).
    pose proof (Z.rem_bound_pos (bitrate_bps_ e) 8000). lia. }
  assert (MaxEncodedBytes e = 2 * (n * 10 * (q + 1))) as Hmax.
  { unfold MaxEncodedBytes. change (1000 * 8) with 8000. fold n q.
    rewrite (to_size_small (q + 1)) by lia.
    rewrite (to_size_small (n * 10 * (q + 1))) by nia.
    apply to_size_small. nia. }
  rewrite Hmax. repeat split; nia.
Qed.

(** What [EncodeInternal] does to a well-formed encoder, with the checks
    and conversions resolved. *)
Lemma EncodeInternal_Wf (e : AudioEncoderOpus) rtp_timestamp audio max_bytes :
  Wf e →
  samples_per_10ms_frame_ e ≤ Z.of_nat (length audio) →
  let first := match input_buffer_ e with
               | [] => rtp_timestamp
               | _ => first_timestamp_in_buffer_ e
               end in
  let buffer :=
    input_buffer_ e ++ take (Z.to_nat (samples_per_10ms_frame_ e)) audio in
  Z.of_nat (length buffer)
  = Z.of_nat (length (input_buffer_ e)) + samples_per_10ms_frame_ e
  ∧ EncodeInternal e rtp_timestamp audio max_bytes
    = if Z.of_nat (length buffer)
         <? num_10ms_frames_per_packet_ e * samples_per_10ms_frame_ e
      then Some (default_EncodedInfo, [], with_buffer e buffer first)
      else
        let '(status, encoded, inst) :=
          WebRtcOpus_Encode (inst_ e) buffer
            (num_10ms_frames_per_packet_ e * 480) max_bytes in
        if status <? 0 then None
        else Some ({| encoded_bytes := status;
                      encoded_timestamp := first;
                      info_payload_type := payload_type_ e;
                      send_even_if_empty := true;
                      speech := 0 <? status |},
                   encoded,
                   with_inst (with_buffer e [] first) inst).
Proof.
  intros [Hch Hspf Hn Hsize Hbit (k & Hk & Hlen)] Haudio first buffer.
  pose proof (size_bits_room _ Hn Hsize) as Hroom.
  set (n := num_10ms_frames_per_packet_ e) in *.
  set (spf := samples_per_10ms_frame_ e) in *.
  assert (0 < spf ≤ 960) as Hspf_pos by lia.
  assert (Z.of_nat (length buffer) = Z.of_nat (length (input_buffer_ e)) + spf)
    as Hbuf.
  { subst buffer. rewrite length_app, length_take. lia. }
  split; [exact Hbuf|].
  unfold EncodeInternal. fold spf n first buffer.
  destruct (Z.ltb_spec (Z.of_nat (length audio)) spf) as [|_]; [lia|].
  rewrite (to_size_small (n * spf)) by nia.
  destruct (Z.ltb_spec (Z.of_nat (length buffer)) (n * spf)) as [|Hfull];
    [done|].
  assert (Z.of_nat (length buffer) = n * spf) as Heq by nia.
  rewrite Heq, Z.eqb_refl. simpl.
  rewrite (to_size_small (num_channels_ e)) by lia.
  rewrite CheckedDivExact_exact; [|lia|].
  2: { rewrite Hspf, Z.mul_assoc. apply Z.rem_mul. lia. }
  assert (Z.quot (n * spf) (num_channels_ e) = n * 480) as ->.
  { rewrite Hspf, Z.mul_assoc. apply Z.quot_mul. lia. }
  reflexivity.
Qed.

(** X19: [EncodeInternal] buffers whole 10 ms frames and encodes whole
    packets.  On a well-formed encoder a call with enough samples never
    fails one of its own checks: while the packet is incomplete it returns
    the empty info and only appends the frame; the call that completes the
    packet hands the library all buffered frames at once, stamps the packet
    with the RTP timestamp of the first buffered frame, and empties the
    buffer.  Either way the encoder stays well-formed, and the call fails
    only if the library reports an error. *)
Theorem X19_EncodeInternal_buffers_whole_frames
    (e : AudioEncoderOpus) rtp_timestamp audio max_bytes :
  Wf e →
  samples_per_10ms_frame_ e ≤ Z.of_nat (length audio) →
  match EncodeInternal e rtp_timestamp audio max_bytes with
  | Some (info, encoded, e') =>
      Wf e'
      ∧ bitrate_bps_ e' = bitrate_bps_ e
      ∧ (if Z.of_nat (length (input_buffer_ e)) + samples_per_10ms_frame_ e
            <? num_10ms_frames_per_packet_ e * samples_per_10ms_frame_ e
         then info = default_EncodedInfo ∧ encoded = []
              ∧ input_buffer_ e'
                = input_buffer_ e
                  ++ take (Z.to_nat (samples_per_10ms_frame_ e)) audio
              ∧ inst_ e' = inst_ e
         else input_buffer_ e' = []
              ∧ 0 ≤ encoded_bytes info
              ∧ send_even_if_empty info = true
              ∧ speech info = (0 <? encoded_bytes info)
              ∧ info_payload_type info = payload_type_ e
              ∧ WebRtcOpus_Encode (inst_ e)
                  (input_buffer_ e
                   ++ take (Z.to_nat (samples_per_10ms_frame_ e)) audio)
                  (num_10ms_frames_per_packet_ e * 480) max_bytes
                = (encoded_bytes info, encoded, inst_ e'))
      ∧ (if decide (input_buffer_ e = [])
         then first_timestamp_in_buffer_ e' = rtp_timestamp
         else first_timestamp_in_buffer_ e' = first_timestamp_in_buffer_ e)
      ∧ (input_buffer_ e' = [] →
         encoded_timestamp info = first_timestamp_in_buffer_ e')
  | None =>
      num_10ms_frames_per_packet_ e * samples_per_10ms_frame_ e
      ≤ Z.of_nat (length (input_buffer_ e)) + samples_per_10ms_frame_ e
      ∧ fst (fst (WebRtcOpus_Encode (inst_ e)
                    (input_buffer_ e
                     ++ take (Z.to_nat (samples_per_10ms_frame_ e)) audio)
                    (num_10ms_frames_per_packet_ e * 480) max_bytes)) < 0
  end.
Proof.
  intros HW Haudio.
  destruct (EncodeInternal_Wf e rtp_timestamp audio max_bytes HW Haudio)
    as [Hbuf ->].
  destruct HW as [Hch Hspf Hn Hsize Hbit (k & Hk & Hlen)].
  rewrite Hbuf.
  assert (∀ l : list Z,
            (if decide (input_buffer_ e = [])
             then match input_buffer_ e with
                  | [] => rtp_timestamp
                  | _ => first_timestamp_in_buffer_ e
                  end = rtp_timestamp
             else match input_buffer_ e with
                  | [] => rtp_timestamp
                  | _ => first_timestamp_in_buffer_ e
                  end = first_timestamp_in_buffer_ e)) as Hfirst.
  { intros _. by destruct (input_buffer_ e). }
  destruct (Z.ltb_spec (Z.of_nat (length (input_buffer_ e))
                        + samples_per_10ms_frame_ e)
              (num_10ms_frames_per_packet_ e * samples_per_10ms_frame_ e))
    as [Hlt|Hge].
  - split.
    { constructor; simpl; try done.
      exists (k + 1). rewrite length_app, length_take. nia. }
    split; [done|]. split; [done|]. split; [exact (Hfirst [])|].
    simpl. intros Hnil. apply app_eq_nil in Hnil as [_ Htake].
    apply (f_equal length) in Htake. rewrite length_take in Htake.
    simpl in Htake. lia.
  - destruct (WebRtcOpus_Encode _ _ _ _) as [[status encoded] inst] eqn:Henc.
    destruct (Z.ltb_spec status 0) as [Hneg|Hpos]; [by split|].
    split.
    { constructor; simpl; try done. exists 0. simpl. lia. }
    split; [done|]. simpl. split; [by repeat split|].
    split; [exact (Hfirst [])|done].
Qed.

Lemma encode_all_cons (e : AudioEncoderOpus) ts audio frames max_bytes :
  encode_all e ((ts, audio) :: frames) max_bytes
  = match EncodeInternal e ts audio max_bytes with
    | Some (info, _, e') =>
        match encode_all e' frames max_bytes with
        | Some (infos, e'') => Some (info :: infos, e'')
        | None => None
        end
    | None => None
    end.
Proof.
  simpl. destruct (EncodeInternal e ts audio max_bytes) as [[[info ?] e']|];
    simpl; [|done].
  by destruct (encode_all e' frames max_bytes) as [[infos e'']|].
Qed.

(** The frames of one packet, fed from any point of the buffering. *)
Lemma encode_all_packet frames : ∀ (e : AudioEncoderOpus) t0 max_bytes,
  Wf e →
  frames ≠ [] →
  Forall (λ f, samples_per_10ms_frame_ e ≤ Z.of_nat (length (snd f))) frames →
  Z.of_nat (length (input_buffer_ e))
  + Z.of_nat (length frames) * samples_per_10ms_frame_ e
  = num_10ms_frames_per_packet_ e * samples_per_10ms_frame_ e →
  match input_buffer_ e with
  | [] => t0 = (hd (0, []) frames).1
  | _ => t0 = first_timestamp_in_buffer_ e
  end →
  encode_all e frames max_bytes
  = let '(status, encoded, inst) :=
      WebRtcOpus_Encode (inst_ e) (input_buffer_ e ++ frames_read e frames)
        (num_10ms_frames_per_packet_ e * 480) max_bytes in
    if status <? 0 then None
    else Some (replicate (length frames - 1) default_EncodedInfo
               ++ [{| encoded_bytes := status;
                      encoded_timestamp := t0;
                      info_payload_type := payload_type_ e;
                      send_even_if_empty := true;
                      speech := 0 <? status |}],
               with_inst (with_buffer e [] t0) inst).
Proof.
  induction frames as [|[ts audio] frames IH]; intros e t0 max_bytes HW Hne
    Hall Hlen Ht0; [done|].
  inversion Hall as [|? ? Haudio Hall']; subst. simpl in Haudio.
  destruct (EncodeInternal_Wf e ts audio max_bytes HW Haudio) as [Hbuf Henc].
  pose proof HW as [Hch Hspf Hn Hsize Hbit (k & Hk & Hklen)].
  assert (0 < samples_per_10ms_frame_ e) as Hpos by lia.
  set (first := match input_buffer_ e with
                | [] => ts
                | _ => first_timestamp_in_buffer_ e
                end) in *.
  assert (first = t0) as Hfirst by (subst first; by destruct (input_buffer_ e)).
  rewrite encode_all_cons, Henc, Hbuf.
  rewrite length_cons, Nat2Z.inj_succ in Hlen.
  destruct frames as [|f frames].
  - (* the frame that completes the packet *)
    destruct (Z.ltb_spec (Z.of_nat (length (input_buffer_ e))
                          + samples_per_10ms_frame_ e)
                (num_10ms_frames_per_packet_ e * samples_per_10ms_frame_ e));
      [simpl in Hlen; lia|].
    unfold frames_read. simpl concat. rewrite app_nil_r, Hfirst.
    destruct (WebRtcOpus_Encode _ _ _ _) as [[status encoded] inst].
    by destruct (status <? 0).
  - destruct (Z.ltb_spec (Z.of_nat (length (input_buffer_ e))
                          + samples_per_10ms_frame_ e)
                (num_10ms_frames_per_packet_ e * samples_per_10ms_frame_ e))
      as [Hlt|]; [|rewrite length_cons, Nat2Z.inj_succ in Hlen; lia].
    set (e1 := with_buffer e
                 (input_buffer_ e
                  ++ take (Z.to_nat (samples_per_10ms_frame_ e)) audio) first).
    assert (Wf e1) as HW1.
    { constructor; simpl; try done.
      exists (k + 1). rewrite length_app, length_take. nia. }
    rewrite (IH e1 t0 max_bytes HW1); try done.
    + assert (input_buffer_ e1 ++ frames_read e1 (f :: frames)
              = input_buffer_ e ++ frames_read e ((ts, audio) :: f :: frames))
        as -> by (subst e1; unfold frames_read; simpl; by rewrite <- app_assoc).
      change (inst_ e1) with (inst_ e).
      change (num_10ms_frames_per_packet_ e1)
        with (num_10ms_frames_per_packet_ e).
      change (payload_type_ e1) with (payload_type_ e).
      destruct (WebRtcOpus_Encode (inst_ e)
                  (input_buffer_ e ++ frames_read e ((ts, audio) :: f :: frames))
                  _ _) as [[status encoded] inst].
      destruct (status <? 0); [done|].
      rewrite !length_cons. simpl. by rewrite Nat.sub_0_r.
    + subst e1. simpl input_buffer_. simpl samples_per_10ms_frame_.
      simpl num_10ms_frames_per_packet_.
      rewrite length_app, length_take. lia.
    + subst e1. simpl input_buffer_. simpl first_timestamp_in_buffer_.
      destruct (input_buffer_ e ++ take _ audio) eqn:Hnil; [|done].
      apply app_eq_nil in Hnil as [_ Htake].
      apply (f_equal length) in Htake. rewrite length_take in Htake.
      simpl in Htake. lia.
Qed.

(** X20: packets are made of frame_size_ms / 10 consecutive frames.
    Starting from an empty buffer, the calls for the 10 ms frames of one
    packet return the empty info for all frames but the last; the last call
    gives the library the samples of all the frames in the order they came
    and returns a packet stamped with the RTP timestamp of the first frame.
    The buffer is empty again afterwards. *)
Theorem X20_one_packet_from_N_frames
    (e : AudioEncoderOpus) t0 audio0 frames max_bytes :
  Wf e →
  input_buffer_ e = [] →
  Z.of_nat (length ((t0, audio0) :: frames)) = num_10ms_frames_per_packet_ e →
  Forall (λ f, samples_per_10ms_frame_ e ≤ Z.of_nat (length (snd f)))
    ((t0, audio0) :: frames) →
  encode_all e ((t0, audio0) :: frames) max_bytes
  = let '(status, encoded, inst) :=
      WebRtcOpus_Encode (inst_ e) (frames_read e ((t0, audio0) :: frames))
        (num_10ms_frames_per_packet_ e * 480) max_bytes in
    if status <? 0 then None
    else Some (replicate (length frames) default_EncodedInfo
               ++ [{| encoded_bytes := status;
                      encoded_timestamp := t0;
                      info_payload_type := payload_type_ e;
                      send_even_if_empty := true;
                      speech := 0 <? status |}],
               with_inst (with_buffer e [] t0) inst).
Proof.
  intros HW Hempty Hlen Hall.
  rewrite (encode_all_packet _ e t0 max_bytes HW); try done.
  - rewrite Hempty. simpl. by rewrite Nat.sub_0_r.
  - rewrite Hempty. simpl length at 1. lia.
  - by rewrite Hempty.
Qed.

(** X21: which codec instances give a usable configuration.
    [CreateConfig] followed by [IsOk] accepts exactly the codec instances
    whose packet size is a positive multiple of 480 samples (a whole number
    of 10 ms frames at 48 kHz), with one or two channels and a rate between
    500 and 512000 bit/s; the frame size is then pacsize / 48 ms and the
    application is VoIP for mono and audio for stereo. *)
Theorem X21_CreateConfig_accepts (codec_inst : CodecInst) :
  (∃ config, CreateConfig codec_inst = Some config ∧ IsOk config = true)
  ↔ 0 < pacsize codec_inst
    ∧ Z.rem (pacsize codec_inst) 480 = 0
    ∧ (channels codec_inst = 1 ∨ channels codec_inst = 2)
    ∧ kMinBitrateBps ≤ rate codec_inst ≤ kMaxBitrateBps.
Proof.
  assert (0 ≤ kDefaultComplexity ≤ 10) as Hcx
    by (unfold kDefaultComplexity; destruct low_complexity_platform; lia).
  pose proof (Z.quot_rem' (pacsize codec_inst) 48) as H48.
  pose proof (Z.quot_rem' (pacsize codec_inst) 480) as H480.
  pose proof (Z.quot_rem' (Z.quot (pacsize codec_inst) 48) 10) as H10.
  unfold CreateConfig. split.
  - intros (config & Hc & Hok).
    destruct (decide (Z.rem (pacsize codec_inst) 48 = 0)) as [Hrem|Hrem].
    + rewrite CheckedDivExact_exact in Hc by done. simpl in Hc.
      injection Hc as <-. apply IsOk_true in Hok. simpl in Hok.
      destruct Hok as (Hms & Hr10 & Hch & Hrate & _).
      repeat split; try done; try lia.
      pose proof (Z.rem_bound_pos (pacsize codec_inst) 480).
      lia.
    + by rewrite CheckedDivExact_inexact in Hc.
  - intros (Hpos & Hrem & Hch & Hrate).
    pose proof (Z.rem_bound_pos (pacsize codec_inst) 48).
    pose proof (Z.rem_bound_pos (Z.quot (pacsize codec_inst) 48) 10).
    assert (Z.rem (pacsize codec_inst) 48 = 0) as Hrem48 by lia.
    rewrite CheckedDivExact_exact by done. simpl.
    eexists. split; [reflexivity|]. apply IsOk_true. simpl.
    repeat split; try done; lia.
Qed.

End Facts.

End OpusFacts.

(** * The further properties evaluated *)

Section MoreEvaluation.
#[local] Existing Instance integer_metrics.
#[local] Existing Instance head_parser.

(** Two frames captured on a fresh analyzer. *)
Lemma X1_witness :
  frames_ (captures (new_VideoAnalyzer 2 1) [frame_at 10; frame_at 20])
  = [captured 10; captured 20]
  ∧ first_send_frame_ (captures (new_VideoAnalyzer 2 1) [frame_at 10; frame_at 20])
    = captured 10.
Proof.
  destruct (X1_captures_queue_and_first_frame 2 1 (frame_at 10) [frame_at 20]
              eq_refl) as (Hq & _ & Hf & _).
  split; [exact Hq|exact Hf].
Defined.

(** The first frame has capture timestamp 900; the first packet carries
    5000, an offset of 4100. *)
Lemma X2_witness :
  rtp_timestamp_delta_
    (SendRtp_locked (captures (new_VideoAnalyzer 2 1) [frame_at 10; frame_at 20])
       [5000] 11) = 4100.
Proof.
  apply (X2_first_packet_learns_offset 2 1 (frame_at 10) [frame_at 20] [5000]
           11 4100); [reflexivity | lia | reflexivity].
Defined.

Lemma X3_witness :
  ∃ a', run three_captured [ACapture (frame_at 40); ASendRtp [9000] 50] = Some a'
        ∧ rtp_timestamp_delta_ a' = 4100.
Proof.
  eexists. split; [vm_compute; reflexivity|].
  eapply (X3_nonzero_delta_is_final three_captured
            [ACapture (frame_at 40); ASendRtp [9000] 50]);
    [vm_compute; discriminate | vm_compute; reflexivity].
Defined.

(** Two packets of the frame captured at 10 ms, sent at 11 and at 13. *)
Lemma X4_witness :
  send_times_ (SendRtp_locked (SendRtp_locked three_captured [5000] 11) [5000] 13)
  = <[timestamp (captured 10) := 13]> (send_times_ three_captured).
Proof.
  pose proof (X4_send_time_last_packet_then_erased three_captured [5000] 11 13
                (captured 10) (rendered 5000) false 40 (rendered 5000) false 41)
    as W.
  cbv zeta in W. destruct W as (Hs & _);
    [vm_compute; discriminate | vm_compute; reflexivity | exact Hs].
Defined.

Lemma X5_witness :
  recv_times_
    (AddFrameComparison (DeliverPacket three_captured [5000] 12) (captured 10)
       (rendered 5000) false 40) !! timestamp (captured 10) = None.
Proof.
  pose proof (X5_recv_time_read_erased_and_late_packet three_captured [5000]
                12 45 (captured 10) (rendered 5000) false 40) as W.
  cbv zeta in W. destruct W as (_ & Hr & _);
    [vm_compute; reflexivity | exact Hr].
Defined.

(** Rendering the third of three queued frames takes all three. *)
Lemma X6_witness :
  ∃ a' consumed,
    RenderFrame three_captured (rendered 6800) 40 = Some a'
    ∧ frames_ three_captured = consumed ++ frames_ a'
    ∧ consumed ≠ [].
Proof.
  destruct (RenderFrame three_captured (rendered 6800) 40) as [a'|] eqn:Hr;
    [|vm_compute in Hr; discriminate].
  destruct (X6_RenderFrame_erases_consumed_times three_captured
              (rendered 6800) 40 a' Hr) as (consumed & Hq & Hne & _).
  exists a', consumed. split; [reflexivity|]. split; [exact Hq|exact Hne].
Defined.

(** The first two of the three queued frames come back in order. *)
Lemma X7_witness :
  ∃ a', renders three_captured [(rendered 5000, 40); (rendered 5900, 50)]
        = Some a'
        ∧ frames_ a' = [captured 30].
Proof.
  destruct (X7_in_order_rendering_drops_nothing [captured 10; captured 20]
              three_captured [captured 30]
              [(rendered 5000, 40); (rendered 5900, 50)])
    as (a' & cs & Hr & Hf & _).
  - reflexivity.
  - repeat constructor; vm_compute; congruence.
  - repeat constructor.
  - exists a'. split; [exact Hr|exact Hf].
Defined.

(** After the second frame has been rendered the first cannot be. *)
Lemma X8_witness :
  ∃ a', RenderFrame three_captured (rendered 5900) 40 = Some a'
        ∧ RenderFrame a' (rendered 5000) 50 = None.
Proof.
  eexists. split; [vm_compute; reflexivity|].
  eapply (X8_stale_render_is_fatal three_captured (rendered 5900) 40 _
            (rendered 5000) 50).
  - repeat constructor.
  - vm_compute. reflexivity.
  - vm_compute. discriminate.
Defined.

(** A thread takes the queued comparison and compares it. *)
Lemma X9_witness :
  ∃ a a',
    run (new_VideoAnalyzer 2 1)
      [ACapture (frame_at 10); ASendRtp [5000] 11; ARender (rendered 5000) 40]
    = Some a
    ∧ run a [AWorker 0; AWorker 0; AWorker 0] = Some a'
    ∧ performed a' ++ holding (comparison_thread_pool_ a') ++ comparisons_ a'
      ≡ₚ performed a ++ holding (comparison_thread_pool_ a) ++ comparisons_ a.
Proof.
  eexists _, _. split; [vm_compute; reflexivity|].
  split; [vm_compute; reflexivity|].
  eapply (X9_threads_conserve_comparisons [AWorker 0; AWorker 0; AWorker 0]).
  - repeat constructor.
  - vm_compute. reflexivity.
Defined.

Lemma X10_witness :
  ∃ a a',
    run (new_VideoAnalyzer 2 1)
      [ACapture (frame_at 10); ASendRtp [5000] 11; ARender (rendered 5000) 40]
    = Some a
    ∧ run a (CompareFrames_call 0) = Some a'
    ∧ comparisons_ a' = []
    ∧ frames_processed_ a' = 1.
Proof.
  eexists. 
  edestruct (X10_CompareFrames_call_takes_front 2 1
               [ACapture (frame_at 10); ASendRtp [5000] 11;
                ARender (rendered 5000) 40]) with (i := 0%nat)
    as (a' & Hr & Hq & _ & _ & _ & _ & Hp & _);
    [lia | vm_compute; reflexivity | reflexivity | reflexivity
    | vm_compute; reflexivity |].
  exists a'. split; [vm_compute; reflexivity|]. split; [exact Hr|].
  split; [exact Hq|exact Hp].
Defined.

(** After the one-frame run the budget is taken: an encoded frame that
    still arrives is not sampled. *)
Lemma X11_witness :
  ∃ a a',
    run (new_VideoAnalyzer 1 1) one_frame_run = Some a
    ∧ run a [AEncoded 1200] = Some a'
    ∧ encoded_frame_size_ a' = encoded_frame_size_ a.
Proof.
  eexists _, _. split; [vm_compute; reflexivity|].
  split; [vm_compute; reflexivity|].
  eapply (X11_encoded_frame_size_frozen 1 1 one_frame_run _ [AEncoded 1200]);
    [lia | vm_compute; reflexivity | reflexivity | vm_compute; reflexivity].
Defined.


Lemma X13_witness :
  ∃ a, run (new_VideoAnalyzer 1 1) one_frame_run = Some a
       ∧ length (samples (ssim_ a)) = length (samples (psnr_ a))
       ∧ length (samples (receiver_time_ a)) = length (samples (sender_time_ a)).
Proof.
  eexists. split; [vm_compute; reflexivity|].
  edestruct (X13_statistics_aligned 1 1 one_frame_run)
    as (_ & Hs & _ & Hr & _); [lia | vm_compute; reflexivity |].
  split; [exact Hs|exact Hr].
Defined.

(** With a budget of zero frames [Wait] is through after two time-outs. *)
Lemma X14_witness :
  Z.of_nat (snd (Wait (new_VideoAnalyzer 0 1) [[]; []; []])) ≤ 0 + 2.
Proof. apply (X14_Wait_bounded_by_budget 0 1 [[]; []; []]). lia. Defined.

Lemma X15_witness :
  ∃ a, run (new_VideoAnalyzer 1 1)
         (frame_round_trip (frame_at 10) [5000] 11 12 (rendered 5000) 40)
       = Some a
       ∧ samples (sender_time_ a) = [1]
       ∧ samples (receiver_time_ a) = [28]
       ∧ samples (end_to_end_ a) = [30].
Proof.
  destruct (X15_one_frame_round_trip 1 1 (frame_at 10) [5000] 4100 11 12
              (rendered 5000) 40)
    as (a & Hr & Hs & Hrc & He & _);
    [lia | lia | reflexivity | lia | reflexivity | reflexivity |].
  exists a. split; [exact Hr|]. split; [exact Hs|]. split; [exact Hrc|exact He].
Defined.

(** A thread of a fresh analyzer finds nothing to compare. *)
Lemma X23_witness :
  run (new_VideoAnalyzer 2 1) (CompareFrames_call 0)
  = Some (set_event false (new_VideoAnalyzer 2 1)).
Proof.
  apply (X23_idle_call_changes_nothing (new_VideoAnalyzer 2 1) 0);
    [reflexivity | reflexivity | vm_compute; reflexivity].
Defined.

End MoreEvaluation.

Section OpusEvaluation.
Import Opus.
#[local] Existing Instance counting_opus.

Lemma mono_20ms_Wf : Wf mono_20ms.
Proof.
  constructor; simpl; try lia; [unfold kMinBitrateBps, kMaxBitrateBps; lia|].
  exists 0. simpl. lia.
Qed.

(** The default configuration gives the mono 20 ms encoder; a frame size
    of 2147483640 ms passes [IsOk], but the buffer for its 214748364 frames
    is not granted. *)
Lemma X16_witness :
  (∃ e, new_AudioEncoderOpus default_Config = Some e
        ∧ num_10ms_frames_per_packet_ e = 2
        ∧ samples_per_10ms_frame_ e = 480
        ∧ bitrate_bps_ e = 64000)
  ∧ new_AudioEncoderOpus
      (mkConfig 2147483640 1 120 kVoip 64000 false 48000 9 false) = None.
Proof.
  split.
  - edestruct (OpusFacts.X16_constructor_accepts_IsOk_configs default_Config)
      as [Hnew _]; [vm_compute; reflexivity|].
    eexists. split; [rewrite Hnew; vm_compute; reflexivity|].
    repeat split.
  - edestruct (OpusFacts.X16_constructor_accepts_IsOk_configs
                 (mkConfig 2147483640 1 120 kVoip 64000 false 48000 9 false))
      as (_ & Hfail & _); [vm_compute; reflexivity|].
    apply Hfail; vm_compute; reflexivity.
Defined.

Lemma X18_witness : MaxEncodedBytes mono_20ms = 360.
Proof.
  destruct (OpusFacts.X18_MaxEncodedBytes_margin mono_20ms mono_20ms_Wf)
    as [Hmax _].
  rewrite Hmax. reflexivity.
Defined.

(** The first 10 ms frame of a 20 ms packet is only buffered. *)
Lemma X19_witness :
  ∃ e', EncodeInternal mono_20ms 960 (replicate 480 7) 1500
        = Some (default_EncodedInfo, [], e')
        ∧ Wf e'.
Proof.
  pose proof (OpusFacts.X19_EncodeInternal_buffers_whole_frames mono_20ms 960
                (replicate 480 7) 1500 mono_20ms_Wf) as W.
  assert (samples_per_10ms_frame_ mono_20ms
          ≤ Z.of_nat (length (replicate 480 7))) as Hlen
    by (vm_compute; discriminate).
  specialize (W Hlen).
  destruct (EncodeInternal mono_20ms 960 (replicate 480 7) 1500)
    as [[[info encoded] e']|] eqn:He.
  - destruct W as (HW & _). exists e'. split; [|exact HW].
    vm_compute in He. injection He as <- <- <-. reflexivity.
  - vm_compute in He. discriminate.
Defined.

(** Two 10 ms frames make one packet, stamped with the first timestamp. *)
Lemma X20_witness :
  ∃ info e',
    encode_all mono_20ms [(960, replicate 480 7); (1440, replicate 480 8)] 1500
    = Some ([default_EncodedInfo; info], e')
    ∧ encoded_timestamp info = 960
    ∧ encoded_bytes info = 2
    ∧ input_buffer_ e' = [].
Proof.
  pose proof (OpusFacts.X20_one_packet_from_N_frames mono_20ms 960
                (replicate 480 7) [(1440, replicate 480 8)] 1500
                mono_20ms_Wf eq_refl eq_refl) as W.
  assert (Forall (λ f, samples_per_10ms_frame_ mono_20ms
                       ≤ Z.of_nat (length (snd f)))
            [(960, replicate 480 7); (1440, replicate 480 8)]) as Hall
    by (repeat constructor; vm_compute; discriminate).
  specialize (W Hall). rewrite W.
  eexists _, _. split; [vm_compute; reflexivity|]. repeat split.
Defined.

End OpusEvaluation.
